(** * expect_test: snapshot lifecycle and conflict resolution

    A shallow embedding of [expect_test.py].  Python values become an
    inductive type, dictionaries become insertion-ordered association lists,
    the mutable [SnapshotManager] and its snapshot file become an explicit
    state threaded through a small state-and-exception monad, and the
    library routines the module calls ([json.dumps], [json.load],
    [hashlib.md5]) are modelled next to it.

    Scope of the value universe: [None], booleans, integers, strings, lists,
    tuples, dictionaries keyed by [None], booleans, integers or strings,
    objects carrying a [__dict__], and objects known only by their [str()].
    Floating-point numbers are not represented: a result that holds one
    and a snapshot file that holds one are outside this development.  A
    Python [str] is a sequence of code points; here a character is a code
    point below 256.  The snapshot file is a sequence of bytes, which
    [open(.., 'r')] decodes as UTF-8, the encoding of a UTF-8 locale.  The
    limits of the interpreter (recursion depth, digits of an integer that
    is converted from or to text) are not represented either. *)

From Stdlib Require Import List String Ascii ZArith Bool Lia Arith.
From Stdlib Require Import Permutation DecimalString DecimalPos.
Import ListNotations.
Local Open Scope string_scope.
Local Open Scope Z_scope.
#[local] Set Warnings "-register-all".

(** ** Python values *)

(** Hashable values that occur as dictionary keys. *)
Inductive key : Type :=
| KNone
| KBool (b : bool)
| KInt (z : Z)
| KStr (s : string).

Inductive value : Type :=
| VNone
| VBool (b : bool)
| VInt (z : Z)
| VStr (s : string)
| VList (l : list value)
| VTuple (l : list value)
| VDict (d : list (key * value))
| VObject (str : string) (attrs : list (string * value))
    (* an instance with a [__dict__]: [str] is [str(o)], [attrs] is [vars(o)] *)
| VOpaque (str : string).
    (* any other object, known by [str(o)] only *)

Definition dict := list (key * value).

(** Induction over [value] that reaches inside lists and dictionaries. *)
Section value_induction.
Variable P : value -> Prop.
Hypothesis HNone : P VNone.
Hypothesis HBool : forall b, P (VBool b).
Hypothesis HInt : forall z, P (VInt z).
Hypothesis HStr : forall s, P (VStr s).
Hypothesis HList : forall l, Forall P l -> P (VList l).
Hypothesis HTuple : forall l, Forall P l -> P (VTuple l).
Hypothesis HDict : forall d, Forall (fun kv => P (snd kv)) d -> P (VDict d).
Hypothesis HObject :
  forall str attrs, Forall (fun kv => P (snd kv)) attrs -> P (VObject str attrs).
Hypothesis HOpaque : forall str, P (VOpaque str).

Fixpoint value_ind' (v : value) : P v :=
  match v with
  | VNone => HNone
  | VBool b => HBool b
  | VInt z => HInt z
  | VStr s => HStr s
  | VList l =>
      HList l ((fix go (l : list value) : Forall P l :=
                  match l with
                  | [] => Forall_nil _
                  | x :: r => Forall_cons _ (value_ind' x) (go r)
                  end) l)
  | VTuple l =>
      HTuple l ((fix go (l : list value) : Forall P l :=
                   match l with
                   | [] => Forall_nil _
                   | x :: r => Forall_cons _ (value_ind' x) (go r)
                   end) l)
  | VDict d =>
      HDict d ((fix go (d : list (key * value))
                  : Forall (fun kv => P (snd kv)) d :=
                  match d with
                  | [] => Forall_nil _
                  | (k, x) :: r =>
                      Forall_cons (P := fun kv => P (snd kv)) (k, x)
                        (value_ind' x) (go r)
                  end) d)
  | VObject s a =>
      HObject s a ((fix go (d : list (string * value))
                      : Forall (fun kv => P (snd kv)) d :=
                      match d with
                      | [] => Forall_nil _
                      | (k, x) :: r =>
                          Forall_cons (P := fun kv => P (snd kv)) (k, x)
                            (value_ind' x) (go r)
                      end) a)
  | VOpaque s => HOpaque s
  end.
End value_induction.

(** ** Dictionaries *)

(** [int(b)]: a Python [bool] is an [int]. *)
Definition int_of_bool (b : bool) : Z := if b then 1 else 0.

(** [k1 == k2] on keys.  [True == 1] and [False == 0], so they are the
    same key. *)
Definition key_eqb (k1 k2 : key) : bool :=
  match k1, k2 with
  | KNone, KNone => true
  | KBool a, KBool b => Bool.eqb a b
  | KBool a, KInt z | KInt z, KBool a => int_of_bool a =? z
  | KInt a, KInt b => a =? b
  | KStr a, KStr b => String.eqb a b
  | _, _ => false
  end.

(** [d.get(k)] as an option: the value at the key equal to [k]. *)
Fixpoint dict_get {A : Type} (k : key) (d : list (key * A)) : option A :=
  match d with
  | [] => None
  | (k', v) :: r => if key_eqb k k' then Some v else dict_get k r
  end.

(** [k in d]. *)
Definition dict_mem {A : Type} (k : key) (d : list (key * A)) : bool :=
  match dict_get k d with Some _ => true | None => false end.

(** [d[k] = v]: an existing key keeps its position (and its key object),
    a new key goes last. *)
Fixpoint dict_set {A : Type} (k : key) (v : A) (d : list (key * A))
  : list (key * A) :=
  match d with
  | [] => [(k, v)]
  | (k', v') :: r =>
      if key_eqb k k' then (k', v) :: r else (k', v') :: dict_set k v r
  end.

(** [d.update(other)], also the effect of [**other] in a dict display. *)
Definition dict_update {A : Type} (d other : list (key * A))
  : list (key * A) :=
  fold_left (fun acc kv => dict_set (fst kv) (snd kv) acc) other d.

(** The keys of a dictionary are pairwise different under [==]: what
    every Python [dict] satisfies. *)
Fixpoint keys_distinct {A : Type} (d : list (key * A)) : bool :=
  match d with
  | [] => true
  | (k, _) :: r => negb (dict_mem k r) && keys_distinct r
  end.

(** ** Equality of values: Python's [==] *)

Fixpoint py_eq (a b : value) {struct a} : bool :=
  match a, b with
  | VNone, VNone => true
  | VBool x, VBool y => Bool.eqb x y
  | VBool x, VInt y => int_of_bool x =? y
  | VInt x, VBool y => x =? int_of_bool y
  | VInt x, VInt y => x =? y
  | VStr x, VStr y => String.eqb x y
  | VList xs, VList ys | VTuple xs, VTuple ys =>
      (fix seq_eq (xs ys : list value) {struct xs} : bool :=
         match xs, ys with
         | [], [] => true
         | x :: xs', y :: ys' => py_eq x y && seq_eq xs' ys'
         | _, _ => false
         end) xs ys
  | VDict d1, VDict d2 =>
      (* same length, and every key of [d1] is in [d2] with an equal value *)
      (Nat.eqb (List.length d1) (List.length d2)) &&
      (fix items_eq (d : list (key * value)) {struct d} : bool :=
         match d with
         | [] => true
         | (k, x) :: r =>
             match dict_get k d2 with
             | Some y => py_eq x y && items_eq r
             | None => false
             end
         end) d1
  | _, _ => false
      (* other objects compare by identity, which two values never share *)
  end.

(** The two loops inside [py_eq], by name. *)
Fixpoint seq_eq (xs ys : list value) : bool :=
  match xs, ys with
  | [], [] => true
  | x :: xs', y :: ys' => py_eq x y && seq_eq xs' ys'
  | _, _ => false
  end.

Definition items_eq (d2 : list (key * value))
  : list (key * value) -> bool :=
  fix items_eq (d : list (key * value)) : bool :=
    match d with
    | [] => true
    | (k, x) :: r =>
        match dict_get k d2 with
        | Some y => py_eq x y && items_eq r
        | None => false
        end
    end.

(** [a != b]. *)
Definition py_ne (a b : value) : bool := negb (py_eq a b).

(** ** Normalization: [_serialize_value] *)

(** [vars(o)] as a dictionary: attribute names are strings. *)
Definition vars (attrs : list (string * value)) : dict :=
  map (fun kv => (KStr (fst kv), snd kv)) attrs.

Fixpoint _serialize_value (v : value) : value :=
  match v with
  | VNone => VNone
  | VStr _ | VInt _ | VBool _ => v
  | VList l | VTuple l => VList (map _serialize_value l)
  | VDict d => VDict (map (fun kv => (fst kv, _serialize_value (snd kv))) d)
  | VObject _ attrs =>
      (* [_serialize_value(vars(value))]: [vars] has string keys *)
      VDict (map (fun kv => (KStr (fst kv), _serialize_value (snd kv))) attrs)
  | VOpaque s => VStr s
  end.

(** ** Exceptions *)

Inductive exn_kind : Type :=
| AssertionError
| ValueError
| TypeError
| KeyError
| AttributeError
| OSError
| UnboundLocalError
| EOFError
| SystemExit
| JSONDecodeError
| UnicodeDecodeError
| Foreign (name : string) (is_exception : bool)
    (* a class of the code under test; [is_exception] tells whether it
       derives from [Exception] *)
| OutsideModel.
    (* not a Python exception: the run met a value this development does
       not represent (a float, a code point above 255), and nothing is
       said about how it goes on *)

(** A raised exception: its class and [str(e)].  The text of exceptions
    raised by library code is indicative; the text of those raised by
    [expect_test.py] is the source's. *)
Inductive exn : Type := Exn (kind : exn_kind) (msg : string).

Inductive result (A : Type) : Type :=
| Ok (a : A)
| Raise (e : exn).
Arguments Ok {A} a.
Arguments Raise {A} e.

(** ** Characters and text *)

Definition dquote : ascii := "034"%char.
Definition backslash : ascii := "092"%char.
Definition newline : ascii := "010"%char.
Definition chr (c : ascii) : string := String c EmptyString.

(** [s * n] *)
Fixpoint repeat_str (s : string) (n : nat) : string :=
  match n with
  | O => EmptyString
  | S n' => s ++ repeat_str s n'
  end.

(** [int.__repr__] *)
Definition intstr (z : Z) : string := NilZero.string_of_int (Z.to_int z).

(** The first [n] characters of [s]: [s[:n]]. *)
Fixpoint take (n : nat) (s : string) : string :=
  match n, s with
  | S n', String c r => String c (take n' r)
  | _, _ => EmptyString
  end.

(** [sub in s] on strings. *)
Fixpoint contains (sub s : string) : bool :=
  String.prefix sub s ||
  match s with
  | EmptyString => false
  | String _ r => contains sub r
  end.

(** ** Reading a text file

    [open(path, 'r')] in a UTF-8 locale: [read()] decodes the bytes of the
    file as UTF-8 and raises [UnicodeDecodeError] where they are not, then
    gives every line ending ("\r\n" or "\r") as "\n". *)
Module codecs.

Inductive decoding : Type :=
| Decoded (text : string)
| Undecodable     (* [UnicodeDecodeError]: a byte that UTF-8 does not allow *)
| Beyond.         (* UTF-8 throughout, with a code point above 255 *)

Definition between (lo hi : N) (b : ascii) : bool :=
  let n := N_of_ascii b in ((lo <=? n) && (n <=? hi))%N.

(** A continuation byte, [10xxxxxx]. *)
Definition is_continuation (b : ascii) : bool := between 128 191 b.

(** The second byte allowed after the lead byte [n] of a sequence of
    three or four: no overlong form, no surrogate, nothing above
    U+10FFFF. *)
Definition second_byte (n : N) (b : ascii) : bool :=
  if (n =? 224)%N then between 160 191 b
  else if (n =? 237)%N then between 128 159 b
  else if (n =? 240)%N then between 144 191 b
  else if (n =? 244)%N then between 128 143 b
  else is_continuation b.

Definition emit (c : ascii) (d : decoding) : decoding :=
  match d with
  | Decoded text => Decoded (String c text)
  | _ => d
  end.

(** After a code point above 255. *)
Definition pass (d : decoding) : decoding :=
  match d with
  | Undecodable => Undecodable
  | _ => Beyond
  end.

(** [codecs.utf_8_decode(bytes, 'strict')] *)
Fixpoint utf_8_decode (bytes : string) : decoding :=
  match bytes with
  | EmptyString => Decoded EmptyString
  | String b r =>
      let n := N_of_ascii b in
      if (n <? 128)%N then emit b (utf_8_decode r)
      else if between 194 223 b then
        match r with
        | String b2 r2 =>
            if is_continuation b2 then
              if (n <=? 195)%N then
                emit (ascii_of_N (64 * (n - 192) + (N_of_ascii b2 - 128)))
                  (utf_8_decode r2)
              else pass (utf_8_decode r2)
            else Undecodable
        | EmptyString => Undecodable
        end
      else if between 224 239 b then
        match r with
        | String b2 (String b3 r3) =>
            if second_byte n b2 && is_continuation b3
            then pass (utf_8_decode r3) else Undecodable
        | _ => Undecodable
        end
      else if between 240 244 b then
        match r with
        | String b2 (String b3 (String b4 r4)) =>
            if second_byte n b2 && is_continuation b3 && is_continuation b4
            then pass (utf_8_decode r4) else Undecodable
        | _ => Undecodable
        end
      else Undecodable
  end.

(** Universal newlines: what [read()] makes of the line endings. *)
Fixpoint translate_newlines (text : string) : string :=
  match text with
  | EmptyString => EmptyString
  | String c r =>
      if Ascii.eqb c "013" then
        match r with
        | String c2 r2 =>
            if Ascii.eqb c2 newline then String newline (translate_newlines r2)
            else String newline (translate_newlines r)
        | EmptyString => chr newline
        end
      else String c (translate_newlines r)
  end.

End codecs.

(** [f.read()] on the file whose bytes are [content]. *)
Definition read (content : string) : result string :=
  match codecs.utf_8_decode content with
  | codecs.Decoded text => Ok (codecs.translate_newlines text)
  | codecs.Undecodable =>
      Raise (Exn UnicodeDecodeError "'utf-8' codec can't decode byte")
  | codecs.Beyond => Raise (Exn OutsideModel "read")
  end.

(** ** The [json] library: encoder

    After CPython 3.11's [json/encoder.py].  The encoder is a generator:
    what it has yielded before an exception is already with its consumer,
    so an encoding is the text yielded together with the exception, if
    any, that ended it. *)
Module json.

Definition emitted : Type := string * option exn.

Definition yield (s : string) : emitted := (s, None).
Definition throw (e : exn) : emitted := (EmptyString, Some e).

(** Run [b] after [a], unless [a] raised. *)
Definition andthen (a b : emitted) : emitted :=
  match snd a with
  | Some _ => a
  | None => (fst a ++ fst b, snd b)
  end.
Infix "+>" := andthen (at level 61, left associativity).

Definition hex_digit (n : N) : ascii :=
  ascii_of_N (if (n <? 10)%N then 48 + n else 87 + n).

(** One character under [ESCAPE_ASCII] and [ESCAPE_DCT]; a code point
    outside [' '..'~'] is written [\u00xx]. *)
Definition escape_char (c : ascii) : string :=
  let n := N_of_ascii c in
  if (n =? 34)%N then String backslash (chr dquote)
  else if (n =? 92)%N then String backslash (chr backslash)
  else if (n =? 10)%N then String backslash "n"
  else if (n =? 13)%N then String backslash "r"
  else if (n =? 9)%N then String backslash "t"
  else if (n =? 8)%N then String backslash "b"
  else if (n =? 12)%N then String backslash "f"
  else if ((n <? 32) || (126 <? n))%N then
    String backslash
      (String "u" (String "0" (String "0"
         (String (hex_digit (n / 16)) (chr (hex_digit (n mod 16)))))))
  else chr c.

Fixpoint escape (s : string) : string :=
  match s with
  | EmptyString => EmptyString
  | String c r => escape_char c ++ escape r
  end.

Definition encode_basestring_ascii (s : string) : string :=
  String dquote (escape s ++ chr dquote).

(** *** Sorting the items of a dictionary: [sorted(dct.items())]

    Items are tuples; their keys differ, so two items compare by their
    keys alone.  Strings compare with strings, integers and booleans with
    each other, and any other pair raises [TypeError]. *)
Definition is_str (k : key) : bool :=
  match k with KStr _ => true | _ => false end.

Definition is_num (k : key) : bool :=
  match k with KBool _ | KInt _ => true | _ => false end.

Definition key_num (k : key) : Z :=
  match k with KBool b => int_of_bool b | KInt z => z | _ => 0 end.

(** [k1 <= k2] where the two are comparable. *)
Definition key_leb (k1 k2 : key) : bool :=
  match k1, k2 with
  | KStr a, KStr b => String.leb a b
  | _, _ => key_num k1 <=? key_num k2
  end.

(** No comparison made while sorting can raise. *)
Definition sortable (ks : list key) : bool :=
  (List.length ks <=? 1)%nat || forallb is_str ks || forallb is_num ks.

Fixpoint insert {A : Type} (x : key * A) (l : list (key * A))
  : list (key * A) :=
  match l with
  | [] => [x]
  | y :: r => if key_leb (fst x) (fst y) then x :: y :: r else y :: insert x r
  end.

Definition sort {A : Type} (l : list (key * A)) : list (key * A) :=
  fold_right insert [] l.

Definition sorted {A : Type} (items : list (key * A))
  : result (list (key * A)) :=
  if sortable (map fst items) then Ok (sort items)
  else Raise (Exn TypeError "'<' not supported between instances").

(** The text of a key: strings as they are, [True], [False], [None] and
    integers by their JSON spelling. *)
Definition key_text (k : key) : string :=
  match k with
  | KStr s => s
  | KBool true => "true"
  | KBool false => "false"
  | KNone => "null"
  | KInt z => intstr z
  end.

Section encoder.
Variable indent : option nat.
Variable sort_keys : bool.
Variable default_str : bool.   (* [default=str] was passed *)

Definition item_separator : string :=
  match indent with Some _ => "," | None => ", " end.
Definition key_separator : string := ": ".

(** ['\n' + _indent * level], or nothing without [indent] *)
Definition newline_indent (level : nat) : string :=
  match indent with
  | Some n => String newline (repeat_str " " (n * level))
  | None => EmptyString
  end.

(** The elements of a list after its opening bracket. *)
Fixpoint chunks_list (sep : string) (first : bool) (l : list emitted)
  : emitted :=
  match l with
  | [] => yield EmptyString
  | e :: r =>
      yield (if first then EmptyString else sep) +> e
      +> chunks_list sep false r
  end.

(** The items of a dictionary after its opening brace; each value has
    been encoded at the level of the items. *)
Fixpoint chunks_dict (sep : string) (first : bool)
  (items : list (key * emitted)) : emitted :=
  match items with
  | [] => yield EmptyString
  | (k, e) :: r =>
      yield (if first then EmptyString else sep)
      +> yield (encode_basestring_ascii (key_text k))
      +> yield key_separator +> e
      +> chunks_dict sep false r
  end.

(** [_iterencode], [_iterencode_list] and [_iterencode_dict] at
    [_current_indent_level = level].  The values of a dictionary are
    encoded before its items are sorted: the order of the items depends
    on their keys only, and the text of a value on its level only, so
    the text yielded is that of sorting first. *)
Fixpoint _iterencode (o : value) (level : nat) {struct o} : emitted :=
  match o with
  | VStr s => yield (encode_basestring_ascii s)
  | VNone => yield "null"
  | VBool true => yield "true"
  | VBool false => yield "false"
  | VInt z => yield (intstr z)
  | VList l | VTuple l =>
      match l with
      | [] => yield "[]"
      | _ =>
          yield ("[" ++ newline_indent (S level))
          +> chunks_list (item_separator ++ newline_indent (S level)) true
               (map (fun v => _iterencode v (S level)) l)
          +> yield (newline_indent level)
          +> yield "]"
      end
  | VDict d =>
      match d with
      | [] => yield "{}"
      | _ =>
          let encoded :=
            map (fun kv => (fst kv, _iterencode (snd kv) (S level))) d in
          yield "{" +> yield (newline_indent (S level))
          +> match (if sort_keys then sorted encoded else Ok encoded) with
             | Raise e => throw e
             | Ok items =>
                 chunks_dict (item_separator ++ newline_indent (S level))
                   true items
                 +> yield (newline_indent level)
                 +> yield "}"
             end
      end
  | VObject s _ | VOpaque s =>
      (* [o = _default(o)]: [str(o)] under [default=str] *)
      if default_str then yield (encode_basestring_ascii s)
      else throw (Exn TypeError "Object is not JSON serializable")
  end.
End encoder.

(** [json.dumps(obj, indent=.., sort_keys=.., default=..)] *)
Definition dumps (indent : option nat) (sort_keys default_str : bool)
  (obj : value) : result string :=
  match _iterencode indent sort_keys default_str obj 0 with
  | (text, None) => Ok text
  | (_, Some e) => Raise e
  end.

(** *** Decoder

    After [json/decoder.py] and [json/scanner.py].  Positions and messages
    of [JSONDecodeError] are not kept.  A document with a float, or with
    an escape for a code point above 255, is [Unmodelled]. *)
Inductive scan (A : Type) : Type :=
| Scanned (a : A) (rest : string)
| DecodeError
| Unmodelled.
Arguments Scanned {A} a rest.
Arguments DecodeError {A}.
Arguments Unmodelled {A}.

Definition scan_map {A B : Type} (f : A -> B) (r : scan A) : scan B :=
  match r with
  | Scanned a rest => Scanned (f a) rest
  | DecodeError => DecodeError
  | Unmodelled => Unmodelled
  end.

(** [WHITESPACE]: space, tab, line feed, carriage return *)
Definition is_ws (c : ascii) : bool :=
  let n := N_of_ascii c in
  ((n =? 32) || (n =? 9) || (n =? 10) || (n =? 13))%N.

Fixpoint skip_ws (s : string) : string :=
  match s with
  | String c r => if is_ws c then skip_ws r else s
  | EmptyString => s
  end.

Definition is_digit (c : ascii) : bool :=
  let n := N_of_ascii c in ((48 <=? n) && (n <=? 57))%N.

Definition digit_val (c : ascii) : Z := Z.of_N (N_of_ascii c) - 48.

Definition hex_val (c : ascii) : option N :=
  let n := N_of_ascii c in
  if ((48 <=? n) && (n <=? 57))%N then Some (n - 48)%N
  else if ((97 <=? n) && (n <=? 102))%N then Some (n - 87)%N
  else if ((65 <=? n) && (n <=? 70))%N then Some (n - 55)%N
  else None.

(** [BACKSLASH]: the one-letter escapes *)
Definition unescape (c : ascii) : option ascii :=
  let n := N_of_ascii c in
  if (n =? 34)%N then Some dquote
  else if (n =? 92)%N then Some backslash
  else if (n =? 47)%N then Some "/"%char
  else if (n =? 98)%N then Some "008"%char
  else if (n =? 102)%N then Some "012"%char
  else if (n =? 110)%N then Some newline
  else if (n =? 114)%N then Some "013"%char
  else if (n =? 116)%N then Some "009"%char
  else None.

(** [scanstring] in strict mode, from the character after the opening
    quote. *)
Fixpoint scanstring (s : string) : scan string :=
  match s with
  | EmptyString => DecodeError
  | String c r =>
      if Ascii.eqb c dquote then Scanned EmptyString r
      else if Ascii.eqb c backslash then
        match r with
        | EmptyString => DecodeError
        | String e r1 =>
            if Ascii.eqb e "u" then
              match r1 with
              | String h1 (String h2 (String h3 (String h4 r2))) =>
                  match hex_val h1, hex_val h2, hex_val h3, hex_val h4 with
                  | Some a, Some b, Some c', Some d =>
                      if ((a =? 0) && (b =? 0))%N then
                        scan_map (String (ascii_of_N (16 * c' + d)))
                          (scanstring r2)
                      else Unmodelled
                  | _, _, _, _ => DecodeError
                  end
              | _ => DecodeError
              end
            else
              match unescape e with
              | Some ch => scan_map (String ch) (scanstring r1)
              | None => DecodeError
              end
        end
      else if (N_of_ascii c <? 32)%N then DecodeError
      else scan_map (String c) (scanstring r)
  end.

(** The digits at the head of [s], read as a number after [acc]. *)
Fixpoint digits (acc : Z) (s : string) : Z * string :=
  match s with
  | String c r => if is_digit c then digits (10 * acc + digit_val c) r
                  else (acc, s)
  | EmptyString => (acc, s)
  end.

Definition starts_with_digit (s : string) : bool :=
  match s with String c _ => is_digit c | EmptyString => false end.

(** Does a fraction or an exponent follow the integer part?  Then the
    number is a float. *)
Definition float_follows (s : string) : bool :=
  match s with
  | String c r =>
      if Ascii.eqb c "." then starts_with_digit r
      else if Ascii.eqb c "e" || Ascii.eqb c "E" then
        match r with
        | String sg r' =>
            if Ascii.eqb sg "+" || Ascii.eqb sg "-" then starts_with_digit r'
            else is_digit sg
        | EmptyString => false
        end
      else false
  | EmptyString => false
  end.

(** [NUMBER_RE] at the head of [s], then the constants [NaN],
    [Infinity] and [-Infinity]. *)
Definition scan_number (s : string) : scan value :=
  let '(neg, body) :=
    match s with
    | String c r => if Ascii.eqb c "-" then (true, r) else (false, s)
    | EmptyString => (false, s)
    end in
  let int_part :=
    match body with
    | String c r =>
        if Ascii.eqb c "0" then Some (0, r)
        else if is_digit c then Some (digits (digit_val c) r)
        else None
    | EmptyString => None
    end in
  match int_part with
  | Some (n, rest) =>
      if float_follows rest then Unmodelled
      else Scanned (VInt (if neg then - n else n)) rest
  | None =>
      if String.prefix "NaN" s || String.prefix "Infinity" s
         || String.prefix "-Infinity" s
      then Unmodelled else DecodeError
  end.

(** [s[n:]] *)
Fixpoint drop (n : nat) (s : string) : string :=
  match n, s with
  | S n', String _ r => drop n' r
  | _, _ => s
  end.

(** [scan_once], [JSONArray] and [JSONObject].  Every call uses up a
    character, so the recursion is on a bound [fuel] on the calls left;
    running out of it is nesting too deep for the bound. *)
Fixpoint scan_once (fuel : nat) (s : string) {struct fuel} : scan value :=
  match fuel with
  | O => Unmodelled
  | S f =>
      match s with
      | EmptyString => DecodeError
      | String c r =>
          if Ascii.eqb c dquote then scan_map VStr (scanstring r)
          else if Ascii.eqb c "{" then
            let r := skip_ws r in
            match r with
            | String c1 r1 =>
                if Ascii.eqb c1 "}" then Scanned (VDict []) r1
                else if Ascii.eqb c1 dquote then
                  scan_map (fun pairs => VDict (dict_update [] pairs))
                    (object_items f r1)
                else DecodeError
            | EmptyString => DecodeError
            end
          else if Ascii.eqb c "[" then
            let r := skip_ws r in
            match r with
            | String c1 r1 =>
                if Ascii.eqb c1 "]" then Scanned (VList []) r1
                else scan_map VList (array_items f r)
            | EmptyString => DecodeError
            end
          else if String.prefix "null" s then Scanned VNone (drop 4 s)
          else if String.prefix "true" s then Scanned (VBool true) (drop 4 s)
          else if String.prefix "false" s then
            Scanned (VBool false) (drop 5 s)
          else scan_number s
      end
  end

(** the values of an array, from the first character of a value *)
with array_items (fuel : nat) (s : string) {struct fuel}
  : scan (list value) :=
  match fuel with
  | O => Unmodelled
  | S f =>
      match scan_once f s with
      | Scanned v rest =>
          match skip_ws rest with
          | String c r =>
              if Ascii.eqb c "]" then Scanned [v] r
              else if Ascii.eqb c "," then
                scan_map (cons v) (array_items f (skip_ws r))
              else DecodeError
          | EmptyString => DecodeError
          end
      | DecodeError => DecodeError
      | Unmodelled => Unmodelled
      end
  end

(** the pairs of an object, from the character after the quote that
    opens a key *)
with object_items (fuel : nat) (s : string) {struct fuel}
  : scan (list (key * value)) :=
  match fuel with
  | O => Unmodelled
  | S f =>
      match scanstring s with
      | Scanned k rest =>
          match skip_ws rest with
          | String c r =>
              if Ascii.eqb c ":" then
                match scan_once f (skip_ws r) with
                | Scanned v rest' =>
                    match skip_ws rest' with
                    | String c' r' =>
                        if Ascii.eqb c' "}" then Scanned [(KStr k, v)] r'
                        else if Ascii.eqb c' "," then
                          match skip_ws r' with
                          | String q r'' =>
                              if Ascii.eqb q dquote then
                                scan_map (cons (KStr k, v))
                                  (object_items f r'')
                              else DecodeError
                          | EmptyString => DecodeError
                          end
                        else DecodeError
                    | EmptyString => DecodeError
                    end
                | DecodeError => DecodeError
                | Unmodelled => Unmodelled
                end
              else DecodeError
          | EmptyString => DecodeError
          end
      | DecodeError => DecodeError
      | Unmodelled => Unmodelled
      end
  end.

(** [json.loads(s)]: one value, white space around it, nothing else. *)
Definition loads (s : string) : result value :=
  match scan_once (2 * String.length s + 2) (skip_ws s) with
  | Scanned v rest =>
      match skip_ws rest with
      | EmptyString => Ok v
      | String _ _ => Raise (Exn JSONDecodeError "Extra data")
      end
  | DecodeError => Raise (Exn JSONDecodeError "malformed document")
  | Unmodelled => Raise (Exn OutsideModel "json.loads")
  end.

(** [json.load(fp)] is [loads(fp.read())]; [fp] is known by the bytes
    of its file. *)
Definition load (fp : string) : result value :=
  match read fp with
  | Ok text => loads text
  | Raise e => Raise e
  end.

End json.

(** ** [hashlib.md5]

    The MD5 digest of RFC 1321 over 32-bit words held in [Z], with the
    wrap-around of each addition written out. *)
Module hashlib.

Definition mask32 (x : Z) : Z := Z.land x 4294967295.
Definition add32 (x y : Z) : Z := mask32 (x + y).
Definition not32 (x : Z) : Z := Z.lxor x 4294967295.
Definition rotl32 (x : Z) (n : Z) : Z :=
  mask32 (Z.lor (Z.shiftl x n) (Z.shiftr x (32 - n))).

(** Per-round shift amounts. *)
Definition S_table : list Z :=
  [
     7; 12; 17; 22; 7; 12; 17; 22; 7; 12; 17; 22; 7; 12; 17; 22;
     5; 9; 14; 20; 5; 9; 14; 20; 5; 9; 14; 20; 5; 9; 14; 20;
     4; 11; 16; 23; 4; 11; 16; 23; 4; 11; 16; 23; 4; 11; 16; 23;
     6; 10; 15; 21; 6; 10; 15; 21; 6; 10; 15; 21; 6; 10; 15; 21 ].

(** [floor(2^32 * abs(sin(i + 1)))] for [i] from 0 to 63. *)
Definition K_table : list Z :=
  [
     3614090360; 3905402710; 606105819; 3250441966;
     4118548399; 1200080426; 2821735955; 4249261313;
     1770035416; 2336552879; 4294925233; 2304563134;
     1804603682; 4254626195; 2792965006; 1236535329;
     4129170786; 3225465664; 643717713; 3921069994;
     3593408605; 38016083; 3634488961; 3889429448;
     568446438; 3275163606; 4107603335; 1163531501;
     2850285829; 4243563512; 1735328473; 2368359562;
     4294588738; 2272392833; 1839030562; 4259657740;
     2763975236; 1272893353; 4139469664; 3200236656;
     681279174; 3936430074; 3572445317; 76029189;
     3654602809; 3873151461; 530742520; 3299628645;
     4096336452; 1126891415; 2878612391; 4237533241;
     1700485571; 2399980690; 4293915773; 2240044497;
     1873313359; 4264355552; 2734768916; 1309151649;
     4149444226; 3174756917; 718787259; 3951481745 ].

(** [str.encode()]: UTF-8; a code point from 128 to 255 takes two bytes. *)
Fixpoint encode (s : string) : list Z :=
  match s with
  | EmptyString => []
  | String c r =>
      let n := Z.of_N (N_of_ascii c) in
      if n <? 128 then n :: encode r
      else Z.lor 192 (Z.shiftr n 6) :: Z.lor 128 (Z.land n 63) :: encode r
  end.

(** Little-endian bytes of a word. *)
Fixpoint le_bytes (count : nat) (x : Z) : list Z :=
  match count with
  | O => []
  | S c => Z.land x 255 :: le_bytes c (Z.shiftr x 8)
  end.

(** The message, a 1 bit, zeros up to 56 modulo 64, and the bit length
    on 64 bits. *)
Definition pad (msg : list Z) : list Z :=
  let len := Z.of_nat (List.length msg) in
  let zeros := Z.to_nat ((55 - len) mod 64) in
  msg ++ 128 :: repeat 0 zeros ++ le_bytes 8 (Z.land (8 * len) (2 ^ 64 - 1)).

(** Sixteen little-endian words from 64 bytes. *)
Fixpoint words (count : nat) (bytes : list Z) : list Z :=
  match count, bytes with
  | S c, b0 :: b1 :: b2 :: b3 :: r =>
      (b0 + 256 * b1 + 65536 * b2 + 16777216 * b3) :: words c r
  | _, _ => []
  end.

Definition step (M : list Z) (st : Z * Z * Z * Z) (i : nat)
  : Z * Z * Z * Z :=
  let '(A, B, C, D) := st in
  let '(F, g) :=
    if (i <? 16)%nat then
      (Z.lor (Z.land B C) (Z.land (not32 B) D), i)
    else if (i <? 32)%nat then
      (Z.lor (Z.land D B) (Z.land (not32 D) C), (5 * i + 1) mod 16)%nat
    else if (i <? 48)%nat then
      (Z.lxor (Z.lxor B C) D, (3 * i + 5) mod 16)%nat
    else
      (Z.lxor C (Z.lor B (not32 D)), (7 * i) mod 16)%nat in
  let F' := add32 (add32 (add32 F A) (nth i K_table 0)) (nth g M 0) in
  (D, add32 B (rotl32 F' (nth i S_table 0)), B, C).

Definition compress (h : Z * Z * Z * Z) (block : list Z) : Z * Z * Z * Z :=
  let '(a0, b0, c0, d0) := h in
  let '(A, B, C, D) := fold_left (step (words 16 block)) (seq 0 64) h in
  (add32 a0 A, add32 b0 B, add32 c0 C, add32 d0 D).

Fixpoint blocks (count : nat) (bytes : list Z) (h : Z * Z * Z * Z)
  : Z * Z * Z * Z :=
  match count with
  | O => h
  | S c => blocks c (skipn 64 bytes) (compress h (firstn 64 bytes))
  end.

Definition hex_byte (b : Z) : string :=
  String (json.hex_digit (Z.to_N (b / 16)))
    (chr (json.hex_digit (Z.to_N (b mod 16)))).

(** [hashlib.md5(data).hexdigest()] *)
Definition md5_hexdigest (data : list Z) : string :=
  let bytes := pad data in
  let '(a, b, c, d) :=
    blocks (List.length bytes / 64) bytes
      (1732584193, 4023233417, 2562383102, 271733878) in
  String.concat EmptyString
    (map hex_byte (le_bytes 4 a ++ le_bytes 4 b ++ le_bytes 4 c ++ le_bytes 4 d)).

End hashlib.

(** ** The world of one snapshot file

    A [SnapshotManager] reads and writes one file, [self.snapshot_file];
    the state holds the content of that file, what the process has read
    and printed, and the manager built by the running test. *)

(** What the file system does to the next write of the file. *)
Inductive io_fault : Type :=
| NoFault
| MkdirFails                 (* the parent directory cannot be made *)
| OpenFails                  (* [open(.., 'w')] raises, the file is untouched *)
| WriteFails (room : nat).   (* the device takes [room] characters, then
                                writing raises *)

(** What the module prints, one constructor for each [print] (and for the
    prompt of [input]). *)
Inductive event : Type :=
| WarnCouldNotParse                       (* "Warning: Could not parse .." *)
| Created (name : string)                 (* "Created new snapshot for .." *)
| Updated (name : string)                 (* "Updated snapshot for .." *)
| Passed (name : string)                  (* "Test .. passed" *)
| DiffShown (name : string) (old_str new_str : string)
    (* all that [_show_diff] prints: the banner and the unified diff of
       the two texts *)
| Prompt (name : string)                  (* "Accept new snapshot for ..?" *)
| Quitting                                (* "Quitting..." *)
| InvalidInput.                           (* "Invalid input. Use .." *)

Record SnapshotManager : Type := {
  snapshots : value;
  pending_updates : dict
}.

Record state : Type := {
  file : option string;     (* the bytes of the file; [None]: no such file *)
  fault : io_fault;
  stdin : list string;      (* the lines [input()] will return *)
  stdout : list event;      (* printed so far, oldest first *)
  clock : string;           (* [datetime.now().isoformat()] *)
  manager : SnapshotManager
}.

Definition set_file (f : option string) (st : state) : state :=
  {| file := f; fault := fault st; stdin := stdin st; stdout := stdout st;
     clock := clock st; manager := manager st |}.

Definition set_stdin (i : list string) (st : state) : state :=
  {| file := file st; fault := fault st; stdin := i; stdout := stdout st;
     clock := clock st; manager := manager st |}.

Definition set_stdout (o : list event) (st : state) : state :=
  {| file := file st; fault := fault st; stdin := stdin st; stdout := o;
     clock := clock st; manager := manager st |}.

Definition set_manager (m : SnapshotManager) (st : state) : state :=
  {| file := file st; fault := fault st; stdin := stdin st;
     stdout := stdout st; clock := clock st; manager := m |}.

(** *** Statements: state and exceptions *)

Definition M (A : Type) : Type := state -> state * result A.

Definition ret {A : Type} (a : A) : M A := fun st => (st, Ok a).

Definition raise {A : Type} (e : exn) : M A := fun st => (st, Raise e).

Definition bind {A B : Type} (m : M A) (k : A -> M B) : M B :=
  fun st =>
    match m st with
    | (st', Ok a) => k a st'
    | (st', Raise e) => (st', Raise e)
    end.

Declare Scope stmt_scope.
Delimit Scope stmt_scope with stmt.
Notation "x <- m ;; k" := (bind m (fun x => k))
  (at level 100, m at next level, right associativity) : stmt_scope.
Notation "m ;; k" := (bind m (fun _ => k))
  (at level 100, right associativity) : stmt_scope.
Local Open Scope stmt_scope.

(** A library call that returns or raises. *)
Definition call {A : Type} (r : result A) : M A := fun st => (st, r).

Definition print (e : event) : M unit :=
  fun st => (set_stdout (stdout st ++ [e]) st, Ok tt).

Definition self : M SnapshotManager := fun st => (st, Ok (manager st)).

Definition set_snapshots (v : value) : M unit :=
  fun st =>
    (set_manager {| snapshots := v;
                    pending_updates := pending_updates (manager st) |} st,
     Ok tt).

Definition set_pending_updates (d : dict) : M unit :=
  fun st =>
    (set_manager {| snapshots := snapshots (manager st);
                    pending_updates := d |} st,
     Ok tt).

(** ** Configuration *)

Inductive ConflictResolution : Type :=
| INTERACTIVE
| ACCEPT_NEW
| KEEP_OLD
| FAIL.

Record ExpectTestConfig : Type := {
  snapshot_dir : string;
  conflict_resolution : ConflictResolution;
  auto_accept : bool;
  show_diffs : bool;
  ci_mode : bool
}.

(** ** [SnapshotManager] *)

(** [SnapshotManager._load_snapshots]: only [json.JSONDecodeError] is
    caught; what else [json.load] raises, as [UnicodeDecodeError] on bytes
    that are not text, leaves the method. *)
Definition _load_snapshots : M value :=
  fun st =>
    match file st with
    | Some f =>
        match json.load f with
        | Ok v => (st, Ok v)
        | Raise (Exn JSONDecodeError _) =>
            (print WarnCouldNotParse ;; ret (VDict [])) st
        | Raise e => (st, Raise e)
        end
    | None => (st, Ok (VDict []))
    end.

(** [SnapshotManager.__init__] with a given [snapshot_file]. *)
Definition SnapshotManager__init__ : M unit :=
  loaded <- _load_snapshots ;;
  fun st =>
    (set_manager {| snapshots := loaded; pending_updates := [] |} st, Ok tt).

(** [name in container] *)
Definition py_in (name : string) (container : value) : result bool :=
  match container with
  | VDict d => Ok (dict_mem (KStr name) d)
  | VList l | VTuple l => Ok (existsb (fun x => py_eq x (VStr name)) l)
  | VStr s => Ok (contains name s)
  | _ => Raise (Exn TypeError "argument is not iterable")
  end.

(** [container[name]] for a string [name] *)
Definition subscript (container : value) (name : string) : result value :=
  match container with
  | VDict d =>
      match dict_get (KStr name) d with
      | Some v => Ok v
      | None => Raise (Exn KeyError name)
      end
  | VList _ | VTuple _ | VStr _ =>
      Raise (Exn TypeError "indices must be integers")
  | _ => Raise (Exn TypeError "object is not subscriptable")
  end.

(** [SnapshotManager.has_snapshot] *)
Definition has_snapshot (test_name : string) : M bool :=
  m <- self ;;
  in_snapshots <- call (py_in test_name (snapshots m)) ;;
  if in_snapshots then ret true
  else ret (dict_mem (KStr test_name) (pending_updates m)).

(** [SnapshotManager.get_snapshot] *)
Definition get_snapshot (test_name : string) : M value :=
  m <- self ;;
  if dict_mem (KStr test_name) (pending_updates m) then
    entry <- call (subscript (VDict (pending_updates m)) test_name) ;;
    call (subscript entry "value")
  else
    in_snapshots <- call (py_in test_name (snapshots m)) ;;
    if in_snapshots then
      entry <- call (subscript (snapshots m) test_name) ;;
      call (subscript entry "value")
    else ret VNone.

(** [SnapshotManager.update_snapshot] *)
Definition update_snapshot (test_name : string) (v : value) (metadata : dict)
  : M unit :=
  fun st =>
    let snapshot_data :=
      dict_update [(KStr "value", v); (KStr "timestamp", VStr (clock st))]
        metadata in
    set_pending_updates
      (dict_set (KStr test_name) (VDict snapshot_data)
         (pending_updates (manager st))) st.

(** [with open(self.snapshot_file, 'w') as f: json.dump(.., f, indent=2,
    sort_keys=True, default=str)]: the file is emptied when it opens, then
    takes what the encoder yields for as long as the device takes it.
    The encoder yields ASCII, one byte for each character. *)
Definition write_file (obj : value) : M unit :=
  fun st =>
    match fault st with
    | OpenFails => (st, Raise (Exn OSError "open"))
    | flt =>
        let '(text, err) := json._iterencode (Some 2%nat) true true obj 0 in
        match flt with
        | WriteFails room =>
            if (room <? String.length text)%nat then
              (set_file (Some (take room text)) st, Raise (Exn OSError "write"))
            else
              (set_file (Some text) st,
               match err with Some e => Raise e | None => Ok tt end)
        | _ =>
            (set_file (Some text) st,
             match err with Some e => Raise e | None => Ok tt end)
        end
    end.

(** [Path(self.snapshot_file).parent.mkdir(parents=True, exist_ok=True)] *)
Definition mkdir_parent : M unit :=
  fun st =>
    match fault st with
    | MkdirFails => (st, Raise (Exn OSError "mkdir"))
    | _ => (st, Ok tt)
    end.

(** [SnapshotManager._save_snapshots] *)
Definition _save_snapshots : M unit :=
  m <- self ;;
  match snapshots m with
  | VDict d => set_snapshots (VDict (dict_update d (pending_updates m)))
  | _ => raise (Exn AttributeError "object has no attribute 'update'")
  end ;;
  mkdir_parent ;;
  m <- self ;;
  write_file (snapshots m) ;;
  set_pending_updates [].

(** [SnapshotManager.commit_updates] *)
Definition commit_updates : M unit :=
  m <- self ;;
  match pending_updates m with
  | [] => ret tt
  | _ :: _ => _save_snapshots
  end.

(** ** Conflict resolution *)

(** [_show_diff]: both values are rendered with [json.dumps(.., indent=2,
    sort_keys=True, default=str)], which raises [TypeError] on keys that
    cannot be sorted, before anything is printed; then the diff of the
    two texts is printed. *)
Definition _show_diff (old_value new_value : value) (test_name : string)
  : M unit :=
  old_str <- call (json.dumps (Some 2%nat) true true old_value) ;;
  new_str <- call (json.dumps (Some 2%nat) true true new_value) ;;
  print (DiffShown test_name old_str new_str).

(** [str.lower] on the letters that [_handle_conflict] looks for; no
    other code point lowers to [y], [n], [d] or [q]. *)
Definition lower_char (c : ascii) : ascii :=
  let n := N_of_ascii c in
  if ((65 <=? n) && (n <=? 90))%N then ascii_of_N (n + 32) else c.

Fixpoint lower (s : string) : string :=
  match s with
  | EmptyString => EmptyString
  | String c r => String (lower_char c) (lower r)
  end.

Definition mismatch_message (test_name : string) : string :=
  "Snapshot mismatch for test '" ++ test_name ++ "'".

(** The [while True] loop of the interactive branch, over the lines that
    are left on the standard input; [input()] raises [EOFError] at the end
    of it. *)
Fixpoint prompt_loop (test_name : string) (old_value new_value : value)
  (lines : list string) {struct lines} : M bool :=
  match lines with
  | [] => print (Prompt test_name) ;; raise (Exn EOFError "EOF when reading a line")
  | line :: rest =>
      print (Prompt test_name) ;;
      (fun st => (set_stdin rest st, Ok tt)) ;;
      let response := lower line in
      if String.eqb response "y" then ret true
      else if String.eqb response "n" then ret false
      else if String.eqb response "d" then
        _show_diff old_value new_value test_name ;;
        prompt_loop test_name old_value new_value rest
      else if String.eqb response "q" then
        print Quitting ;; raise (Exn SystemExit "1")
      else
        print InvalidInput ;;
        prompt_loop test_name old_value new_value rest
  end.

(** [_handle_conflict]: [true] when the new value is to be accepted. *)
Definition _handle_conflict (config : ExpectTestConfig) (test_name : string)
  (old_value new_value : value) : M bool :=
  if ci_mode config then ret false
  else
    match conflict_resolution config with
    | ACCEPT_NEW => ret true
    | KEEP_OLD => ret false
    | FAIL => raise (Exn AssertionError (mismatch_message test_name))
    | INTERACTIVE =>
        (if show_diffs config then _show_diff old_value new_value test_name
         else ret tt) ;;
        fun st => prompt_loop test_name old_value new_value (stdin st) st
    end.

(** ** The [expect] decorator *)

(** What calling the wrapped function does. *)
Inductive outcome : Type :=
| Returns (v : value)
| Raises (cls : string) (is_exception : bool) (msg : string).
    (* [cls] is [type(e).__name__], [msg] is [str(e)]; [is_exception]
       tells whether [e] is an [Exception] *)

(** Where the wrapper runs: [frame.f_code.co_filename], [frame.f_lineno]
    and [func.__name__]. *)
Record site : Type := {
  file_path : string;
  line_number : Z;
  function_name : string
}.

(** [hashlib.md5(json.dumps(v, sort_keys=True, default=str).encode())
    .hexdigest()] *)
Definition fingerprint (v : value) : result string :=
  match json.dumps None true true v with
  | Ok text => Ok (hashlib.md5_hexdigest (hashlib.encode text))
  | Raise e => Raise e
  end.

(** The [try] statement of the wrapper: the value to snapshot, or the
    exception that is not caught. *)
Definition capture_outcome (o : outcome) : result value :=
  match o with
  | Returns result => Ok (_serialize_value result)
  | Raises cls true msg =>
      Ok (VDict [(KStr "exception", VStr cls); (KStr "message", VStr msg)])
  | Raises cls false msg => Raise (Exn (Foreign cls false) msg)
  end.

(** The message of the [AssertionError] the wrapper raises. *)
Definition mismatch_report (test_name : string) (existing new_value : value)
  : result string :=
  match json.dumps (Some 2%nat) false false existing with
  | Raise e => Raise e
  | Ok expected =>
      match json.dumps (Some 2%nat) false false new_value with
      | Raise e => Raise e
      | Ok got =>
          Ok (mismatch_message test_name ++ chr newline ++ "Expected: "
              ++ expected ++ chr newline ++ "Got: " ++ got)
      end
  end.

(** The wrapper from its hash computation to the statement before
    [return result]: compare with the store, resolve, commit. *)
Definition check_snapshot (config : ExpectTestConfig) (test_name : string)
  (where_ : site) (serialized_result : value) : M unit :=
  result_hash <- call (fingerprint serialized_result) ;;
  let metadata :=
    [(KStr "file_path", VStr (file_path where_));
     (KStr "line_number", VInt (line_number where_));
     (KStr "function_name", VStr (function_name where_));
     (KStr "hash", VStr result_hash)] in
  has <- has_snapshot test_name ;;
  if has then
    existing <- get_snapshot test_name ;;
    if py_ne existing serialized_result then
      accept <- _handle_conflict config test_name existing serialized_result ;;
      if accept then
        update_snapshot test_name serialized_result metadata ;;
        commit_updates ;;
        print (Updated test_name)
      else
        message <- call (mismatch_report test_name existing serialized_result) ;;
        raise (Exn AssertionError message)
    else print (Passed test_name)
  else
    update_snapshot test_name serialized_result metadata ;;
    commit_updates ;;
    print (Created test_name).

(** The wrapper up to the statement before [return result]: build the
    manager, run the function, check its snapshot. *)
Definition evaluate (config : ExpectTestConfig) (test_name : string)
  (where_ : site) (o : outcome) : M unit :=
  SnapshotManager__init__ ;;
  serialized_result <- call (capture_outcome o) ;;
  check_snapshot config test_name where_ serialized_result.

(** The [wrapper] that [expect(test_name, snapshot_file)] puts around
    [func], called once; calling [func] has the outcome [o]. *)
Definition wrapper (config : ExpectTestConfig) (test_name : string)
  (where_ : site) (o : outcome) : M value :=
  evaluate config test_name where_ o ;;
  match o with
  | Returns result => ret result
  | Raises _ _ _ =>
      (* [result] was never bound *)
      raise (Exn UnboundLocalError
               "cannot access local variable 'result' where it is not associated with a value")
  end.

(** ** [expect_inline] *)

Record InlineExpectContext : Type := {
  name : string;
  captured : value
}.

(** [InlineExpectContext.__init__]; the manager goes to the state. *)
Definition InlineExpectContext__init__ (test_name : string)
  : M InlineExpectContext :=
  SnapshotManager__init__ ;;
  ret {| name := test_name; captured := VNone |}.

(** [InlineExpectContext.capture] *)
Definition capture (ctx : InlineExpectContext) (v : value)
  : InlineExpectContext :=
  {| name := name ctx; captured := _serialize_value v |}.

Definition is_none (v : value) : bool :=
  match v with VNone => true | _ => false end.

(** [InlineExpectContext.__exit__]: [exc] is the class name and the text
    of the exception that left the block, if one did.  Returns whether
    the exception is suppressed. *)
Definition InlineExpectContext__exit__ (config : ExpectTestConfig)
  (ctx : InlineExpectContext) (where_ : site)
  (exc : option (string * string)) : M bool :=
  match exc with
  | None =>
      if is_none (captured ctx) then
        raise (Exn ValueError
                 ("No value captured for test '" ++ name ctx ++ "'"))
      else ret tt
  | Some _ => ret tt
  end ;;
  let captured_value :=
    match exc with
    | Some (cls, msg) =>
        VDict [(KStr "exception", VStr cls); (KStr "message", VStr msg)]
    | None => captured ctx
    end in
  result_hash <- call (fingerprint captured_value) ;;
  let metadata :=
    [(KStr "file_path", VStr (file_path where_));
     (KStr "line_number", VInt (line_number where_));
     (KStr "hash", VStr result_hash)] in
  has <- has_snapshot (name ctx) ;;
  (if has then
     existing <- get_snapshot (name ctx) ;;
     if py_ne existing captured_value then
       accept <- _handle_conflict config (name ctx) existing captured_value ;;
       if accept then
         update_snapshot (name ctx) captured_value metadata ;;
         commit_updates ;;
         print (Updated (name ctx))
       else raise (Exn AssertionError (mismatch_message (name ctx)))
     else print (Passed (name ctx))
   else
     update_snapshot (name ctx) captured_value metadata ;;
     commit_updates ;;
     print (Created (name ctx))) ;;
  match exc with
  | Some _ => ret true
  | None => ret false
  end.

(** The entry that [update_snapshot] stages for a value under the
    metadata of the wrapper. *)
Definition snapshot_entry (v : value) (now : string) (where_ : site)
  (digest : string) : value :=
  VDict [(KStr "value", v); (KStr "timestamp", VStr now);
         (KStr "file_path", VStr (file_path where_));
         (KStr "line_number", VInt (line_number where_));
         (KStr "function_name", VStr (function_name where_));
         (KStr "hash", VStr digest)].

(** ** Normalized values *)

(** The values [_serialize_value] returns: no tuple and no object is left
    in them. *)
Fixpoint is_normalized (v : value) : bool :=
  match v with
  | VNone | VBool _ | VInt _ | VStr _ => true
  | VList l => forallb is_normalized l
  | VDict d => forallb (fun kv => is_normalized (snd kv)) d
  | VTuple _ | VObject _ _ | VOpaque _ => false
  end.

(** Every dictionary in the value has pairwise different keys, and so
    has the [__dict__] of every object. *)
Fixpoint well_formed (v : value) : bool :=
  match v with
  | VNone | VBool _ | VInt _ | VStr _ | VOpaque _ => true
  | VList l | VTuple l => forallb well_formed l
  | VDict d =>
      keys_distinct d && forallb (fun kv => well_formed (snd kv)) d
  | VObject _ attrs =>
      keys_distinct (map (fun kv => (KStr (fst kv), tt)) attrs)
      && forallb (fun kv => well_formed (snd kv)) attrs
  end.

(** Every key of every dictionary in the value is a string, as in the
    mappings that [json.load] returns. *)
Fixpoint str_keyed (v : value) : bool :=
  match v with
  | VNone | VBool _ | VInt _ | VStr _ | VOpaque _ => true
  | VList l | VTuple l => forallb str_keyed l
  | VDict d =>
      forallb (fun kv => json.is_str (fst kv)) d
      && forallb (fun kv => str_keyed (snd kv)) d
  | VObject _ attrs => forallb (fun kv => str_keyed (snd kv)) attrs
  end.

(** Items with equal keys are one item. *)
Definition unique_keys {A : Type} (d : list (key * A)) : Prop :=
  forall a b, In a d -> In b d -> key_eqb (fst a) (fst b) = true -> a = b.

(** The key of an item is of the class [cls] (strings, or numbers). *)
Definition in_class {A : Type} (cls : key -> bool) (x : key * A) : Prop :=
  cls (fst x) = true.

(** Two items that are each below the other are one item. *)
Definition separated {A : Type} (l : list (key * A)) : Prop :=
  forall x y, In x l -> In y l ->
    json.key_leb (fst x) (fst y) = true ->
    json.key_leb (fst y) (fst x) = true -> x = y.

(** ** Scenarios *)

Module scenario.

Definition config (mode : ConflictResolution) (ci : bool) : ExpectTestConfig :=
  {| snapshot_dir := ".expect_snapshots";
     conflict_resolution := mode;
     auto_accept := false;
     show_diffs := true;
     ci_mode := ci |}.

Definition here : site :=
  {| file_path := "test_examples.py"; line_number := 247;
     function_name := "test" |}.

(** A process that starts with the given snapshot file. *)
Definition start (content : option string) (flt : io_fault) : state :=
  {| file := content; fault := flt; stdin := []; stdout := [];
     clock := "2024-01-01T00:00:00";
     manager := {| snapshots := VNone; pending_updates := [] |} |}.

(** The next process on the same file: what was printed and what the
    manager held are gone. *)
Definition rerun (st : state) : state := start (file st) (fault st).

Definition value_42 : value := VDict [(KStr "value", VInt 42)].
Definition value_43 : value := VDict [(KStr "value", VInt 43)].

(** The state after the first run of test [t1] returning [{"value": 42}]. *)
Definition after_first_run : state :=
  fst (wrapper (config FAIL false) "t1" here (Returns value_42)
         (start None NoFault)).

(** The next process, once its manager has loaded the file. *)
Definition loaded : state :=
  fst (SnapshotManager__init__ (rerun after_first_run)).

(** A file that is text, but not a JSON document. *)
Definition corrupt : state := start (Some "{ not json") NoFault.

(** [{1: "a"}]: a dictionary with an integer key. *)
Definition int_keyed : value := VDict [(KInt 1, VStr "a")].

(** A manager that loaded one baseline and holds one accepted update,
    about to commit to a device with room for twelve characters. *)
Definition old_entry : value :=
  VDict [(KStr "value", VInt 1); (KStr "hash", VStr "c4ca4238a0b923820dcc509a6f75849b")].
Definition new_entry : value :=
  VDict [(KStr "value", VInt 2); (KStr "hash", VStr "c81e728d9d4c2f636f067f89cc14862c")].

Definition old_text : string :=
  Eval vm_compute in
    fst (json._iterencode (Some 2%nat) true true
           (VDict [(KStr "old_test", old_entry)]) 0).

Definition before_commit (flt : io_fault) : state :=
  {| file := Some old_text; fault := flt; stdin := []; stdout := [];
     clock := "2024-01-01T00:00:00";
     manager := {| snapshots := VDict [(KStr "old_test", old_entry)];
                   pending_updates := [(KStr "t", new_entry)] |} |}.

(** The same two items in both orders. *)
Definition a_then_b : dict :=
  [(KStr "a", VInt 1); (KStr "b", VList [VInt 2])].
Definition b_then_a : dict :=
  [(KStr "b", VList [VInt 2]); (KStr "a", VInt 1)].

(** The elements of the tuple [(1, 2)] and of the list [[1, 2]]. *)
Definition pair : list value := [VInt 1; VInt 2].

End scenario.

(** ** Configuration functions *)

(** [ConflictResolution.<member>.value] *)
Definition ConflictResolution_value (mode : ConflictResolution) : string :=
  match mode with
  | INTERACTIVE => "interactive"
  | ACCEPT_NEW => "accept_new"
  | KEEP_OLD => "keep_old"
  | FAIL => "fail"
  end.

(** [ConflictResolution(s)]: the member whose value is [s], or
    [ValueError]. *)
Definition ConflictResolution_call (s : string) : result ConflictResolution :=
  if String.eqb s "interactive" then Ok INTERACTIVE
  else if String.eqb s "accept_new" then Ok ACCEPT_NEW
  else if String.eqb s "keep_old" then Ok KEEP_OLD
  else if String.eqb s "fail" then Ok FAIL
  else Raise (Exn ValueError ("'" ++ s ++ "' is not a valid ConflictResolution")).

(** [Union[ConflictResolution, str]] *)
Inductive strategy : Type :=
| Member (mode : ConflictResolution)
| Named (s : string).

Definition with_conflict_resolution (mode : ConflictResolution)
  (config : ExpectTestConfig) : ExpectTestConfig :=
  {| snapshot_dir := snapshot_dir config;
     conflict_resolution := mode;
     auto_accept := auto_accept config;
     show_diffs := show_diffs config;
     ci_mode := ci_mode config |}.

(** [ExpectTestConfig.__init__]; [environ_CI] is [os.environ.get("CI")].
    [str.lower] is [lower]: no code point other than a letter of "TRUE"
    lowers to a letter of "true". *)
Definition ExpectTestConfig__init__ (environ_CI : option string)
  : ExpectTestConfig :=
  {| snapshot_dir := ".expect_snapshots";
     conflict_resolution := INTERACTIVE;
     auto_accept := false;
     show_diffs := true;
     ci_mode :=
       String.eqb
         (lower (match environ_CI with Some s => s | None => "false" end))
         "true" |}.

(** [ExpectTestConfig.set_conflict_resolution], and the module function
    [set_conflict_resolution] that calls it on the global [config]. *)
Definition set_conflict_resolution (s : strategy) (config : ExpectTestConfig)
  : result ExpectTestConfig :=
  match s with
  | Named text =>
      match ConflictResolution_call text with
      | Ok mode => Ok (with_conflict_resolution mode config)
      | Raise e => Raise e
      end
  | Member mode => Ok (with_conflict_resolution mode config)
  end.

(** [auto_accept(enabled)] on the global [config] *)
Definition auto_accept_ (enabled : bool) (config : ExpectTestConfig)
  : ExpectTestConfig :=
  let config' :=
    {| snapshot_dir := snapshot_dir config;
       conflict_resolution := conflict_resolution config;
       auto_accept := enabled;
       show_diffs := show_diffs config;
       ci_mode := ci_mode config |} in
  if enabled then with_conflict_resolution ACCEPT_NEW config' else config'.

(** [set_snapshot_dir(directory)] on the global [config] *)
Definition set_snapshot_dir (directory : string) (config : ExpectTestConfig)
  : ExpectTestConfig :=
  {| snapshot_dir := directory;
     conflict_resolution := conflict_resolution config;
     auto_accept := auto_accept config;
     show_diffs := show_diffs config;
     ci_mode := ci_mode config |}.

(** ** Reading the interactive loop *)

(** A line that ends the loop of [_handle_conflict]: [y], [n] or [q] in
    either case. *)
Definition decisive (line : string) : bool :=
  let r := lower line in
  String.eqb r "y" || String.eqb r "n" || String.eqb r "q".

(** What the loop prints for a line that does not end it, when the two
    values are rendered as [old_str] and [new_str]: the prompt, then the
    diff for [d] or the reminder for anything else. *)
Definition noise_events (test_name : string) (old_str new_str : string)
  (line : string) : list event :=
  [Prompt test_name;
   if String.eqb (lower line) "d"
   then DiffShown test_name old_str new_str else InvalidInput].

(** The state after the process has read up to [rest] and printed
    [events]. *)
Definition after_io (rest : list string) (events : list event) (st : state)
  : state :=
  set_stdin rest (set_stdout (stdout st ++ events) st).

(** What a key is under [==] and [hash]: [None], a number (a boolean
    is the number 0 or 1), or a string. *)
Inductive key_class : Type :=
| IsNone
| IsNumber (z : Z)
| IsString (s : string).

Definition class_of (k : key) : key_class :=
  match k with
  | KNone => IsNone
  | KBool b => IsNumber (int_of_bool b)
  | KInt z => IsNumber z
  | KStr s => IsString s
  end.

(** The shape of what [json.load] returns: lists, dictionaries keyed by
    pairwise different strings, and scalars. *)
Definition json_shaped (v : value) : bool :=
  is_normalized v && str_keyed v && well_formed v.

(** ** Reading back what was written *)

(** The text [json.dump(v, f, indent=2, sort_keys=True, default=str)]
    writes for [v] nested [level] deep. *)
Definition written (v : value) (level : nat) : string :=
  fst (json._iterencode (Some 2%nat) true true v level).

(** What [json.load] makes of that text: the items of every dictionary
    come in the order of their keys. *)
Fixpoint as_loaded (v : value) : value :=
  match v with
  | VList l => VList (map as_loaded l)
  | VDict d =>
      VDict (json.sort (map (fun kv => (fst kv, as_loaded (snd kv))) d))
  | _ => v
  end.

(** What follows a value in the text of the encoder: the end of the
    text, a comma or a line feed. *)
Definition ends_value (s : string) : bool :=
  match s with
  | EmptyString => true
  | String c _ => Ascii.eqb c "," || Ascii.eqb c newline
  end.

(** A character that is one byte in UTF-8 and not a carriage return. *)
Definition plain_char (c : ascii) : bool :=
  ((N_of_ascii c <? 128) && negb (N_of_ascii c =? 13))%N.

Fixpoint plain (s : string) : bool :=
  match s with
  | EmptyString => true
  | String c r => plain_char c && plain r
  end.

(** * Properties *)

(** ** Statements *)

Lemma bind_ok {A B : Type} (m : M A) (k : A -> M B) st st' a :
  m st = (st', Ok a) -> bind m k st = k a st'.
Proof. intros H. unfold bind. rewrite H. reflexivity. Qed.

Lemma bind_raise {A B : Type} (m : M A) (k : A -> M B) st st' e :
  m st = (st', Raise e) -> bind m k st = (st', Raise e).
Proof. intros H. unfold bind. rewrite H. reflexivity. Qed.

(** ** Conflict resolution under CI *)

Lemma handle_conflict_ci config test_name old_value new_value st :
  ci_mode config = true ->
  _handle_conflict config test_name old_value new_value st = (st, Ok false).
Proof. intros H. unfold _handle_conflict. rewrite H. reflexivity. Qed.

(** C4. With the CI flag set, whatever the configured resolution mode, a
    conflict is resolved to Reject ([_handle_conflict] returns [False]
    without reading or printing anything), and the evaluation that met the
    conflict ends in an exception with the file, the manager and the
    output as they were: the new value is not written. *)
Theorem ci_conflict_always_rejected
  (mode : ConflictResolution) (dir : string) (auto diffs : bool)
  (test_name : string) (where_ : site) (existing new_value : value)
  (digest : string) (st : state) :
  let config := {| snapshot_dir := dir; conflict_resolution := mode;
                   auto_accept := auto; show_diffs := diffs;
                   ci_mode := true |} in
  _handle_conflict config test_name existing new_value st = (st, Ok false)
  /\ (fingerprint new_value = Ok digest ->
      has_snapshot test_name st = (st, Ok true) ->
      get_snapshot test_name st = (st, Ok existing) ->
      py_ne existing new_value = true ->
      exists e, check_snapshot config test_name where_ new_value st
                = (st, Raise e)).
Proof.
  intros config. split.
  - apply handle_conflict_ci. reflexivity.
  - intros Hfp Hhas Hget Hne. unfold check_snapshot.
    unfold call at 1. rewrite Hfp.
    rewrite (bind_ok _ _ st st digest) by reflexivity.
    rewrite (bind_ok _ _ _ _ _ Hhas).
    rewrite (bind_ok _ _ _ _ _ Hget).
    rewrite Hne.
    rewrite (bind_ok _ _ st st false)
      by (apply handle_conflict_ci; reflexivity).
    unfold bind, call, raise.
    destruct (mismatch_report test_name existing new_value) as [m | e];
      eauto.
Qed.

Lemma ci_conflict_always_rejected_witness :
  _handle_conflict (scenario.config ACCEPT_NEW true) "t1" scenario.value_42
    scenario.value_43 scenario.loaded = (scenario.loaded, Ok false)
  /\ exists e,
      check_snapshot (scenario.config ACCEPT_NEW true) "t1" scenario.here
        scenario.value_43 scenario.loaded = (scenario.loaded, Raise e).
Proof.
  destruct (ci_conflict_always_rejected ACCEPT_NEW ".expect_snapshots"
              false true "t1" scenario.here scenario.value_42
              scenario.value_43 "ead035e2bafeb79af00fc9e325d26ef1"
              scenario.loaded) as [Hreject Hcheck].
  split; [exact Hreject |].
  apply Hcheck; vm_compute; reflexivity.
Defined.

(** ** Loading the store *)

(** C8, on the code.  A snapshot file that holds the two bytes [ff fe]
    is not UTF-8 text: [json.load] raises [UnicodeDecodeError] while it
    reads the file.  [_load_snapshots] catches [json.JSONDecodeError]
    only, so the error leaves it, no warning is printed and no manager is
    built: every wrapped test and every inline context on that file ends
    in [UnicodeDecodeError], in every mode, before the computation is
    looked at.  The handler next to it does recover a file that is text
    but not JSON, with the warning and the empty mapping, and a missing
    file gives the empty mapping. *)
Theorem undecodable_store_aborts_the_run :
  let bytes := String "255" (String "254" EmptyString) in
  let st := scenario.start (Some bytes) NoFault in
  let e := Exn UnicodeDecodeError "'utf-8' codec can't decode byte" in
  json.load bytes = Raise e
  /\ _load_snapshots st = (st, Raise e)
  /\ SnapshotManager__init__ st = (st, Raise e)
  /\ (forall config test_name where_ o,
        wrapper config test_name where_ o st = (st, Raise e))
  /\ (forall test_name,
        InlineExpectContext__init__ test_name st = (st, Raise e))
  /\ _load_snapshots scenario.corrupt
     = (set_stdout [WarnCouldNotParse] scenario.corrupt, Ok (VDict []))
  /\ _load_snapshots (scenario.start None NoFault)
     = (scenario.start None NoFault, Ok (VDict [])).
Proof.
  intros bytes st e.
  assert (Hinit : SnapshotManager__init__ st = (st, Raise e))
    by (vm_compute; reflexivity).
  split; [vm_compute; reflexivity |].
  split; [vm_compute; reflexivity |].
  split; [exact Hinit |].
  split.
  { intros config test_name where_ o. unfold wrapper, evaluate.
    apply bind_raise. apply bind_raise. exact Hinit. }
  split.
  { intros test_name. unfold InlineExpectContext__init__.
    apply bind_raise. exact Hinit. }
  split; vm_compute; reflexivity.
Qed.

(** ** The inline context *)

(** C9. Leaving the inline context when nothing was captured and no
    exception left the block raises [ValueError] with the text "No value
    captured for test '<name>'", before any snapshot is looked up,
    created or compared; the file, the manager and the output are as
    they were. *)
Theorem inline_exit_without_capture
  (config : ExpectTestConfig) (ctx : InlineExpectContext) (where_ : site)
  (st : state) :
  captured ctx = VNone ->
  let left := InlineExpectContext__exit__ config ctx where_ None st in
  snd left
  = Raise (Exn ValueError ("No value captured for test '" ++ name ctx ++ "'"))
  /\ fst left = st
  /\ file (fst left) = file st
  /\ manager (fst left) = manager st.
Proof.
  intros Hnone left. subst left.
  unfold InlineExpectContext__exit__. rewrite Hnone.
  cbn [is_none]. unfold bind, raise. cbn [fst snd].
  repeat split.
Qed.

Lemma inline_exit_without_capture_witness :
  let ctx := {| name := "inline_calculation"; captured := VNone |} in
  let left := InlineExpectContext__exit__ (scenario.config FAIL false) ctx
                scenario.here None scenario.loaded in
  snd left
  = Raise (Exn ValueError
             ("No value captured for test '" ++ name ctx ++ "'"))
  /\ fst left = scenario.loaded
  /\ file (fst left) = file scenario.loaded
  /\ manager (fst left) = manager scenario.loaded.
Proof.
  intros ctx.
  apply (inline_exit_without_capture (scenario.config FAIL false) ctx
           scenario.here scenario.loaded).
  reflexivity.
Defined.

(** A context that has just been built has captured nothing. *)
Lemma inline_init_captured test_name st st' ctx :
  InlineExpectContext__init__ test_name st = (st', Ok ctx) ->
  ctx = {| name := test_name; captured := VNone |}.
Proof.
  unfold InlineExpectContext__init__, bind, ret.
  destruct (SnapshotManager__init__ st) as [st1 [u | e]]; congruence.
Qed.

(** ** What the wrapper does with the outcome of the computation *)

(** The wrapper looks at the outcome through [capture_outcome] only,
    until it returns. *)
Lemma evaluate_same_capture config test_name where_ o1 o2 st :
  capture_outcome o1 = capture_outcome o2 ->
  evaluate config test_name where_ o1 st
  = evaluate config test_name where_ o2 st.
Proof.
  intros Hcap. unfold evaluate, bind.
  destruct (SnapshotManager__init__ st) as [st1 [[] | e1]]; [| reflexivity].
  unfold call. rewrite Hcap. reflexivity.
Qed.

(** The wrapper returns what the function returned, and only that. *)
Lemma wrapper_returns config test_name where_ o st st' v :
  wrapper config test_name where_ o st = (st', Ok v) -> o = Returns v.
Proof.
  unfold wrapper, bind.
  destruct (evaluate config test_name where_ o st) as [st1 [[] | e]];
    [| discriminate].
  destruct o; unfold ret, raise; congruence.
Qed.


(** [has_snapshot] and [get_snapshot] read the manager and change
    nothing. *)
Lemma has_snapshot_state test_name st :
  fst (has_snapshot test_name st) = st.
Proof.
  unfold has_snapshot, bind, self, call.
  destruct (py_in test_name (snapshots (manager st))) as [[] | e]; reflexivity.
Qed.

Lemma get_snapshot_state test_name st :
  fst (get_snapshot test_name st) = st.
Proof.
  unfold get_snapshot, bind, self, call, ret.
  destruct (dict_mem (KStr test_name) (pending_updates (manager st))).
  - destruct (subscript (VDict (pending_updates (manager st))) test_name)
      as [entry | e]; [| reflexivity].
    destruct (subscript entry "value"); reflexivity.
  - destruct (py_in test_name (snapshots (manager st))) as [[] | e];
      try reflexivity.
    destruct (subscript (snapshots (manager st)) test_name)
      as [entry | e]; [| reflexivity].
    destruct (subscript entry "value"); reflexivity.
Qed.

(** On an empty store the value becomes the baseline: staged, committed
    and reported as created. *)
Lemma check_snapshot_creates config test_name where_ v digest text st :
  manager st = {| snapshots := VDict []; pending_updates := [] |} ->
  fault st = NoFault ->
  fingerprint v = Ok digest ->
  json._iterencode (Some 2%nat) true true
    (VDict [(KStr test_name, snapshot_entry v (clock st) where_ digest)]) 0
  = (text, None) ->
  check_snapshot config test_name where_ v st
  = ({| file := Some text; fault := NoFault; stdin := stdin st;
        stdout := stdout st ++ [Created test_name]; clock := clock st;
        manager :=
          {| snapshots :=
               VDict [(KStr test_name,
                       snapshot_entry v (clock st) where_ digest)];
             pending_updates := [] |} |},
     Ok tt).
Proof.
  intros Hm Hf Hfp Henc. destruct st as [f flt i o c m].
  cbn [manager fault clock] in Hm, Hf, Henc. subst m flt.
  unfold check_snapshot, bind at 1, call at 1. rewrite Hfp.
  cbv [bind has_snapshot get_snapshot self call py_in dict_mem dict_get ret
       manager snapshots pending_updates update_snapshot set_pending_updates
       set_manager set_snapshots file fault stdin stdout clock commit_updates
       _save_snapshots mkdir_parent write_file dict_set dict_update fold_left
       fst snd key_eqb String.eqb Ascii.eqb Bool.eqb print set_stdout
       set_file].
  fold (snapshot_entry v c where_ digest).
  rewrite Henc. reflexivity.
Qed.

(** C7. When the computation raises an [Exception], the value to snapshot
    is the mapping with exactly the two keys "exception" (the name of the
    class of the error) and "message" (its text), and the error is not
    propagated by the [try] statement.  From there on the wrapper treats
    it as it treats that mapping returned by a computation: building the
    manager, comparing and storing go the same way and end in the same
    state.  On a store with no file the mapping becomes the baseline of
    the test. *)
Theorem exception_is_snapshot_value (cls msg : string) :
  let mapping :=
    VDict [(KStr "exception", VStr cls); (KStr "message", VStr msg)] in
  capture_outcome (Raises cls true msg) = Ok mapping
  /\ capture_outcome (Returns mapping) = Ok mapping
  /\ (forall config test_name where_ st,
        evaluate config test_name where_ (Raises cls true msg) st
        = evaluate config test_name where_ (Returns mapping) st)
  /\ (forall config test_name where_,
        let run := evaluate config test_name where_ (Raises cls true msg)
                     (scenario.start None NoFault) in
        snd run = Ok tt
        /\ stdout (fst run) = [Created test_name]
        /\ get_snapshot test_name (fst run) = (fst run, Ok mapping)).
Proof.
  intros mapping. split; [reflexivity |]. split; [reflexivity |]. split.
  - intros. apply evaluate_same_capture. reflexivity.
  - intros config test_name where_ run.
    assert (Hfp : exists digest, fingerprint mapping = Ok digest)
      by (unfold fingerprint, json.dumps; cbn; eauto).
    destruct Hfp as [digest Hfp].
    pose (st1 := set_manager {| snapshots := VDict []; pending_updates := [] |}
                   (scenario.start None NoFault)).
    assert (Henc : exists text,
               json._iterencode (Some 2%nat) true true
                 (VDict [(KStr test_name,
                          snapshot_entry mapping (clock st1) where_ digest)]) 0
               = (text, None)).
    { eexists. cbv - [json.escape intstr append]. reflexivity. }
    destruct Henc as [text Henc].
    assert (Hrun : run = check_snapshot config test_name where_ mapping st1)
      by reflexivity.
    rewrite Hrun.
    rewrite (check_snapshot_creates _ _ _ _ digest text st1
               eq_refl eq_refl Hfp Henc).
    cbn [fst snd stdout]. split; [reflexivity |]. split; [reflexivity |].
    cbv [get_snapshot bind self call ret manager pending_updates snapshots
         dict_mem dict_get py_in subscript snapshot_entry key_eqb].
    rewrite !String.eqb_refl. reflexivity.
Qed.

(** ** The failure raised in Fail mode *)

(** Outside CI, Fail mode raises from [_handle_conflict] itself, and the
    text of the exception names the test only. *)
Lemma handle_conflict_fail config test_name old_value new_value st :
  ci_mode config = false ->
  conflict_resolution config = FAIL ->
  _handle_conflict config test_name old_value new_value st
  = (st, Raise (Exn AssertionError (mismatch_message test_name))).
Proof.
  intros Hci Hmode. unfold _handle_conflict. rewrite Hci, Hmode. reflexivity.
Qed.

(** C2, on the code.  The baseline of [t1] is [{"value": 42}] and the
    computation now returns [{"value": 43}].  In Fail mode the wrapper
    ends in [AssertionError("Snapshot mismatch for test 't1'")]: neither
    value is in the text.  In KeepOld mode the same conflict ends in the
    [AssertionError] built by the wrapper, whose text has the "Expected"
    and "Got" renderings of both values. *)
Theorem fail_mode_mismatch_omits_values :
  let st := scenario.rerun scenario.after_first_run in
  let failing := wrapper (scenario.config FAIL false) "t1" scenario.here
                   (Returns scenario.value_43) st in
  let keeping := wrapper (scenario.config KEEP_OLD false) "t1" scenario.here
                   (Returns scenario.value_43) st in
  snd failing = Raise (Exn AssertionError "Snapshot mismatch for test 't1'")
  /\ contains "42" "Snapshot mismatch for test 't1'" = false
  /\ contains "43" "Snapshot mismatch for test 't1'" = false
  /\ exists report,
       mismatch_report "t1" scenario.value_42 scenario.value_43 = Ok report
       /\ snd keeping = Raise (Exn AssertionError report)
       /\ contains "42" report = true
       /\ contains "43" report = true.
Proof.
  cbv zeta. split; [vm_compute; reflexivity |].
  split; [vm_compute; reflexivity |].
  split; [vm_compute; reflexivity |].
  eexists. split; [vm_compute; reflexivity |].
  split; [vm_compute; reflexivity |].
  split; vm_compute; reflexivity.
Qed.

(** ** The value the wrapper returns *)

Lemma wrapper_raising_never_returns config test_name where_ cls b msg st st' v :
  wrapper config test_name where_ (Raises cls b msg) st <> (st', Ok v).
Proof. intros H. apply wrapper_returns in H. discriminate. Qed.

(** C3, on the code.  A computation that raises [ZeroDivisionError] on a
    store with no file: the error is captured and its mapping is created
    as the baseline, and then [return result] raises [UnboundLocalError],
    so the wrapped call does not complete normally.  The same happens on
    the next run, after the snapshot matched.  The inline context, given
    the same exception, ends normally and returns [True]. *)
Theorem raising_computation_does_not_return :
  let o := Raises "ZeroDivisionError" true "division by zero" in
  let first := wrapper (scenario.config FAIL false) "division_by_zero"
                 scenario.here o (scenario.start None NoFault) in
  let second := wrapper (scenario.config FAIL false) "division_by_zero"
                  scenario.here o (scenario.rerun (fst first)) in
  let unbound :=
    Exn UnboundLocalError
      "cannot access local variable 'result' where it is not associated with a value" in
  snd first = Raise unbound
  /\ stdout (fst first) = [Created "division_by_zero"]
  /\ snd second = Raise unbound
  /\ stdout (fst second) = [Passed "division_by_zero"]
  /\ snd (InlineExpectContext__exit__ (scenario.config FAIL false)
            {| name := "division_by_zero"; captured := VNone |}
            scenario.here (Some ("ZeroDivisionError", "division by zero"))
            (fst (SnapshotManager__init__ (scenario.start None NoFault))))
     = Ok true.
Proof.
  cbv zeta. repeat split; vm_compute; reflexivity.
Qed.

(** ** Running a test again *)

(** C6, on the code.  A computation that returns [{1: "a"}], evaluated
    twice in Fail mode from a store with no file.  The first run creates
    the baseline; the file spells the key as the string "1".  The second
    run loads [{"1": "a"}], which is not equal to [{1: "a"}], and ends in
    [AssertionError] though the computation did not change: it is never
    reported as passed.  The same computation with the key "1" passes on
    the second run and leaves the file as it was. *)
Theorem integer_key_not_idempotent :
  let config := scenario.config FAIL false in
  let first := wrapper config "t" scenario.here (Returns scenario.int_keyed)
                 (scenario.start None NoFault) in
  let second := wrapper config "t" scenario.here (Returns scenario.int_keyed)
                  (scenario.rerun (fst first)) in
  let str_keyed := VDict [(KStr "1", VStr "a")] in
  let first' := wrapper config "t" scenario.here (Returns str_keyed)
                  (scenario.start None NoFault) in
  let second' := wrapper config "t" scenario.here (Returns str_keyed)
                   (scenario.rerun (fst first')) in
  snd first = Ok scenario.int_keyed
  /\ stdout (fst first) = [Created "t"]
  /\ get_snapshot "t" (fst (SnapshotManager__init__ (scenario.rerun (fst first))))
     = (fst (SnapshotManager__init__ (scenario.rerun (fst first))),
        Ok str_keyed)
  /\ py_eq str_keyed scenario.int_keyed = false
  /\ snd second = Raise (Exn AssertionError "Snapshot mismatch for test 't'")
  /\ stdout (fst second) = []
  /\ snd second' = Ok str_keyed
  /\ stdout (fst second') = [Passed "t"]
  /\ file (fst second') = file (fst first').
Proof.
  cbv zeta. repeat split; vm_compute; reflexivity.
Qed.

(** ** Mapping order

    *** The order of keys *)

Lemma string_leb_trans a : forall b c,
  String.leb a b = true -> String.leb b c = true -> String.leb a c = true.
Proof.
  unfold String.leb.
  induction a as [| x a IH]; intros [| y b] [| z c]; cbn; try congruence.
  unfold Ascii.compare.
  destruct (N.compare_spec (N_of_ascii x) (N_of_ascii y)) as [Hxy | Hxy | Hxy];
    destruct (N.compare_spec (N_of_ascii y) (N_of_ascii z)) as [Hyz | Hyz | Hyz];
    try congruence.
  - rewrite Hxy, Hyz, N.compare_refl. apply IH.
  - rewrite Hxy. apply N.compare_lt_iff in Hyz. rewrite Hyz. reflexivity.
  - rewrite <- Hyz. apply N.compare_lt_iff in Hxy. rewrite Hxy. reflexivity.
  - assert (H : (N_of_ascii x < N_of_ascii z)%N) by lia.
    apply N.compare_lt_iff in H. rewrite H. reflexivity.
Qed.

(** Sorting keeps what holds of every item. *)
Lemma insert_Forall {A : Type} (P : key * A -> Prop) x l :
  P x -> Forall P l -> Forall P (json.insert x l).
Proof.
  intros Hx Hl. induction Hl as [| a l Ha Hl IH]; cbn [json.insert].
  - repeat constructor. exact Hx.
  - destruct (json.key_leb (fst x) (fst a)); repeat constructor; assumption.
Qed.

Lemma sort_Forall {A : Type} (P : key * A -> Prop) l :
  Forall P l -> Forall P (json.sort l).
Proof.
  induction 1 as [| a l Ha Hl IH]; [constructor |].
  change (Forall P (json.insert a (json.sort l))).
  apply insert_Forall; assumption.
Qed.

Section insertion.
Context {A : Type}.
Variable cls : key -> bool.
Hypothesis cls_total : forall a b,
  cls a = true -> cls b = true ->
  json.key_leb a b = true \/ json.key_leb b a = true.
Hypothesis cls_trans : forall a b c,
  cls a = true -> cls b = true -> cls c = true ->
  json.key_leb a b = true -> json.key_leb b c = true ->
  json.key_leb a c = true.

Lemma insert_two (x y : key * A) r :
  in_class cls x -> in_class cls y ->
  (json.key_leb (fst x) (fst y) = true ->
   json.key_leb (fst y) (fst x) = true -> x = y) ->
  (if json.key_leb (fst x) (fst y) then x :: y :: r else y :: x :: r)
  = (if json.key_leb (fst y) (fst x) then y :: x :: r else x :: y :: r).
Proof.
  intros Hx Hy Hsep.
  destruct (json.key_leb (fst x) (fst y)) eqn:Hxy;
    destruct (json.key_leb (fst y) (fst x)) eqn:Hyx; try reflexivity.
  - rewrite (Hsep eq_refl eq_refl). reflexivity.
  - destruct (cls_total _ _ Hx Hy); congruence.
Qed.

Lemma insert_insert (x y : key * A) l :
  in_class cls x -> in_class cls y -> Forall (in_class cls) l ->
  (json.key_leb (fst x) (fst y) = true ->
   json.key_leb (fst y) (fst x) = true -> x = y) ->
  json.insert x (json.insert y l) = json.insert y (json.insert x l).
Proof.
  intros Hx Hy Hl Hsep.
  induction Hl as [| a l Ha Hl IH]; cbn [json.insert].
  - apply insert_two; assumption.
  - destruct (json.key_leb (fst y) (fst a)) eqn:Hya;
      destruct (json.key_leb (fst x) (fst a)) eqn:Hxa; cbn [json.insert].
    + rewrite Hxa, Hya. apply insert_two; assumption.
    + rewrite Hya.
      destruct (json.key_leb (fst x) (fst y)) eqn:Hxy.
      * rewrite (cls_trans _ _ _ Hx Hy Ha Hxy Hya) in Hxa. discriminate.
      * cbn [json.insert]. rewrite Hxa. reflexivity.
    + rewrite Hxa.
      destruct (json.key_leb (fst y) (fst x)) eqn:Hyx.
      * rewrite (cls_trans _ _ _ Hy Hx Ha Hyx Hxa) in Hya. discriminate.
      * cbn [json.insert]. rewrite Hya. reflexivity.
    + rewrite Hxa, Hya, IH. reflexivity.
Qed.

Lemma sort_in_class (l : list (key * A)) :
  Forall (in_class cls) l -> Forall (in_class cls) (json.sort l).
Proof. apply sort_Forall. Qed.

Lemma separated_perm (l l' : list (key * A)) :
  Permutation l l' -> separated l -> separated l'.
Proof.
  intros Hp Hs x y Hx Hy.
  apply Hs; apply (Permutation_in _ (Permutation_sym Hp)); assumption.
Qed.

(** The sorted list of items with separate keys depends on the items,
    not on their order. *)
Lemma sort_permutation (l l' : list (key * A)) :
  Permutation l l' -> Forall (in_class cls) l -> separated l ->
  json.sort l = json.sort l'.
Proof.
  induction 1 as [| x l l' Hp IH | x y l | l l' l'' Hp1 IH1 Hp2 IH2];
    intros Hc Hs.
  - reflexivity.
  - change (json.insert x (json.sort l) = json.insert x (json.sort l')).
    rewrite IH; [reflexivity | |].
    + inversion Hc; assumption.
    + intros a b Ha Hb. apply Hs; right; assumption.
  - change (json.insert y (json.insert x (json.sort l))
            = json.insert x (json.insert y (json.sort l))).
    inversion Hc as [| ? ? Hy Hc']. inversion Hc' as [| ? ? Hx Hl].
    subst. apply insert_insert; try assumption.
    + apply sort_in_class. assumption.
    + intros H1 H2. apply Hs; cbn; auto.
  - rewrite IH1 by assumption. apply IH2.
    + eapply Permutation_Forall; eassumption.
    + eapply separated_perm; eassumption.
Qed.
End insertion.

(** *** Keys *)

Lemma key_eqb_refl k : key_eqb k k = true.
Proof.
  destruct k as [| b | z | s]; cbn.
  - reflexivity.
  - destruct b; reflexivity.
  - apply Z.eqb_refl.
  - apply String.eqb_refl.
Qed.

Lemma key_eqb_sym k1 k2 : key_eqb k1 k2 = key_eqb k2 k1.
Proof.
  destruct k1 as [| a | a | a], k2 as [| b | b | b]; cbn; try reflexivity.
  - destruct a, b; reflexivity.
  - apply Z.eqb_sym.
  - apply String.eqb_sym.
Qed.

Lemma in_dict_mem {A : Type} k (b : key * A) r :
  In b r -> key_eqb k (fst b) = true -> dict_mem k r = true.
Proof.
  unfold dict_mem. induction r as [| [k' x] r IH]; intros Hin Hk.
  - destruct Hin.
  - cbn [dict_get]. destruct Hin as [Heq | Hin].
    + subst b. cbn in Hk. rewrite Hk. reflexivity.
    + destruct (key_eqb k k'); [reflexivity | apply IH; assumption].
Qed.

Lemma keys_distinct_unique {A : Type} (d : list (key * A)) :
  keys_distinct d = true -> unique_keys d.
Proof.
  induction d as [| [k x] r IH]; intros Hd a b Ha Hb Hk.
  - destruct Ha.
  - cbn [keys_distinct] in Hd. apply andb_prop in Hd. destruct Hd as [Hk0 Hr].
    apply negb_true_iff in Hk0.
    destruct Ha as [Ha | Ha], Hb as [Hb | Hb].
    + congruence.
    + subst a. cbn in Hk. rewrite (in_dict_mem _ _ _ Hb Hk) in Hk0.
      discriminate.
    + subst b. cbn in Hk. rewrite key_eqb_sym in Hk.
      rewrite (in_dict_mem _ _ _ Ha Hk) in Hk0. discriminate.
    + apply IH; assumption.
Qed.

Lemma unique_keys_perm {A : Type} (d d' : list (key * A)) :
  Permutation d d' -> unique_keys d -> unique_keys d'.
Proof.
  intros Hp Hu a b Ha Hb.
  apply Hu; apply (Permutation_in _ (Permutation_sym Hp)); assumption.
Qed.

Lemma unique_keys_get {A : Type} (d : list (key * A)) k x :
  unique_keys d -> In (k, x) d -> dict_get k d = Some x.
Proof.
  induction d as [| [k' x'] r IH]; intros Hu Hin; [destruct Hin |].
  cbn [dict_get]. destruct (key_eqb k k') eqn:Hk.
  - assert (H : (k, x) = (k', x'))
      by (apply Hu; [exact Hin | left; reflexivity | exact Hk]).
    congruence.
  - destruct Hin as [Heq | Hin].
    + inversion Heq; subst. rewrite key_eqb_refl in Hk. discriminate.
    + apply IH; [| exact Hin].
      intros a b Ha Hb. apply Hu; right; assumption.
Qed.

(** *** Equality is reflexive on well-formed normalized values *)

Lemma items_eq_in d2 r :
  (forall k x, In (k, x) r ->
     exists y, dict_get k d2 = Some y /\ py_eq x y = true) ->
  items_eq d2 r = true.
Proof.
  induction r as [| [k x] r IH]; intros H; [reflexivity |].
  cbn [items_eq]. destruct (H k x (or_introl eq_refl)) as [y [Hy Hxy]].
  fold (items_eq d2 r).
  rewrite Hy, Hxy, IH; [reflexivity |].
  intros k' x' Hin. apply H. right. exact Hin.
Qed.

Lemma py_eq_refl v :
  is_normalized v = true -> well_formed v = true -> py_eq v v = true.
Proof.
  induction v as [| x | x | x | l IH | l IH | d IH | s at_ IH | s]
    using value_ind'; intros Hn Hw; try discriminate Hn.
  - reflexivity.
  - destruct x; reflexivity.
  - apply Z.eqb_refl.
  - apply String.eqb_refl.
  - change (seq_eq l l = true). cbn [is_normalized well_formed] in Hn, Hw.
    induction IH as [| x l Hx _ IHl]; [reflexivity |].
    cbn [forallb seq_eq] in *.
    apply andb_prop in Hn. apply andb_prop in Hw.
    destruct Hn as [Hn1 Hn2], Hw as [Hw1 Hw2].
    rewrite (Hx Hn1 Hw1), (IHl Hn2 Hw2). reflexivity.
  - change ((Nat.eqb (List.length d) (List.length d) && items_eq d d) = true).
    rewrite Nat.eqb_refl. cbn [andb].
    cbn [is_normalized well_formed] in Hn, Hw.
    apply andb_prop in Hw. destruct Hw as [Hkeys Hw].
    apply items_eq_in. intros k x Hin. exists x. split.
    + apply unique_keys_get; [apply keys_distinct_unique |]; assumption.
    + rewrite Forall_forall in IH. rewrite forallb_forall in Hn, Hw.
      apply (IH (k, x) Hin); [apply (Hn (k, x) Hin) | apply (Hw (k, x) Hin)].
Qed.

(** The same items in another order make an equal dictionary. *)
Lemma py_eq_permutation d1 d2 :
  is_normalized (VDict d1) = true -> well_formed (VDict d1) = true ->
  Permutation d1 d2 -> py_eq (VDict d1) (VDict d2) = true.
Proof.
  intros Hn Hw Hp.
  change ((Nat.eqb (List.length d1) (List.length d2) && items_eq d2 d1) = true).
  rewrite (Permutation_length Hp), Nat.eqb_refl. cbn [andb].
  cbn [is_normalized well_formed] in Hn, Hw.
  apply andb_prop in Hw. destruct Hw as [Hkeys Hw].
  apply items_eq_in. intros k x Hin. exists x. split.
  - apply unique_keys_get.
    + apply (unique_keys_perm _ _ Hp). apply keys_distinct_unique. exact Hkeys.
    + apply (Permutation_in _ Hp). exact Hin.
  - rewrite forallb_forall in Hn, Hw.
    apply py_eq_refl; [apply (Hn (k, x) Hin) | apply (Hw (k, x) Hin)].
Qed.

(** *** Sorting the items of a well-formed dictionary *)

Lemma str_total a b :
  json.is_str a = true -> json.is_str b = true ->
  json.key_leb a b = true \/ json.key_leb b a = true.
Proof.
  destruct a, b; try discriminate. intros _ _. apply String.leb_total.
Qed.

Lemma str_trans a b c :
  json.is_str a = true -> json.is_str b = true -> json.is_str c = true ->
  json.key_leb a b = true -> json.key_leb b c = true ->
  json.key_leb a c = true.
Proof.
  destruct a, b, c; try discriminate. intros _ _ _. apply string_leb_trans.
Qed.

Lemma num_leb a b :
  json.is_num a = true -> json.is_num b = true ->
  json.key_leb a b = (json.key_num a <=? json.key_num b).
Proof. destruct a, b; try discriminate; reflexivity. Qed.

Lemma num_total a b :
  json.is_num a = true -> json.is_num b = true ->
  json.key_leb a b = true \/ json.key_leb b a = true.
Proof.
  intros Ha Hb. rewrite (num_leb a b), (num_leb b a) by assumption.
  rewrite !Z.leb_le. lia.
Qed.

Lemma num_trans a b c :
  json.is_num a = true -> json.is_num b = true -> json.is_num c = true ->
  json.key_leb a b = true -> json.key_leb b c = true ->
  json.key_leb a c = true.
Proof.
  intros Ha Hb Hc.
  rewrite (num_leb a b), (num_leb b c), (num_leb a c) by assumption.
  rewrite !Z.leb_le. lia.
Qed.

(** Two comparable keys, each below the other, are equal keys. *)
Lemma str_antisym a b :
  json.is_str a = true -> json.is_str b = true ->
  json.key_leb a b = true -> json.key_leb b a = true -> key_eqb a b = true.
Proof.
  destruct a as [| | | x], b as [| | | y]; try discriminate.
  intros _ _ H1 H2. cbn in *. rewrite (String.leb_antisym _ _ H1 H2).
  apply String.eqb_refl.
Qed.

Lemma num_antisym a b :
  json.is_num a = true -> json.is_num b = true ->
  json.key_leb a b = true -> json.key_leb b a = true -> key_eqb a b = true.
Proof.
  intros Ha Hb. rewrite (num_leb a b), (num_leb b a) by assumption.
  rewrite !Z.leb_le. intros H1 H2.
  assert (H : json.key_num a = json.key_num b) by lia. clear H1 H2.
  destruct a as [| x | x |], b as [| y | y |]; try discriminate; cbn in *.
  - destruct x, y; cbn in H; try reflexivity; discriminate.
  - apply Z.eqb_eq. exact H.
  - apply Z.eqb_eq. symmetry. exact H.
  - apply Z.eqb_eq. exact H.
Qed.

Lemma forallb_fst_Forall {A : Type} (cls : key -> bool) (l : list (key * A)) :
  forallb cls (map fst l) = true -> Forall (in_class cls) l.
Proof.
  intros H. apply Forall_forall. intros x Hx.
  rewrite forallb_forall in H. apply H. apply in_map. exact Hx.
Qed.

Lemma forallb_permutation {A : Type} (f : A -> bool) l l' :
  Permutation l l' -> forallb f l = forallb f l'.
Proof.
  induction 1 as [| x l l' _ IH | x y l | l l' l'' _ IH1 _ IH2]; cbn.
  - reflexivity.
  - rewrite IH. reflexivity.
  - destruct (f x), (f y); reflexivity.
  - congruence.
Qed.

(** [sorted] gives the same answer, a list or an exception, for the same
    items in any order. *)
Lemma sorted_permutation {A : Type} (l l' : list (key * A)) :
  Permutation l l' -> unique_keys l -> json.sorted l = json.sorted l'.
Proof.
  intros Hp Hu. unfold json.sorted, json.sortable.
  assert (Hk : Permutation (map fst l) (map fst l'))
    by (apply Permutation_map; exact Hp).
  rewrite <- (Permutation_length Hk).
  rewrite <- (forallb_permutation json.is_str _ _ Hk).
  rewrite <- (forallb_permutation json.is_num _ _ Hk).
  destruct (forallb json.is_str (map fst l)) eqn:Hstr.
  { rewrite orb_true_r. cbn [orb]. f_equal.
    apply (sort_permutation json.is_str str_total str_trans); try assumption.
    - apply forallb_fst_Forall. exact Hstr.
    - intros x y Hx Hy H1 H2. apply Hu; try assumption.
      apply forallb_fst_Forall in Hstr. rewrite Forall_forall in Hstr.
      apply str_antisym; try assumption; apply Hstr; assumption. }
  destruct (forallb json.is_num (map fst l)) eqn:Hnum.
  { rewrite !orb_true_r. f_equal.
    apply (sort_permutation json.is_num num_total num_trans); try assumption.
    - apply forallb_fst_Forall. exact Hnum.
    - intros x y Hx Hy H1 H2. apply Hu; try assumption.
      apply forallb_fst_Forall in Hnum. rewrite Forall_forall in Hnum.
      apply num_antisym; try assumption; apply Hnum; assumption. }
  rewrite !orb_false_r.
  destruct (Nat.leb (List.length (map fst l)) 1) eqn:Hlen; [| reflexivity].
  apply Nat.leb_le in Hlen. rewrite length_map in Hlen.
  destruct l as [| x [| y l]]; cbn in Hlen; try lia.
  - apply Permutation_nil in Hp. subst. reflexivity.
  - apply Permutation_length_1_inv in Hp. subst. reflexivity.
Qed.

Lemma unique_keys_map {A B : Type} (g : A -> B) (d : list (key * A)) :
  unique_keys d -> unique_keys (map (fun kv => (fst kv, g (snd kv))) d).
Proof.
  intros Hu a b Ha Hb Hk.
  apply in_map_iff in Ha. destruct Ha as [a0 [Ha Ha0]].
  apply in_map_iff in Hb. destruct Hb as [b0 [Hb Hb0]].
  subst a b. cbn in Hk. rewrite (Hu a0 b0 Ha0 Hb0 Hk). reflexivity.
Qed.

(** The text of a dictionary under
    [sort_keys=True] does not depend on the order of its items. *)
Lemma iterencode_permutation indent default_str d1 d2 level :
  keys_distinct d1 = true -> Permutation d1 d2 ->
  json._iterencode indent true default_str (VDict d1) level
  = json._iterencode indent true default_str (VDict d2) level.
Proof.
  intros Hk Hp.
  destruct d1 as [| i1 r1].
  { apply Permutation_nil in Hp. subst. reflexivity. }
  destruct d2 as [| i2 r2].
  { apply Permutation_sym, Permutation_nil in Hp. discriminate. }
  cbn [json._iterencode].
  set (f := fun kv : key * value =>
              (fst kv, json._iterencode indent true default_str (snd kv) (S level))).
  change (f i1 :: map f r1) with (map f (i1 :: r1)).
  change (f i2 :: map f r2) with (map f (i2 :: r2)).
  rewrite (sorted_permutation (map f (i1 :: r1)) (map f (i2 :: r2))).
  - reflexivity.
  - apply Permutation_map. exact Hp.
  - apply (unique_keys_map (fun v => json._iterencode indent true default_str v (S level))).
    apply keys_distinct_unique. exact Hk.
Qed.

(** *** Values the encoder never refuses *)

Lemma andthen_ok (a b : json.emitted) :
  snd a = None -> snd b = None -> snd (json.andthen a b) = None.
Proof. intros Ha Hb. unfold json.andthen. rewrite Ha. exact Hb. Qed.

Lemma chunks_list_ok sep first (l : list json.emitted) :
  Forall (fun e => snd e = None) l ->
  snd (json.chunks_list sep first l) = None.
Proof.
  intros H. revert first. induction H as [| e l He _ IH]; intros first.
  - reflexivity.
  - cbn [json.chunks_list]. repeat apply andthen_ok; auto.
Qed.

Lemma chunks_dict_ok sep first (items : list (key * json.emitted)) :
  Forall (fun kv => snd (snd kv) = None) items ->
  snd (json.chunks_dict sep first items) = None.
Proof.
  intros H. revert first. induction H as [| [k e] l He _ IH]; intros first.
  - reflexivity.
  - cbn [json.chunks_dict]. repeat apply andthen_ok; auto.
Qed.

(** With [default=str], a value whose dictionaries have string keys is
    encoded without an exception, sorted or not, at any indentation. *)
Lemma iterencode_str_keyed indent sort_keys v : forall level,
  str_keyed v = true ->
  snd (json._iterencode indent sort_keys true v level) = None.
Proof.
  induction v as [| x | x | x | l IH | l IH | d IH | s at_ IH | s]
    using value_ind'; intros level Hs; try reflexivity.
  - destruct x; reflexivity.
  - cbn [json._iterencode]. destruct l as [| v l]; [reflexivity |].
    set (body := json.chunks_list _ _ _).
    assert (Hbody : snd body = None).
    { apply chunks_list_ok.
      cbn [str_keyed] in Hs. rewrite forallb_forall in Hs.
      rewrite Forall_forall in IH |- *.
      intros e He. apply in_map_iff in He. destruct He as [x [He Hx]].
      subst e. apply IH; auto. }
    clearbody body. repeat apply andthen_ok; solve [reflexivity | exact Hbody].
  - cbn [json._iterencode]. destruct l as [| v l]; [reflexivity |].
    set (body := json.chunks_list _ _ _).
    assert (Hbody : snd body = None).
    { apply chunks_list_ok.
      cbn [str_keyed] in Hs. rewrite forallb_forall in Hs.
      rewrite Forall_forall in IH |- *.
      intros e He. apply in_map_iff in He. destruct He as [x [He Hx]].
      subst e. apply IH; auto. }
    clearbody body. repeat apply andthen_ok; solve [reflexivity | exact Hbody].
  - cbn [json._iterencode]. destruct d as [| i d]; [reflexivity |].
    cbn [str_keyed] in Hs. apply andb_prop in Hs. destruct Hs as [Hkeys Hvals].
    set (f := fun kv : key * value =>
                (fst kv, json._iterencode indent sort_keys true (snd kv) (S level))).
    assert (Hitems : Forall (fun kv => snd (snd kv) = None) (map f (i :: d))).
    { rewrite forallb_forall in Hvals. rewrite Forall_forall in IH |- *.
      intros e He. apply in_map_iff in He. destruct He as [x [He Hx]].
      subst e. cbn. apply IH; auto. }
    assert (Hbody :
      snd match (if sort_keys then json.sorted (map f (i :: d))
                 else Ok (map f (i :: d))) with
          | Raise e => json.throw e
          | Ok items =>
              json.andthen
                (json.andthen
                   (json.chunks_dict
                      (json.item_separator indent
                       ++ json.newline_indent indent (S level)) true items)
                   (json.yield (json.newline_indent indent level)))
                (json.yield "}")
          end = None).
    { assert (Hsorted : forall items,
                Forall (fun kv : key * json.emitted => snd (snd kv) = None) items ->
                snd (json.andthen
                       (json.andthen
                          (json.chunks_dict
                             (json.item_separator indent
                              ++ json.newline_indent indent (S level)) true items)
                          (json.yield (json.newline_indent indent level)))
                       (json.yield "}")) = None).
      { intros items Hi. pose proof (chunks_dict_ok
           (json.item_separator indent ++ json.newline_indent indent (S level))
           true items Hi) as Hc.
        set (body := json.chunks_dict _ _ _) in *. clearbody body.
        repeat apply andthen_ok; solve [reflexivity | exact Hc]. }
      destruct sort_keys.
      - unfold json.sorted, json.sortable.
        replace (forallb json.is_str (map fst (map f (i :: d)))) with true.
        + rewrite orb_true_r. cbn [orb]. apply Hsorted.
          apply sort_Forall. exact Hitems.
        + symmetry. rewrite map_map. rewrite forallb_forall in Hkeys |- *.
          intros k Hk. apply in_map_iff in Hk. destruct Hk as [x [Hk Hx]].
          subst k. apply (Hkeys x Hx).
      - apply Hsorted. exact Hitems. }
    change (f i :: map f d) with (map f (i :: d)).
    set (body := match (if sort_keys then _ else _) with
                 | Ok _ => _ | Raise _ => _ end) in *.
    clearbody body. repeat apply andthen_ok; solve [reflexivity | exact Hbody].
Qed.

Lemma fingerprint_str_keyed v :
  str_keyed v = true -> exists digest, fingerprint v = Ok digest.
Proof.
  intros Hs. unfold fingerprint, json.dumps.
  pose proof (iterencode_str_keyed None true v 0 Hs) as H.
  destruct (json._iterencode None true true v 0) as [text err].
  cbn in H. subst err. eauto.
Qed.

(** C5. Two normalized mappings with the same key/value pairs in
    different insertion order compare equal under [==], so the wrapper
    sees no conflict between them, and they have the same fingerprint:
    [json.dumps(.., sort_keys=True, default=str)] gives the same text, or
    the same exception, for both, and so does the digest of it.  When the
    keys are strings, at every depth, the text and the digest exist. *)
Theorem mapping_order_invariance (d1 d2 : dict) :
  is_normalized (VDict d1) = true ->
  well_formed (VDict d1) = true ->
  Permutation d1 d2 ->
  py_eq (VDict d1) (VDict d2) = true
  /\ py_ne (VDict d1) (VDict d2) = false
  /\ json.dumps None true true (VDict d1) = json.dumps None true true (VDict d2)
  /\ fingerprint (VDict d1) = fingerprint (VDict d2)
  /\ (str_keyed (VDict d1) = true ->
      exists digest, fingerprint (VDict d1) = Ok digest
                     /\ fingerprint (VDict d2) = Ok digest).
Proof.
  intros Hn Hw Hp.
  assert (Heq : py_eq (VDict d1) (VDict d2) = true)
    by (apply py_eq_permutation; assumption).
  assert (Henc : json._iterencode None true true (VDict d1) 0
                 = json._iterencode None true true (VDict d2) 0).
  { apply iterencode_permutation; [| exact Hp].
    cbn [well_formed] in Hw. apply andb_prop in Hw. apply Hw. }
  assert (Hfp : fingerprint (VDict d1) = fingerprint (VDict d2))
    by (unfold fingerprint, json.dumps; rewrite Henc; reflexivity).
  split; [exact Heq |].
  split; [unfold py_ne; rewrite Heq; reflexivity |].
  split; [unfold json.dumps; rewrite Henc; reflexivity |].
  split; [exact Hfp |].
  intros Hs. destruct (fingerprint_str_keyed _ Hs) as [digest Hd].
  exists digest. split; [exact Hd | rewrite <- Hfp; exact Hd].
Qed.

Lemma mapping_order_invariance_witness :
  py_eq (VDict scenario.a_then_b) (VDict scenario.b_then_a) = true
  /\ py_ne (VDict scenario.a_then_b) (VDict scenario.b_then_a) = false
  /\ json.dumps None true true (VDict scenario.a_then_b)
     = json.dumps None true true (VDict scenario.b_then_a)
  /\ fingerprint (VDict scenario.a_then_b)
     = fingerprint (VDict scenario.b_then_a)
  /\ (str_keyed (VDict scenario.a_then_b) = true ->
      exists digest,
        fingerprint (VDict scenario.a_then_b) = Ok digest
        /\ fingerprint (VDict scenario.b_then_a) = Ok digest).
Proof.
  apply (mapping_order_invariance scenario.a_then_b scenario.b_then_a).
  - reflexivity.
  - reflexivity.
  - apply perm_swap.
Defined.

(** ** Tuples and lists *)

(** [==] written with the two loops. *)
Lemma py_eq_list xs ys : py_eq (VList xs) (VList ys) = seq_eq xs ys.
Proof. reflexivity. Qed.


Lemma py_eq_dict d1 d2 :
  py_eq (VDict d1) (VDict d2)
  = Nat.eqb (List.length d1) (List.length d2) && items_eq d2 d1.
Proof. reflexivity. Qed.

Lemma dict_get_map {A B : Type} (g : A -> B) k (d : list (key * A)) :
  dict_get k (map (fun kv => (fst kv, g (snd kv))) d)
  = option_map g (dict_get k d).
Proof.
  induction d as [| [k' x] r IH]; [reflexivity |].
  cbn. destruct (key_eqb k k'); [reflexivity | exact IH].
Qed.



(** A stored value equal to the new one: the test passes and nothing is
    staged, committed or written. *)
Lemma check_snapshot_passes config test_name where_ v digest existing st :
  fingerprint v = Ok digest ->
  has_snapshot test_name st = (st, Ok true) ->
  get_snapshot test_name st = (st, Ok existing) ->
  py_ne existing v = false ->
  check_snapshot config test_name where_ v st
  = (set_stdout (stdout st ++ [Passed test_name]) st, Ok tt).
Proof.
  intros Hfp Hhas Hget Hne. unfold check_snapshot.
  unfold call at 1. rewrite Hfp.
  rewrite (bind_ok _ _ st st digest) by reflexivity.
  rewrite (bind_ok _ _ _ _ _ Hhas).
  rewrite (bind_ok _ _ _ _ _ Hget).
  rewrite Hne. reflexivity.
Qed.


(** ** Commit *)





(** In the wrapper: the first run of test [t] on that device ends in
    [OSError], and the process after it finds a file it cannot parse and
    starts from an empty store, so the baseline of [old_test] is lost. *)
Lemma wrapper_write_failure_loses_baselines :
  let first := wrapper (scenario.config FAIL false) "t" scenario.here
                 (Returns (VInt 2))
                 (scenario.start (Some scenario.old_text) (WriteFails 12)) in
  let next := SnapshotManager__init__ (scenario.rerun (fst first)) in
  snd first = Raise (Exn OSError "write")
  /\ stdout (fst next) = [WarnCouldNotParse]
  /\ manager (fst next) = {| snapshots := VDict []; pending_updates := [] |}.
Proof.
  cbv zeta. repeat split; vm_compute; reflexivity.
Qed.

(** ** Normalization *)

(** An object is normalized as its [__dict__]. *)
Lemma serialize_object s attrs :
  _serialize_value (VObject s attrs) = _serialize_value (VDict (vars attrs)).
Proof.
  cbn [_serialize_value]. unfold vars. rewrite map_map. reflexivity.
Qed.

(** What [_serialize_value] returns is normalized. *)
Lemma serialize_normalized v : is_normalized (_serialize_value v) = true.
Proof.
  induction v as [| x | x | x | l IH | l IH | d IH | s at_ IH | s]
    using value_ind'; try reflexivity.
  - cbn. induction IH as [| x l Hx _ IHl]; [reflexivity |].
    cbn. rewrite Hx. exact IHl.
  - cbn. induction IH as [| x l Hx _ IHl]; [reflexivity |].
    cbn. rewrite Hx. exact IHl.
  - cbn. induction IH as [| [k x] l Hx _ IHl]; [reflexivity |].
    cbn in *. rewrite Hx. exact IHl.
  - cbn. induction IH as [| [k x] l Hx _ IHl]; [reflexivity |].
    cbn in *. rewrite Hx. exact IHl.
Qed.

(** ** Running a test again, on a match *)

(** The constructor of the manager reads the file and nothing else. *)
Lemma init_reads_file st st2 st1 :
  file st2 = file st ->
  SnapshotManager__init__ st = (st1, Ok tt) ->
  exists st3,
    SnapshotManager__init__ st2 = (st3, Ok tt)
    /\ manager st3 = manager st1 /\ file st3 = file st2
    /\ file st1 = file st.
Proof.
  unfold SnapshotManager__init__, bind, _load_snapshots, print, ret.
  intros Hfile. rewrite Hfile.
  destruct (file st) as [text |] eqn:Hf.
  - destruct (json.load text) as [v | [[] msg]]; intros H;
      inversion H; subst; eexists; repeat split;
      cbn [file manager set_manager set_stdout]; congruence.
  - intros H. inversion H; subst. eexists. repeat split;
      cbn [file manager set_manager set_stdout]; congruence.
Qed.

Lemma has_snapshot_reads_manager test_name st st2 :
  manager st2 = manager st ->
  snd (has_snapshot test_name st2) = snd (has_snapshot test_name st).
Proof.
  intros Hm. unfold has_snapshot, bind, self, call, ret. rewrite Hm.
  destruct (py_in test_name (snapshots (manager st))) as [[] | e]; reflexivity.
Qed.

Lemma get_snapshot_reads_manager test_name st st2 :
  manager st2 = manager st ->
  snd (get_snapshot test_name st2) = snd (get_snapshot test_name st).
Proof.
  intros Hm. unfold get_snapshot, bind, self, call, ret. rewrite Hm.
  destruct (dict_mem (KStr test_name) (pending_updates (manager st))).
  - destruct (subscript (VDict (pending_updates (manager st))) test_name)
      as [entry | e]; [| reflexivity].
    destruct (subscript entry "value"); reflexivity.
  - destruct (py_in test_name (snapshots (manager st))) as [[] | e];
      try reflexivity.
    destruct (subscript (snapshots (manager st)) test_name)
      as [entry | e]; [| reflexivity].
    destruct (subscript entry "value"); reflexivity.
Qed.

(** Where the loaded baseline equals the new value, the run reports the
    test as passed and leaves the file as it was; so does every later
    process that starts on that file, whatever its mode. *)
Lemma matching_baseline_repeats
  config test_name where_ o v digest existing st st1 :
  SnapshotManager__init__ st = (st1, Ok tt) ->
  capture_outcome o = Ok v ->
  fingerprint v = Ok digest ->
  has_snapshot test_name st1 = (st1, Ok true) ->
  get_snapshot test_name st1 = (st1, Ok existing) ->
  py_ne existing v = false ->
  evaluate config test_name where_ o st
  = (set_stdout (stdout st1 ++ [Passed test_name]) st1, Ok tt)
  /\ file st1 = file st
  /\ forall config2 st2,
       file st2 = file st1 ->
       exists st3,
         SnapshotManager__init__ st2 = (st3, Ok tt)
         /\ evaluate config2 test_name where_ o st2
            = (set_stdout (stdout st3 ++ [Passed test_name]) st3, Ok tt)
         /\ file st3 = file st.
Proof.
  intros Hinit Hcap Hfp Hhas Hget Hne.
  assert (Hrun : forall cfg s s1,
            SnapshotManager__init__ s = (s1, Ok tt) ->
            has_snapshot test_name s1 = (s1, Ok true) ->
            get_snapshot test_name s1 = (s1, Ok existing) ->
            evaluate cfg test_name where_ o s
            = (set_stdout (stdout s1 ++ [Passed test_name]) s1, Ok tt)).
  { intros cfg s s1 Hi Hh Hg. unfold evaluate.
    rewrite (bind_ok _ _ _ _ _ Hi). unfold call at 1. rewrite Hcap.
    rewrite (bind_ok _ _ s1 s1 v) by reflexivity.
    apply (check_snapshot_passes _ _ _ _ digest existing); assumption. }
  destruct (init_reads_file st st st1 eq_refl Hinit) as [_ [_ [_ [_ Hf1]]]].
  split; [apply Hrun; assumption |]. split; [exact Hf1 |].
  intros config2 st2 Hfile2.
  destruct (init_reads_file st st2 st1 (eq_trans Hfile2 Hf1) Hinit)
    as [st3 [Hi3 [Hm3 [Hf3 _]]]].
  exists st3. split; [exact Hi3 |]. split.
  - apply Hrun; [exact Hi3 | |].
    + rewrite (surjective_pairing (has_snapshot test_name st3)).
      rewrite has_snapshot_state.
      rewrite (has_snapshot_reads_manager _ st1 st3 Hm3), Hhas. reflexivity.
    + rewrite (surjective_pairing (get_snapshot test_name st3)).
      rewrite get_snapshot_state.
      rewrite (get_snapshot_reads_manager _ st1 st3 Hm3), Hget. reflexivity.
  - congruence.
Qed.

(** * Further properties of the code *)

(** ** Configuration *)

(** X1.  [set_conflict_resolution] given text: the value of a member
    ("interactive", "accept_new", "keep_old", "fail") selects that member,
    as passing the member itself does, and changes nothing else in the
    configuration; any other text, such as a member name in capitals,
    raises [ValueError] and leaves the configuration as it was. *)
Theorem set_conflict_resolution_by_name (text : string)
  (config : ExpectTestConfig) :
  (forall mode,
     set_conflict_resolution (Named (ConflictResolution_value mode)) config
     = set_conflict_resolution (Member mode) config)
  /\ (forall config',
        set_conflict_resolution (Named text) config = Ok config' ->
        exists mode,
          text = ConflictResolution_value mode
          /\ config' = with_conflict_resolution mode config
          /\ ci_mode config' = ci_mode config
          /\ show_diffs config' = show_diffs config)
  /\ ((forall mode, text <> ConflictResolution_value mode) ->
      exists msg,
        set_conflict_resolution (Named text) config
        = Raise (Exn ValueError msg)).
Proof.
  split; [| split].
  - intros []; reflexivity.
  - intros config' H. unfold set_conflict_resolution, ConflictResolution_call in H.
    destruct (String.eqb_spec text "interactive") as [-> | _];
      [exists INTERACTIVE; inversion H; repeat split |].
    destruct (String.eqb_spec text "accept_new") as [-> | _];
      [exists ACCEPT_NEW; inversion H; repeat split |].
    destruct (String.eqb_spec text "keep_old") as [-> | _];
      [exists KEEP_OLD; inversion H; repeat split |].
    destruct (String.eqb_spec text "fail") as [-> | _];
      [exists FAIL; inversion H; repeat split |].
    discriminate H.
  - intros Hno. unfold set_conflict_resolution, ConflictResolution_call.
    destruct (String.eqb_spec text "interactive") as [E | _];
      [destruct (Hno INTERACTIVE E) |].
    destruct (String.eqb_spec text "accept_new") as [E | _];
      [destruct (Hno ACCEPT_NEW E) |].
    destruct (String.eqb_spec text "keep_old") as [E | _];
      [destruct (Hno KEEP_OLD E) |].
    destruct (String.eqb_spec text "fail") as [E | _];
      [destruct (Hno FAIL E) |].
    eauto.
Qed.

Lemma set_conflict_resolution_by_name_witness :
  exists msg,
    set_conflict_resolution (Named "FAIL")
      (ExpectTestConfig__init__ None)
    = Raise (Exn ValueError msg).
Proof.
  apply (proj2 (proj2 (set_conflict_resolution_by_name "FAIL"
                        (ExpectTestConfig__init__ None)))).
  intros []; discriminate.
Defined.

(** X2.  Outside CI, [auto_accept(True)] makes every conflict accepted.
    [auto_accept(False)] afterwards clears the flag only: the strategy
    stays [ACCEPT_NEW], and conflicts are still accepted. *)
Theorem auto_accept_is_not_undone (config : ExpectTestConfig)
  (test_name : string) (old_value new_value : value) (st : state) :
  ci_mode config = false ->
  let on := auto_accept_ true config in
  let off := auto_accept_ false on in
  _handle_conflict on test_name old_value new_value st = (st, Ok true)
  /\ auto_accept off = false
  /\ conflict_resolution off = ACCEPT_NEW
  /\ _handle_conflict off test_name old_value new_value st = (st, Ok true).
Proof.
  intros Hci on off. subst on off.
  unfold _handle_conflict, auto_accept_, with_conflict_resolution.
  cbn [ci_mode conflict_resolution auto_accept]. rewrite Hci.
  repeat split.
Qed.

Lemma auto_accept_is_not_undone_witness :
  let on := auto_accept_ true (ExpectTestConfig__init__ None) in
  let off := auto_accept_ false on in
  _handle_conflict on "t1" scenario.value_42 scenario.value_43 scenario.loaded
  = (scenario.loaded, Ok true)
  /\ auto_accept off = false
  /\ conflict_resolution off = ACCEPT_NEW
  /\ _handle_conflict off "t1" scenario.value_42 scenario.value_43
       scenario.loaded
     = (scenario.loaded, Ok true).
Proof.
  apply (auto_accept_is_not_undone (ExpectTestConfig__init__ None) "t1"
           scenario.value_42 scenario.value_43 scenario.loaded).
  reflexivity.
Defined.


(** ** The interactive loop *)

Lemma after_io_after_io r1 e1 r2 e2 st :
  after_io r2 e2 (after_io r1 e1 st) = after_io r2 (e1 ++ e2) st.
Proof.
  unfold after_io, set_stdin, set_stdout. cbn. rewrite app_assoc. reflexivity.
Qed.

Lemma decisive_false line :
  decisive line = false ->
  String.eqb (lower line) "y" = false
  /\ String.eqb (lower line) "n" = false
  /\ String.eqb (lower line) "q" = false.
Proof.
  unfold decisive. intros H.
  apply orb_false_elim in H. destruct H as [H Hq].
  apply orb_false_elim in H. destruct H as [Hy Hn]. auto.
Qed.

(** [_show_diff] prints the diff of the two texts when both values can be
    rendered, and otherwise raises with nothing printed. *)
Lemma show_diff_renders old_value new_value old_str new_str test_name st :
  json.dumps (Some 2%nat) true true old_value = Ok old_str ->
  json.dumps (Some 2%nat) true true new_value = Ok new_str ->
  _show_diff old_value new_value test_name st
  = (set_stdout (stdout st ++ [DiffShown test_name old_str new_str]) st, Ok tt).
Proof.
  intros Ho Hn. unfold _show_diff, bind, call, print. rewrite Ho, Hn.
  reflexivity.
Qed.

Lemma show_diff_cases old_value new_value test_name st :
  (exists old_str new_str,
     json.dumps (Some 2%nat) true true old_value = Ok old_str
     /\ json.dumps (Some 2%nat) true true new_value = Ok new_str
     /\ _show_diff old_value new_value test_name st
        = (set_stdout (stdout st ++ [DiffShown test_name old_str new_str]) st,
           Ok tt))
  \/ (exists e,
        (json.dumps (Some 2%nat) true true old_value = Raise e
         \/ json.dumps (Some 2%nat) true true new_value = Raise e)
        /\ _show_diff old_value new_value test_name st = (st, Raise e)).
Proof.
  unfold _show_diff, bind, call, print.
  destruct (json.dumps (Some 2%nat) true true old_value) as [old_str | e].
  - destruct (json.dumps (Some 2%nat) true true new_value) as [new_str | e].
    + left. exists old_str, new_str. auto.
    + right. exists e. auto.
  - right. exists e. auto.
Qed.

(** One turn of the loop on a line that does not end it. *)
Lemma prompt_loop_noise test_name old_value new_value old_str new_str
  line rest st :
  json.dumps (Some 2%nat) true true old_value = Ok old_str ->
  json.dumps (Some 2%nat) true true new_value = Ok new_str ->
  decisive line = false ->
  prompt_loop test_name old_value new_value (line :: rest) st
  = prompt_loop test_name old_value new_value rest
      (after_io rest (noise_events test_name old_str new_str line) st).
Proof.
  intros Ho Hn H. destruct (decisive_false _ H) as [Hy [Hnn Hq]].
  cbn [prompt_loop]. unfold bind at 1, print at 1. unfold bind at 1.
  rewrite Hy, Hnn, Hq. unfold noise_events.
  destruct (String.eqb (lower line) "d").
  - unfold bind at 1.
    rewrite (show_diff_renders _ _ _ _ _ _ Ho Hn).
    unfold after_io, set_stdin, set_stdout; cbn;
      rewrite <- app_assoc; reflexivity.
  - unfold bind, print, after_io, set_stdin, set_stdout; cbn;
      rewrite <- app_assoc; reflexivity.
Qed.

(** One turn of the loop on a line that ends it. *)
Lemma prompt_loop_decision test_name old_value new_value line rest st :
  decisive line = true ->
  prompt_loop test_name old_value new_value (line :: rest) st
  = if String.eqb (lower line) "y" then
      (after_io rest [Prompt test_name] st, Ok true)
    else if String.eqb (lower line) "n" then
      (after_io rest [Prompt test_name] st, Ok false)
    else
      (after_io rest [Prompt test_name; Quitting] st,
       Raise (Exn SystemExit "1")).
Proof.
  intros H. cbn [prompt_loop]. unfold bind at 1, print at 1. unfold bind at 1.
  destruct (String.eqb (lower line) "y") eqn:Hy; [reflexivity |].
  destruct (String.eqb (lower line) "n") eqn:Hn; [reflexivity |].
  unfold decisive in H. rewrite Hy, Hn in H. cbn in H.
  apply String.eqb_eq in H. rewrite H. cbn.
  unfold bind, print, raise, after_io, set_stdin, set_stdout. cbn.
  rewrite <- app_assoc. reflexivity.
Qed.

Lemma prompt_loop_skips test_name old_value new_value old_str new_str noise :
  json.dumps (Some 2%nat) true true old_value = Ok old_str ->
  json.dumps (Some 2%nat) true true new_value = Ok new_str ->
  forall lines st,
  Forall (fun l => decisive l = false) noise ->
  prompt_loop test_name old_value new_value (noise ++ lines) st
  = match noise with
    | [] => prompt_loop test_name old_value new_value lines st
    | _ :: _ =>
        prompt_loop test_name old_value new_value lines
          (after_io lines
             (flat_map (noise_events test_name old_str new_str) noise) st)
    end.
Proof.
  intros Ho Hn.
  induction noise as [| l noise IH]; intros lines st H; [reflexivity |].
  inversion H as [| ? ? Hl Hrest]; subst.
  cbn [app]. rewrite (prompt_loop_noise _ _ _ _ _ _ _ _ Ho Hn Hl).
  rewrite (IH _ _ Hrest).
  destruct noise as [| l' noise'].
  - cbn [flat_map app]. rewrite app_nil_r. reflexivity.
  - rewrite after_io_after_io. reflexivity.
Qed.

(** X3.  The interactive prompt, outside CI, for two values that
    [json.dumps(.., indent=2, sort_keys=True, default=str)] renders (as
    [old_str] and [new_str]).  Lines other than y, n and q (in either
    case) are passed over: d prints the diff of the two texts again,
    anything else prints the reminder, and the prompt comes again.  The
    first line that is y, n or q decides: y accepts, n rejects, q prints
    "Quitting..." and raises [SystemExit(1)].  The lines after it stay
    unread. *)
Theorem interactive_conflict_first_decision
  (config : ExpectTestConfig) (test_name : string)
  (old_value new_value : value) (old_str new_str : string)
  (noise : list string) (line : string)
  (rest : list string) (st : state) :
  ci_mode config = false ->
  conflict_resolution config = INTERACTIVE ->
  json.dumps (Some 2%nat) true true old_value = Ok old_str ->
  json.dumps (Some 2%nat) true true new_value = Ok new_str ->
  stdin st = (noise ++ line :: rest)%list ->
  Forall (fun l => decisive l = false) noise ->
  decisive line = true ->
  let printed :=
    ((if show_diffs config
      then [DiffShown test_name old_str new_str] else [])
     ++ flat_map (noise_events test_name old_str new_str) noise
     ++ [Prompt test_name])%list in
  _handle_conflict config test_name old_value new_value st
  = if String.eqb (lower line) "y" then
      (after_io rest printed st, Ok true)
    else if String.eqb (lower line) "n" then
      (after_io rest printed st, Ok false)
    else
      (after_io rest (printed ++ [Quitting])%list st,
       Raise (Exn SystemExit "1")).
Proof.
  intros Hci Hmode Hold Hnew Hin Hnoise Hline printed. subst printed.
  unfold _handle_conflict. rewrite Hci, Hmode.
  set (first := if show_diffs config
                then [DiffShown test_name old_str new_str] else []).
  assert (Hfirst :
    bind (if show_diffs config
          then _show_diff old_value new_value test_name else ret tt)
      (fun _ st0 => prompt_loop test_name old_value new_value (stdin st0) st0) st
    = prompt_loop test_name old_value new_value (noise ++ line :: rest)
        (set_stdout (stdout st ++ first) st)).
  { subst first. unfold bind.
    destruct (show_diffs config).
    - rewrite (show_diff_renders _ _ _ _ _ _ Hold Hnew).
      cbn [stdin set_stdout]. rewrite Hin. reflexivity.
    - unfold ret. rewrite Hin, app_nil_r. destruct st; reflexivity. }
  rewrite Hfirst. clear Hfirst.
  rewrite (prompt_loop_skips _ _ _ _ _ _ Hold Hnew _ _ Hnoise).
  assert (Hstate : forall evs,
            after_io rest evs
              (match noise with
               | [] => set_stdout (stdout st ++ first) st
               | _ :: _ =>
                   after_io (line :: rest)
                     (flat_map (noise_events test_name old_str new_str) noise)
                     (set_stdout (stdout st ++ first) st)
               end)
            = after_io rest
                (first ++ flat_map (noise_events test_name old_str new_str) noise
                 ++ evs)%list st).
  { intros evs. destruct noise as [| l noise'].
    - unfold after_io, set_stdin, set_stdout. cbn.
      rewrite <- app_assoc. reflexivity.
    - unfold after_io, set_stdin, set_stdout. cbn [stdout file fault stdin clock manager].
      rewrite <- !app_assoc. reflexivity. }
  destruct noise as [| l noise'];
    rewrite (prompt_loop_decision _ _ _ _ _ _ Hline);
    rewrite !Hstate; rewrite <- !app_assoc;
    destruct (String.eqb (lower line) "y"); try reflexivity;
    destruct (String.eqb (lower line) "n"); reflexivity.
Qed.

Lemma interactive_conflict_first_decision_witness :
  _handle_conflict (scenario.config INTERACTIVE false) "t1"
    scenario.value_42 scenario.value_43
    (set_stdin ["maybe"; "d"; "Y"; "n"] scenario.loaded)
  = (after_io ["n"]
       [DiffShown "t1" (written scenario.value_42 0) (written scenario.value_43 0);
        Prompt "t1"; InvalidInput;
        Prompt "t1";
        DiffShown "t1" (written scenario.value_42 0) (written scenario.value_43 0);
        Prompt "t1"]
       (set_stdin ["maybe"; "d"; "Y"; "n"] scenario.loaded),
     Ok true).
Proof.
  apply (interactive_conflict_first_decision
           (scenario.config INTERACTIVE false) "t1"
           scenario.value_42 scenario.value_43
           (written scenario.value_42 0) (written scenario.value_43 0)
           ["maybe"; "d"] "Y" ["n"]
           (set_stdin ["maybe"; "d"; "Y"; "n"] scenario.loaded)).
  - reflexivity.
  - reflexivity.
  - vm_compute. reflexivity.
  - vm_compute. reflexivity.
  - reflexivity.
  - repeat constructor.
  - reflexivity.
Defined.

(** X4.  The interactive prompt, outside CI, for two values that
    [json.dumps(.., indent=2, sort_keys=True, default=str)] renders, when
    the input ends before a line that is y, n or q: every line is
    consumed, the prompt is printed once more, and [input()] raises
    [EOFError]. *)
Theorem interactive_conflict_end_of_input
  (config : ExpectTestConfig) (test_name : string)
  (old_value new_value : value) (old_str new_str : string) (st : state) :
  ci_mode config = false ->
  conflict_resolution config = INTERACTIVE ->
  json.dumps (Some 2%nat) true true old_value = Ok old_str ->
  json.dumps (Some 2%nat) true true new_value = Ok new_str ->
  Forall (fun l => decisive l = false) (stdin st) ->
  let printed :=
    ((if show_diffs config
      then [DiffShown test_name old_str new_str] else [])
     ++ flat_map (noise_events test_name old_str new_str) (stdin st)
     ++ [Prompt test_name])%list in
  _handle_conflict config test_name old_value new_value st
  = (after_io [] printed st, Raise (Exn EOFError "EOF when reading a line")).
Proof.
  intros Hci Hmode Hold Hnew Hnoise printed. subst printed.
  unfold _handle_conflict. rewrite Hci, Hmode.
  set (first := if show_diffs config
                then [DiffShown test_name old_str new_str] else []).
  assert (Hfirst :
    bind (if show_diffs config
          then _show_diff old_value new_value test_name else ret tt)
      (fun _ st0 => prompt_loop test_name old_value new_value (stdin st0) st0) st
    = prompt_loop test_name old_value new_value (stdin st ++ [])
        (set_stdout (stdout st ++ first) st)).
  { subst first. unfold bind. rewrite app_nil_r.
    destruct (show_diffs config).
    - rewrite (show_diff_renders _ _ _ _ _ _ Hold Hnew). reflexivity.
    - unfold ret. rewrite app_nil_r. destruct st; reflexivity. }
  rewrite Hfirst. clear Hfirst.
  rewrite (prompt_loop_skips _ _ _ _ _ _ Hold Hnew _ _ Hnoise).
  destruct (stdin st) as [| l noise'] eqn:Hin.
  - cbn [prompt_loop flat_map app]. unfold bind, print, raise, after_io,
      set_stdin, set_stdout. cbn. rewrite Hin, <- app_assoc. reflexivity.
  - cbn [prompt_loop]. unfold bind, print, raise, after_io,
      set_stdin, set_stdout.
    cbn [stdout file fault stdin clock manager fst snd].
    rewrite <- !app_assoc. reflexivity.
Qed.

Lemma interactive_conflict_end_of_input_witness :
  _handle_conflict (scenario.config INTERACTIVE false) "t1"
    scenario.value_42 scenario.value_43
    (set_stdin ["maybe"; "d"] scenario.loaded)
  = (after_io []
       [DiffShown "t1" (written scenario.value_42 0) (written scenario.value_43 0);
        Prompt "t1"; InvalidInput;
        Prompt "t1";
        DiffShown "t1" (written scenario.value_42 0) (written scenario.value_43 0);
        Prompt "t1"]
       (set_stdin ["maybe"; "d"] scenario.loaded),
     Raise (Exn EOFError "EOF when reading a line")).
Proof.
  apply (interactive_conflict_end_of_input
           (scenario.config INTERACTIVE false) "t1"
           scenario.value_42 scenario.value_43
           (written scenario.value_42 0) (written scenario.value_43 0)
           (set_stdin ["maybe"; "d"] scenario.loaded)).
  - reflexivity.
  - reflexivity.
  - vm_compute. reflexivity.
  - vm_compute. reflexivity.
  - repeat constructor.
Defined.

(** One turn of the loop on a line that does not end it, whether the
    values can be rendered or not. *)
Lemma prompt_loop_turn test_name old_value new_value line rest st :
  decisive line = false ->
  prompt_loop test_name old_value new_value (line :: rest) st
  = if String.eqb (lower line) "d" then
      bind (_show_diff old_value new_value test_name)
        (fun _ => prompt_loop test_name old_value new_value rest)
        (after_io rest [Prompt test_name] st)
    else
      prompt_loop test_name old_value new_value rest
        (after_io rest [Prompt test_name; InvalidInput] st).
Proof.
  intros H. destruct (decisive_false _ H) as [Hy [Hn Hq]].
  cbn [prompt_loop]. unfold bind at 1, print at 1. unfold bind at 1.
  rewrite Hy, Hn, Hq.
  destruct (String.eqb (lower line) "d"); [reflexivity |].
  unfold bind, print, after_io, set_stdin, set_stdout; cbn.
  rewrite <- app_assoc. reflexivity.
Qed.

Lemma prompt_loop_frame test_name old_value new_value lines : forall st,
  let r := prompt_loop test_name old_value new_value lines st in
  file (fst r) = file st /\ manager (fst r) = manager st
  /\ fault (fst r) = fault st /\ clock (fst r) = clock st
  /\ exists evs, stdout (fst r) = (stdout st ++ Prompt test_name :: evs)%list.
Proof.
  induction lines as [| line rest IH]; intros st r; subst r.
  - cbn. repeat split. exists []. reflexivity.
  - destruct (decisive line) eqn:Hd.
    + rewrite (prompt_loop_decision _ _ _ _ _ _ Hd).
      destruct (String.eqb (lower line) "y");
        [| destruct (String.eqb (lower line) "n")];
        cbn; repeat split; eexists; reflexivity.
    + rewrite (prompt_loop_turn _ _ _ _ _ _ Hd).
      destruct (String.eqb (lower line) "d").
      * unfold bind.
        set (st1 := after_io rest [Prompt test_name] st).
        destruct (show_diff_cases old_value new_value test_name st1)
          as [[old_str [new_str [_ [_ Hshow]]]] | [e [_ Hshow]]];
          rewrite Hshow; cbv beta iota.
        -- destruct (IH (set_stdout
                           (stdout st1 ++ [DiffShown test_name old_str new_str])
                           st1))
             as [Hf [Hm [Hfl [Hc [evs He]]]]].
           rewrite Hf, Hm, Hfl, Hc, He. subst st1. cbn. repeat split.
           eexists. rewrite <- !app_assoc. reflexivity.
        -- subst st1. cbn. repeat split. exists []. reflexivity.
      * destruct (IH (after_io rest [Prompt test_name; InvalidInput] st))
          as [Hf [Hm [Hfl [Hc [evs He]]]]].
        rewrite Hf, Hm, Hfl, Hc, He. cbn. repeat split.
        eexists. rewrite <- !app_assoc. reflexivity.
Qed.

(** Resolving a conflict reads lines and prints; it changes nothing
    else. *)
Lemma handle_conflict_frame
  (config : ExpectTestConfig) (test_name : string)
  (old_value new_value : value) (st : state) :
  let r := _handle_conflict config test_name old_value new_value st in
  file (fst r) = file st
  /\ manager (fst r) = manager st
  /\ fault (fst r) = fault st
  /\ clock (fst r) = clock st
  /\ (exists evs, stdout (fst r) = (stdout st ++ evs)%list)
  /\ (ci_mode config = true \/ conflict_resolution config <> INTERACTIVE ->
      fst r = st).
Proof.
  intros r. subst r. unfold _handle_conflict.
  destruct (ci_mode config).
  { cbn. repeat split. exists []. symmetry. apply app_nil_r. }
  destruct (conflict_resolution config);
    try (cbn; repeat split; exists []; symmetry; apply app_nil_r).
  unfold bind.
  destruct (show_diffs config).
  - destruct (show_diff_cases old_value new_value test_name st)
      as [[old_str [new_str [_ [_ Hshow]]]] | [e [_ Hshow]]];
      rewrite Hshow; cbv beta iota.
    + cbn [stdin set_stdout].
      destruct (prompt_loop_frame test_name old_value new_value (stdin st)
                  (set_stdout
                     (stdout st ++ [DiffShown test_name old_str new_str]) st))
        as [Hf [Hm [Hfl [Hc [evs He]]]]].
      rewrite Hf, Hm, Hfl, Hc, He. cbn. repeat split.
      * eexists. rewrite <- app_assoc. reflexivity.
      * intros [H | H]; [discriminate | contradiction].
    + cbn. repeat split. exists []. symmetry. apply app_nil_r.
  - unfold ret.
    destruct (prompt_loop_frame test_name old_value new_value (stdin st) st)
      as [Hf [Hm [Hfl [Hc [evs He]]]]].
    rewrite Hf, Hm, Hfl, Hc, He. repeat split.
    + eexists. reflexivity.
    + intros [H | H]; [discriminate | contradiction].
Qed.

(** X5.  [_handle_conflict] never touches the snapshot file or the manager,
    whatever its result: it only prints and reads lines.  Under CI, and in
    the modes other than interactive, it changes nothing at all. *)
Theorem handle_conflict_leaves_the_store
  (config : ExpectTestConfig) (test_name : string)
  (old_value new_value : value) (st st1 : state) (r : result bool) :
  _handle_conflict config test_name old_value new_value st = (st1, r) ->
  file st1 = file st
  /\ manager st1 = manager st
  /\ fault st1 = fault st
  /\ clock st1 = clock st
  /\ (exists evs, stdout st1 = (stdout st ++ evs)%list)
  /\ (ci_mode config = true \/ conflict_resolution config <> INTERACTIVE ->
      st1 = st).
Proof.
  intros Hrun.
  pose proof (handle_conflict_frame config test_name old_value new_value st)
    as Hframe.
  cbv zeta in Hframe. rewrite Hrun in Hframe. cbn [fst] in Hframe.
  exact Hframe.
Qed.

Lemma handle_conflict_leaves_the_store_witness :
  let st := set_stdin ["d"; "n"; "y"] scenario.loaded in
  let st1 :=
    fst (_handle_conflict (scenario.config INTERACTIVE false) "t1"
           scenario.value_42 scenario.value_43 st) in
  file st1 = file st /\ manager st1 = manager st /\ stdin st1 = ["y"].
Proof.
  intros st st1.
  destruct (handle_conflict_leaves_the_store
              (scenario.config INTERACTIVE false) "t1"
              scenario.value_42 scenario.value_43 st st1 (Ok false))
    as [Hf [Hm _]].
  - reflexivity.
  - split; [exact Hf |]. split; [exact Hm | reflexivity].
Defined.

(** X6.  The CI flag is read once, when the configuration is made: the
    variable [CI] set to "true" in any mix of cases gives a configuration
    that rejects every conflict without a prompt.  With any other value,
    or with the variable unset, the configuration is interactive and shows
    diffs: a conflict first renders both values with [json.dumps(..,
    indent=2, sort_keys=True, default=str)]; when both are rendered it
    prints the diff of the two texts and prompts, and when one is not it
    raises the error of [json.dumps] with nothing printed and nothing
    read. *)
Theorem ci_detected_from_environment (environ_CI : option string)
  (test_name : string) (old_value new_value : value) (st : state) :
  let config := ExpectTestConfig__init__ environ_CI in
  let r := _handle_conflict config test_name old_value new_value st in
  ((exists s, environ_CI = Some s /\ lower s = "true") -> r = (st, Ok false))
  /\ (~ (exists s, environ_CI = Some s /\ lower s = "true") ->
      match json.dumps (Some 2%nat) true true old_value,
            json.dumps (Some 2%nat) true true new_value with
      | Ok old_str, Ok new_str =>
          exists evs,
            stdout (fst r)
            = (stdout st ++ DiffShown test_name old_str new_str
                 :: Prompt test_name :: evs)%list
      | Raise e, _ | Ok _, Raise e => r = (st, Raise e)
      end).
Proof.
  intros config r. subst r config. split.
  - intros [s [-> Hs]]. apply handle_conflict_ci. cbn. rewrite Hs. reflexivity.
  - intros Hno.
    assert (Hci : ci_mode (ExpectTestConfig__init__ environ_CI) = false).
    { cbn. apply String.eqb_neq. intros H. apply Hno.
      destruct environ_CI as [s |]; [eauto | discriminate H]. }
    unfold _handle_conflict. rewrite Hci.
    cbn [conflict_resolution show_diffs ExpectTestConfig__init__].
    unfold bind at 1.
    destruct (json.dumps (Some 2%nat) true true old_value)
      as [old_str | e] eqn:Hold.
    + destruct (json.dumps (Some 2%nat) true true new_value)
        as [new_str | e] eqn:Hnew.
      * rewrite (show_diff_renders _ _ _ _ _ _ Hold Hnew).
        cbn [stdin set_stdout].
        destruct (prompt_loop_frame test_name old_value new_value (stdin st)
                    (set_stdout
                       (stdout st ++ [DiffShown test_name old_str new_str]) st))
          as [_ [_ [_ [_ [evs He]]]]].
        rewrite He. cbn. exists evs. rewrite <- app_assoc. reflexivity.
      * unfold _show_diff, bind, call. rewrite Hold, Hnew. reflexivity.
    + unfold _show_diff, bind, call. rewrite Hold. reflexivity.
Qed.

Lemma ci_detected_from_environment_witness :
  _handle_conflict (ExpectTestConfig__init__ (Some "TRUE")) "t1"
    scenario.value_42 scenario.value_43 scenario.loaded
  = (scenario.loaded, Ok false)
  /\ (exists evs,
       stdout (fst (_handle_conflict (ExpectTestConfig__init__ (Some "1")) "t1"
                      scenario.value_42 scenario.value_43 scenario.loaded))
       = (stdout scenario.loaded
            ++ DiffShown "t1" (written scenario.value_42 0)
                 (written scenario.value_43 0)
            :: Prompt "t1" :: evs)%list)
  /\ exists msg,
       _handle_conflict (ExpectTestConfig__init__ None) "t1"
         scenario.value_42 (VDict [(KStr "a", VInt 1); (KInt 1, VInt 2)])
         scenario.loaded
       = (scenario.loaded, Raise (Exn TypeError msg)).
Proof.
  split; [| split].
  - apply (proj1 (ci_detected_from_environment (Some "TRUE") "t1"
                    scenario.value_42 scenario.value_43 scenario.loaded)).
    exists "TRUE". split; reflexivity.
  - apply (proj2 (ci_detected_from_environment (Some "1") "t1"
                    scenario.value_42 scenario.value_43 scenario.loaded)).
    intros [s [Hs Hl]]. injection Hs as <-. discriminate Hl.
  - eexists.
    apply (proj2 (ci_detected_from_environment None "t1"
                    scenario.value_42
                    (VDict [(KStr "a", VInt 1); (KInt 1, VInt 2)])
                    scenario.loaded)).
    intros [s [Hs Hl]]. discriminate Hs.
Defined.

(** A dictionary display whose keys cannot be sorted is not rendered. *)
Lemma dumps_unsortable indent default_str d :
  json.sortable (map fst d) = false ->
  json.dumps indent true default_str (VDict d)
  = Raise (Exn TypeError "'<' not supported between instances").
Proof.
  intros Hsort. unfold json.dumps.
  destruct d as [| i d]; [discriminate Hsort |].
  cbn [map json._iterencode]. unfold json.sorted.
  match goal with
  | |- context [json.sortable ?l] =>
      replace l with (map fst (i :: d))
        by (cbn [map fst]; rewrite !map_map; reflexivity)
  end.
  rewrite Hsort. reflexivity.
Qed.

(** X25.  [_show_diff] sorts the keys of both values before it prints
    anything.  In the interactive mode, outside CI, when the old or the
    new value is a dictionary whose keys cannot be sorted (strings mixed
    with numbers or [None]): with [show_diffs] set the conflict raises
    [TypeError] at once, with nothing printed and no line read; with
    [show_diffs] unset the prompt is printed and the first line d raises
    it. *)
Theorem interactive_diff_of_unsortable_keys_raises
  (config : ExpectTestConfig) (test_name : string) (d : dict)
  (old_value new_value : value) (st : state) :
  ci_mode config = false ->
  conflict_resolution config = INTERACTIVE ->
  json.sortable (map fst d) = false ->
  old_value = VDict d
  \/ (new_value = VDict d
      /\ exists old_str,
           json.dumps (Some 2%nat) true true old_value = Ok old_str) ->
  let e := Exn TypeError "'<' not supported between instances" in
  (show_diffs config = true ->
   _handle_conflict config test_name old_value new_value st = (st, Raise e))
  /\ (show_diffs config = false ->
      forall line rest,
        stdin st = line :: rest -> lower line = "d" ->
        _handle_conflict config test_name old_value new_value st
        = (after_io rest [Prompt test_name] st, Raise e)).
Proof.
  intros Hci Hmode Hsort Hwhich e.
  assert (Hshow : forall st0,
            _show_diff old_value new_value test_name st0 = (st0, Raise e)).
  { intros st0. unfold _show_diff, bind, call.
    destruct Hwhich as [-> | [-> [old_str Hold]]].
    - rewrite (dumps_unsortable _ _ _ Hsort). reflexivity.
    - rewrite Hold, (dumps_unsortable _ _ _ Hsort). reflexivity. }
  unfold _handle_conflict. rewrite Hci, Hmode. split.
  - intros ->. unfold bind. rewrite Hshow. reflexivity.
  - intros -> line rest Hin Hd. unfold bind at 1, ret.
    rewrite Hin. cbn [prompt_loop].
    unfold bind at 1, print at 1. unfold bind at 1.
    rewrite Hd. cbn [String.eqb Ascii.eqb Bool.eqb].
    unfold bind. rewrite Hshow. reflexivity.
Qed.

Lemma interactive_diff_of_unsortable_keys_raises_witness :
  let d := [(KStr "a", VInt 1); (KInt 1, VInt 2)] in
  let e := Exn TypeError "'<' not supported between instances" in
  _handle_conflict (scenario.config INTERACTIVE false) "t1"
    scenario.value_42 (VDict d) (set_stdin ["y"] scenario.loaded)
  = (set_stdin ["y"] scenario.loaded, Raise e).
Proof.
  intros d e.
  apply (proj1 (interactive_diff_of_unsortable_keys_raises
                  (scenario.config INTERACTIVE false) "t1" d
                  scenario.value_42 (VDict d)
                  (set_stdin ["y"] scenario.loaded)
                  eq_refl eq_refl eq_refl
                  (or_intror
                     (conj eq_refl
                        (ex_intro _ (written scenario.value_42 0) eq_refl))))).
  reflexivity.
Defined.


(** ** Dictionaries: assignment and lookup *)

Lemma key_eqb_class a b : key_eqb a b = true <-> class_of a = class_of b.
Proof.
  destruct a as [| x | x | x], b as [| y | y | y]; cbn;
    rewrite ?Z.eqb_eq, ?String.eqb_eq, ?Bool.eqb_true_iff;
    split; intros H; try discriminate; try reflexivity;
    try (inversion H; subst; reflexivity); try congruence.
  destruct x, y; cbn in H; try reflexivity; discriminate.
Qed.

Lemma key_eqb_trans a b c :
  key_eqb a b = true -> key_eqb b c = true -> key_eqb a c = true.
Proof. rewrite !key_eqb_class. congruence. Qed.

(** Equal keys look up the same thing. *)
Lemma key_eqb_compat a b c : key_eqb a b = true -> key_eqb a c = key_eqb b c.
Proof.
  intros Hab. destruct (key_eqb b c) eqn:Hbc.
  - apply (key_eqb_trans _ _ _ Hab Hbc).
  - destruct (key_eqb a c) eqn:Hac; [| reflexivity].
    rewrite key_eqb_sym in Hab. rewrite (key_eqb_trans _ _ _ Hab Hac) in Hbc.
    discriminate.
Qed.

Lemma dict_get_compat {A : Type} a b (d : list (key * A)) :
  key_eqb a b = true -> dict_get a d = dict_get b d.
Proof.
  intros Hab. induction d as [| [k x] r IH]; [reflexivity |].
  cbn [dict_get]. rewrite (key_eqb_compat _ _ k Hab), IH. reflexivity.
Qed.

Lemma dict_get_set {A : Type} k1 k2 (v : A) d :
  dict_get k1 (dict_set k2 v d)
  = if key_eqb k1 k2 then Some v else dict_get k1 d.
Proof.
  induction d as [| [k x] r IH]; cbn [dict_set dict_get].
  - reflexivity.
  - destruct (key_eqb k2 k) eqn:H2; cbn [dict_get].
    + rewrite (key_eqb_sym k1 k2), (key_eqb_compat k2 k k1 H2).
      rewrite (key_eqb_sym k k1).
      destruct (key_eqb k1 k); reflexivity.
    + rewrite IH. destruct (key_eqb k1 k) eqn:H1; [| reflexivity].
      destruct (key_eqb k1 k2) eqn:H12; [| reflexivity].
      rewrite key_eqb_sym in H12.
      rewrite (key_eqb_trans _ _ _ H12 H1) in H2. discriminate.
Qed.

Lemma dict_mem_set {A : Type} k1 k2 (v : A) d :
  dict_mem k1 (dict_set k2 v d) = key_eqb k1 k2 || dict_mem k1 d.
Proof.
  unfold dict_mem. rewrite dict_get_set.
  destruct (key_eqb k1 k2); reflexivity.
Qed.

(** Assignment keeps the keys pairwise different. *)
Lemma keys_distinct_set {A : Type} k (v : A) d :
  keys_distinct d = true -> keys_distinct (dict_set k v d) = true.
Proof.
  induction d as [| [k' x] r IH]; intros H; [reflexivity |].
  cbn [keys_distinct] in H. apply andb_prop in H. destruct H as [Hk Hr].
  cbn [dict_set]. destruct (key_eqb k k') eqn:E; cbn [keys_distinct].
  - rewrite Hk, Hr. reflexivity.
  - rewrite dict_mem_set, (key_eqb_sym k' k), E, (IH Hr).
    cbn [orb]. rewrite Hk. reflexivity.
Qed.

Lemma keys_distinct_update {A : Type} (other d : list (key * A)) :
  keys_distinct d = true -> keys_distinct (dict_update d other) = true.
Proof.
  unfold dict_update. revert d.
  induction other as [| [k v] r IH]; intros d H; [exact H |].
  cbn [fold_left fst snd]. apply IH. apply keys_distinct_set. exact H.
Qed.

(** Lookup after [d.update(other)]: what [other] has, else what [d]
    has. *)
Lemma dict_get_update {A : Type} k (other : list (key * A)) : forall d,
  keys_distinct other = true ->
  dict_get k (dict_update d other)
  = match dict_get k other with
    | Some w => Some w
    | None => dict_get k d
    end.
Proof.
  unfold dict_update.
  induction other as [| [k' w] r IH]; intros d H; [reflexivity |].
  cbn [keys_distinct] in H. apply andb_prop in H. destruct H as [Hk Hr].
  apply negb_true_iff in Hk.
  cbn [fold_left fst snd dict_get]. rewrite (IH _ Hr), dict_get_set.
  destruct (key_eqb k k') eqn:E; [| reflexivity].
  unfold dict_mem in Hk. rewrite (dict_get_compat k k' r E).
  destruct (dict_get k' r); [discriminate | reflexivity].
Qed.

(** ** The manager: staging, lookup and commit *)

(** X7.  [update_snapshot] stages the value without touching the file or the
    loaded store.  From then on [get_snapshot] returns the staged value and
    [has_snapshot] finds the test, while other tests are answered as
    before.  A "value" key in the metadata takes the place of the value:
    the metadata is merged last. *)
Theorem staged_snapshot_is_found
  (test_name : string) (v : value) (metadata : dict) (st : state) :
  keys_distinct metadata = true ->
  let staged := update_snapshot test_name v metadata st in
  let st' := fst staged in
  let stored :=
    match dict_get (KStr "value") metadata with Some w => w | None => v end in
  snd staged = Ok tt
  /\ file st' = file st
  /\ snapshots (manager st') = snapshots (manager st)
  /\ get_snapshot test_name st' = (st', Ok stored)
  /\ (forall d, snapshots (manager st) = VDict d ->
        has_snapshot test_name st' = (st', Ok true))
  /\ (forall other,
        other <> test_name ->
        snd (get_snapshot other st') = snd (get_snapshot other st)
        /\ snd (has_snapshot other st') = snd (has_snapshot other st)).
Proof.
  intros Hmeta staged st' stored. subst staged st' stored.
  destruct st as [f flt i o c [snaps pend]].
  unfold update_snapshot, set_pending_updates, set_manager.
  cbn [fst snd manager snapshots pending_updates file fault stdin stdout clock].
  split; [reflexivity |]. split; [reflexivity |]. split; [reflexivity |].
  split; [| split].
  - unfold get_snapshot, bind, self, call.
    cbn [manager pending_updates].
    unfold dict_mem. rewrite dict_get_set, key_eqb_refl.
    unfold subscript. rewrite dict_get_set, key_eqb_refl.
    rewrite (dict_get_update _ _ _ Hmeta). cbn [dict_get key_eqb String.eqb].
    destruct (dict_get (KStr "value") metadata); reflexivity.
  - intros d Hd. cbn [manager snapshots] in Hd. subst snaps.
    unfold has_snapshot, bind, self, call, ret.
    cbn [manager snapshots pending_updates py_in].
    destruct (dict_mem (KStr test_name) d); [reflexivity |].
    rewrite dict_mem_set, key_eqb_refl. reflexivity.
  - intros other Hother.
    assert (E : key_eqb (KStr other) (KStr test_name) = false)
      by (cbn; apply String.eqb_neq; exact Hother).
    split.
    + unfold get_snapshot, bind, self, call.
      cbn [manager snapshots pending_updates].
      rewrite dict_mem_set, E. cbn [orb].
      destruct (dict_mem (KStr other) pend) eqn:Hm.
      * unfold subscript at 1 3. rewrite dict_get_set, E.
        destruct (dict_get (KStr other) pend) as [entry |]; [| reflexivity].
        destruct (subscript entry "value"); reflexivity.
      * destruct (py_in other snaps) as [[] | e]; try reflexivity.
        destruct (subscript snaps other) as [entry | e]; [| reflexivity].
        destruct (subscript entry "value"); reflexivity.
    + unfold has_snapshot, bind, self, call, ret.
      cbn [manager snapshots pending_updates].
      destruct (py_in other snaps) as [[] | e]; try reflexivity.
      cbn [snd]. rewrite dict_mem_set, E. reflexivity.
Qed.

Lemma staged_snapshot_is_found_witness :
  let st' :=
    fst (update_snapshot "t2" scenario.value_43
           [(KStr "hash", VStr "0"); (KStr "value", VInt 7)]
           scenario.loaded) in
  get_snapshot "t2" st' = (st', Ok (VInt 7))
  /\ snd (get_snapshot "t1" st') = snd (get_snapshot "t1" scenario.loaded).
Proof.
  pose proof (staged_snapshot_is_found "t2" scenario.value_43
                [(KStr "hash", VStr "0"); (KStr "value", VInt 7)]
                scenario.loaded eq_refl) as H.
  cbv zeta in H. destruct H as [_ [_ [_ [Hget [_ Hother]]]]].
  split.
  - exact Hget.
  - apply (Hother "t1"). discriminate.
Defined.

(** What a successful commit leaves in the manager. *)
Lemma commit_ok_manager st st' d :
  snapshots (manager st) = VDict d ->
  commit_updates st = (st', Ok tt) ->
  manager st'
  = {| snapshots := VDict (dict_update d (pending_updates (manager st)));
       pending_updates := [] |}.
Proof.
  intros Hd Hcommit. destruct st as [f flt i o c [snaps pend]].
  cbn [manager snapshots pending_updates] in *. subst snaps.
  destruct pend as [| p pend].
  - inversion Hcommit. reflexivity.
  - cbv [commit_updates _save_snapshots bind self set_snapshots raise ret
         mkdir_parent write_file set_pending_updates manager pending_updates
         snapshots fault set_manager set_file file stdin stdout clock]
      in Hcommit.
    set (merged := dict_update d (p :: pend)) in *. clearbody merged.
    destruct (json._iterencode (Some 2%nat) true true (VDict merged) 0)
      as [text err] eqn:Henc.
    destruct flt as [| | | room]; cbv iota beta in Hcommit;
      rewrite ?Henc in Hcommit; cbv iota beta in Hcommit;
      try discriminate Hcommit.
    + destruct err; inversion Hcommit; reflexivity.
    + destruct (Nat.ltb room (String.length text));
        [discriminate Hcommit |].
      destruct err; inversion Hcommit; reflexivity.
Qed.

(** X8.  A commit that succeeds empties the pending updates and merges them
    into the store, so that [get_snapshot] and [has_snapshot] answer as
    they did before the commit, for every test; where the keys of the
    store were pairwise different, so are those of the merged store.
    With nothing pending the commit does nothing. *)
Theorem commit_keeps_every_lookup (st st' : state) (d : dict) :
  snapshots (manager st) = VDict d ->
  keys_distinct (pending_updates (manager st)) = true ->
  commit_updates st = (st', Ok tt) ->
  pending_updates (manager st') = []
  /\ (keys_distinct d = true ->
      exists merged,
        snapshots (manager st') = VDict merged /\ keys_distinct merged = true)
  /\ (forall test_name,
        snd (get_snapshot test_name st') = snd (get_snapshot test_name st)
        /\ snd (has_snapshot test_name st') = snd (has_snapshot test_name st))
  /\ (pending_updates (manager st) = [] -> st' = st).
Proof.
  intros Hd Hpend Hcommit.
  pose proof (commit_ok_manager _ _ _ Hd Hcommit) as Hm.
  split; [rewrite Hm; reflexivity |]. split; [| split].
  - intros Hdd. rewrite Hm. eexists. split; [reflexivity |].
    apply keys_distinct_update. exact Hdd.
  - intros test_name.
    unfold get_snapshot, has_snapshot, bind, self, call, ret.
    rewrite Hm, Hd. cbn [snapshots pending_updates py_in dict_mem dict_get].
    unfold dict_mem, subscript at 1.
    rewrite (dict_get_update _ _ _ Hpend).
    destruct (dict_get (KStr test_name) (pending_updates (manager st)))
      as [entry |] eqn:Hp.
    + cbn [subscript]. rewrite Hp.
      split; [reflexivity |].
      destruct (dict_get (KStr test_name) d); reflexivity.
    + cbn [subscript].
      destruct (dict_get (KStr test_name) d) as [entry |];
        split; reflexivity.
  - intros Hnil. unfold commit_updates, bind, self in Hcommit.
    rewrite Hnil in Hcommit. inversion Hcommit. reflexivity.
Qed.

Lemma commit_keeps_every_lookup_witness :
  let st := scenario.before_commit NoFault in
  let st' := fst (commit_updates st) in
  pending_updates (manager st') = []
  /\ snd (get_snapshot "t" st') = snd (get_snapshot "t" st)
  /\ snd (get_snapshot "old_test" st') = snd (get_snapshot "old_test" st).
Proof.
  intros st st'.
  assert (Hcommit : commit_updates st = (st', Ok tt))
    by (vm_compute; reflexivity).
  destruct (commit_keeps_every_lookup st st' _ eq_refl eq_refl Hcommit)
    as [Hp [_ [Hl _]]].
  split; [exact Hp |]. split; [apply (Hl "t") | apply (Hl "old_test")].
Defined.

(** ** What [json.loads] returns *)

Lemma forallb_snd_set {A : Type} (pv : A -> bool) k v (d : list (key * A)) :
  forallb (fun kv => pv (snd kv)) d = true -> pv v = true ->
  forallb (fun kv => pv (snd kv)) (dict_set k v d) = true.
Proof.
  intros Hd Hv. induction d as [| [k' x] r IH]; cbn [dict_set forallb snd].
  - rewrite Hv. reflexivity.
  - cbn [forallb snd] in Hd. apply andb_prop in Hd. destruct Hd as [Hx Hr].
    destruct (key_eqb k k'); cbn [forallb snd].
    + rewrite Hv, Hr. reflexivity.
    + rewrite Hx, (IH Hr). reflexivity.
Qed.

Lemma forallb_fst_set {A : Type} (pk : key -> bool) k v (d : list (key * A)) :
  forallb (fun kv => pk (fst kv)) d = true -> pk k = true ->
  forallb (fun kv => pk (fst kv)) (dict_set k v d) = true.
Proof.
  intros Hd Hk. induction d as [| [k' x] r IH]; cbn [dict_set forallb fst].
  - rewrite Hk. reflexivity.
  - cbn [forallb fst] in Hd. apply andb_prop in Hd. destruct Hd as [Hx Hr].
    destruct (key_eqb k k'); cbn [forallb fst].
    + rewrite Hx, Hr. reflexivity.
    + rewrite Hx, (IH Hr). reflexivity.
Qed.

Lemma forallb_snd_update {A : Type} (pv : A -> bool) (other : list (key * A)) :
  forall d,
  forallb (fun kv => pv (snd kv)) d = true ->
  forallb (fun kv => pv (snd kv)) other = true ->
  forallb (fun kv => pv (snd kv)) (dict_update d other) = true.
Proof.
  unfold dict_update. induction other as [| [k v] r IH]; intros d Hd Ho.
  - exact Hd.
  - cbn [forallb snd] in Ho. apply andb_prop in Ho. destruct Ho as [Hv Hr].
    cbn [fold_left fst snd]. apply IH; [| exact Hr].
    apply forallb_snd_set; assumption.
Qed.

Lemma forallb_fst_update {A : Type} (pk : key -> bool) (other : list (key * A)) :
  forall d,
  forallb (fun kv => pk (fst kv)) d = true ->
  forallb (fun kv => pk (fst kv)) other = true ->
  forallb (fun kv => pk (fst kv)) (dict_update d other) = true.
Proof.
  unfold dict_update. induction other as [| [k v] r IH]; intros d Hd Ho.
  - exact Hd.
  - cbn [forallb fst] in Ho. apply andb_prop in Ho. destruct Ho as [Hv Hr].
    cbn [fold_left fst snd]. apply IH; [| exact Hr].
    apply forallb_fst_set; assumption.
Qed.

Lemma scan_map_inv {A B : Type} (f : A -> B) r b rest :
  json.scan_map f r = json.Scanned b rest ->
  exists a, r = json.Scanned a rest /\ b = f a.
Proof.
  destruct r as [a rest' | |]; cbn; intros H; inversion H; subst. eauto.
Qed.

Lemma json_shaped_parts v :
  json_shaped v = true <->
  is_normalized v = true /\ str_keyed v = true /\ well_formed v = true.
Proof.
  unfold json_shaped. rewrite !andb_true_iff. tauto.
Qed.

Lemma json_shaped_str_keyed v : json_shaped v = true -> str_keyed v = true.
Proof. intros H. apply json_shaped_parts in H. tauto. Qed.

Lemma forallb_and {A : Type} (p q : A -> bool) l :
  forallb (fun x => p x && q x) l = forallb p l && forallb q l.
Proof.
  induction l as [| x l IH]; [reflexivity |].
  cbn. rewrite IH. destruct (p x), (q x), (forallb p l); reflexivity.
Qed.

Lemma json_shaped_list vs :
  forallb json_shaped vs = true -> json_shaped (VList vs) = true.
Proof.
  intros H. unfold json_shaped in *. cbn [is_normalized str_keyed well_formed].
  rewrite !forallb_and in H. exact H.
Qed.

Lemma json_shaped_dict ps :
  forallb (fun kv => json.is_str (fst kv) && json_shaped (snd kv)) ps = true ->
  json_shaped (VDict (dict_update [] ps)) = true.
Proof.
  intros H. rewrite forallb_and in H. apply andb_prop in H.
  destruct H as [Hk Hv]. unfold json_shaped in Hv.
  rewrite !forallb_and in Hv. apply andb_prop in Hv. destruct Hv as [Hv Hw].
  apply andb_prop in Hv. destruct Hv as [Hn Hs].
  apply json_shaped_parts. cbn [is_normalized str_keyed well_formed].
  repeat split.
  - apply forallb_snd_update; [reflexivity | exact Hn].
  - apply andb_true_intro. split.
    + apply forallb_fst_update; [reflexivity | exact Hk].
    + apply forallb_snd_update; [reflexivity | exact Hs].
  - apply andb_true_intro. split.
    + apply keys_distinct_update. reflexivity.
    + apply forallb_snd_update; [reflexivity | exact Hw].
Qed.

Lemma scan_number_shaped s v rest :
  json.scan_number s = json.Scanned v rest -> json_shaped v = true.
Proof.
  unfold json.scan_number.
  destruct (match s with
            | EmptyString => (false, s)
            | String c r => if Ascii.eqb c "-" then (true, r) else (false, s)
            end) as [neg body].
  destruct (match body with
            | EmptyString => None
            | String c r =>
                if Ascii.eqb c "0" then Some (0, r)
                else if json.is_digit c
                     then Some (json.digits (json.digit_val c) r) else None
            end) as [[n rest'] |].
  - destruct (json.float_follows rest'); intros H; inversion H. reflexivity.
  - destruct (String.prefix "NaN" s || String.prefix "Infinity" s
              || String.prefix "-Infinity" s); discriminate.
Qed.

Lemma scan_shaped fuel :
  (forall s v rest,
     json.scan_once fuel s = json.Scanned v rest -> json_shaped v = true)
  /\ (forall s vs rest,
        json.array_items fuel s = json.Scanned vs rest ->
        forallb json_shaped vs = true)
  /\ (forall s ps rest,
        json.object_items fuel s = json.Scanned ps rest ->
        forallb (fun kv => json.is_str (fst kv) && json_shaped (snd kv)) ps
        = true).
Proof.
  induction fuel as [| f [IHv [IHa IHo]]].
  { repeat split; intros; discriminate. }
  split; [| split].
  - intros s v rest H. cbn [json.scan_once] in H.
    destruct s as [| c r]; [discriminate H |].
    destruct (Ascii.eqb c dquote).
    { apply scan_map_inv in H. destruct H as [a [_ ->]]. reflexivity. }
    destruct (Ascii.eqb c "{").
    { destruct (json.skip_ws r) as [| c1 r1]; [discriminate H |].
      destruct (Ascii.eqb c1 "}"); [inversion H; reflexivity |].
      destruct (Ascii.eqb c1 dquote); [| discriminate H].
      apply scan_map_inv in H. destruct H as [ps [Hps ->]].
      apply json_shaped_dict. apply (IHo _ _ _ Hps). }
    destruct (Ascii.eqb c "[").
    { destruct (json.skip_ws r) as [| c1 r1] eqn:Hr; [discriminate H |].
      destruct (Ascii.eqb c1 "]"); [inversion H; reflexivity |].
      apply scan_map_inv in H. destruct H as [vs [Hvs ->]].
      apply json_shaped_list. apply (IHa _ _ _ Hvs). }
    destruct (String.prefix "null" (String c r)); [inversion H; reflexivity |].
    destruct (String.prefix "true" (String c r)); [inversion H; reflexivity |].
    destruct (String.prefix "false" (String c r)); [inversion H; reflexivity |].
    apply (scan_number_shaped _ _ _ H).
  - intros s vs rest H. cbn [json.array_items] in H.
    destruct (json.scan_once f s) as [v rest1 | |] eqn:Hv; try discriminate H.
    pose proof (IHv _ _ _ Hv) as Hshape.
    destruct (json.skip_ws rest1) as [| c r]; [discriminate H |].
    destruct (Ascii.eqb c "]").
    { inversion H; subst. cbn. rewrite Hshape. reflexivity. }
    destruct (Ascii.eqb c ","); [| discriminate H].
    apply scan_map_inv in H. destruct H as [vs' [Hvs ->]].
    cbn [forallb]. rewrite Hshape, (IHa _ _ _ Hvs). reflexivity.
  - intros s ps rest H. cbn [json.object_items] in H.
    destruct (json.scanstring s) as [k rest1 | |]; try discriminate H.
    destruct (json.skip_ws rest1) as [| c r]; [discriminate H |].
    destruct (Ascii.eqb c ":"); [| discriminate H].
    destruct (json.scan_once f (json.skip_ws r)) as [v rest2 | |] eqn:Hv;
      try discriminate H.
    pose proof (IHv _ _ _ Hv) as Hshape.
    destruct (json.skip_ws rest2) as [| c' r']; [discriminate H |].
    destruct (Ascii.eqb c' "}").
    { inversion H; subst. cbn. rewrite Hshape. reflexivity. }
    destruct (Ascii.eqb c' ","); [| discriminate H].
    destruct (json.skip_ws r') as [| q r'']; [discriminate H |].
    destruct (Ascii.eqb q dquote); [| discriminate H].
    apply scan_map_inv in H. destruct H as [ps' [Hps ->]].
    cbn [forallb fst snd json.is_str]. rewrite Hshape, (IHo _ _ _ Hps).
    reflexivity.
Qed.

(** What [json.loads] returns is made of lists, dictionaries keyed by
    pairwise different strings, and scalars. *)
Lemma loads_shaped text v : json.loads text = Ok v -> json_shaped v = true.
Proof.
  unfold json.loads.
  destruct (json.scan_once (2 * String.length text + 2) (json.skip_ws text))
    as [v' rest | |] eqn:H; try discriminate.
  destruct (json.skip_ws rest); intros E; inversion E; subst.
  apply (proj1 (scan_shaped _) _ _ _ H).
Qed.

(** So is what [json.load] returns. *)
Lemma load_shaped fp v : json.load fp = Ok v -> json_shaped v = true.
Proof.
  unfold json.load. destruct (read fp) as [text | e]; [| discriminate].
  apply loads_shaped.
Qed.

(** ** Storing a snapshot *)

(** Without [default] and without sorting, a normalized value is encoded
    without an exception. *)
Lemma iterencode_normalized indent v : forall level,
  is_normalized v = true ->
  snd (json._iterencode indent false false v level) = None.
Proof.
  induction v as [| x | x | x | l IH | l IH | d IH | s at_ IH | s]
    using value_ind'; intros level Hs; try reflexivity; try discriminate Hs.
  - destruct x; reflexivity.
  - cbn [json._iterencode]. destruct l as [| v l]; [reflexivity |].
    set (body := json.chunks_list _ _ _).
    assert (Hbody : snd body = None).
    { apply chunks_list_ok.
      cbn [is_normalized] in Hs. rewrite forallb_forall in Hs.
      rewrite Forall_forall in IH |- *.
      intros e He. apply in_map_iff in He. destruct He as [x [He Hx]].
      subst e. apply IH; auto. }
    clearbody body. repeat apply andthen_ok; solve [reflexivity | exact Hbody].
  - cbn [json._iterencode]. destruct d as [| i d]; [reflexivity |].
    cbn [is_normalized] in Hs.
    set (f := fun kv : key * value =>
                (fst kv, json._iterencode indent false false (snd kv) (S level))).
    assert (Hitems : Forall (fun kv => snd (snd kv) = None) (map f (i :: d))).
    { rewrite forallb_forall in Hs. rewrite Forall_forall in IH |- *.
      intros e He. apply in_map_iff in He. destruct He as [x [He Hx]].
      subst e. cbn. apply IH; auto. }
    change (f i :: map f d) with (map f (i :: d)).
    pose proof (chunks_dict_ok
      (json.item_separator indent ++ json.newline_indent indent (S level))
      true _ Hitems) as Hc.
    set (body := json.chunks_dict _ _ _) in *. clearbody body.
    repeat apply andthen_ok; solve [reflexivity | exact Hc].
Qed.

(** The message of a rejected conflict exists for normalized values. *)
Lemma mismatch_report_normalized test_name existing new_value :
  is_normalized existing = true -> is_normalized new_value = true ->
  exists expected got,
    json.dumps (Some 2%nat) false false existing = Ok expected
    /\ json.dumps (Some 2%nat) false false new_value = Ok got
    /\ mismatch_report test_name existing new_value
       = Ok (mismatch_message test_name ++ chr newline ++ "Expected: "
             ++ expected ++ chr newline ++ "Got: " ++ got).
Proof.
  intros He Hn. unfold mismatch_report, json.dumps.
  pose proof (iterencode_normalized (Some 2%nat) existing 0 He) as H1.
  pose proof (iterencode_normalized (Some 2%nat) new_value 0 Hn) as H2.
  destruct (json._iterencode (Some 2%nat) false false existing 0) as [t1 e1].
  destruct (json._iterencode (Some 2%nat) false false new_value 0) as [t2 e2].
  cbn in H1, H2. subst e1 e2. eauto.
Qed.

(** X9.  When a conflict is rejected without an exception (KeepOld mode, CI,
    or the answer n), the wrapper raises an [AssertionError] whose text is
    the mismatch line followed by "Expected: " and "Got: " with the JSON
    renderings of the baseline and of the new value; the file and the
    manager are as before, and in KeepOld mode so is everything else. *)
Theorem rejected_conflict_reports_both_values
  (config : ExpectTestConfig) (test_name : string) (where_ : site)
  (existing new_value : value) (digest : string) (st st1 : state) :
  is_normalized existing = true ->
  is_normalized new_value = true ->
  fingerprint new_value = Ok digest ->
  has_snapshot test_name st = (st, Ok true) ->
  get_snapshot test_name st = (st, Ok existing) ->
  py_ne existing new_value = true ->
  _handle_conflict config test_name existing new_value st = (st1, Ok false) ->
  exists expected got,
    json.dumps (Some 2%nat) false false existing = Ok expected
    /\ json.dumps (Some 2%nat) false false new_value = Ok got
    /\ check_snapshot config test_name where_ new_value st
       = (st1,
          Raise (Exn AssertionError
                   (mismatch_message test_name ++ chr newline ++ "Expected: "
                    ++ expected ++ chr newline ++ "Got: " ++ got)))
    /\ file st1 = file st /\ manager st1 = manager st
    /\ (conflict_resolution config = KEEP_OLD -> st1 = st).
Proof.
  intros He Hn Hfp Hhas Hget Hne Hreject.
  destruct (mismatch_report_normalized test_name existing new_value He Hn)
    as [expected [got [H1 [H2 Hrep]]]].
  exists expected, got. split; [exact H1 |]. split; [exact H2 |].
  pose proof (handle_conflict_frame config test_name existing
                new_value st) as Hframe.
  cbv zeta in Hframe. rewrite Hreject in Hframe. cbn [fst] in Hframe.
  destruct Hframe as [Hf [Hm [_ [_ [_ Hsame]]]]].
  split; [| split; [exact Hf | split; [exact Hm |]]].
  - unfold check_snapshot. unfold call at 1. rewrite Hfp.
    rewrite (bind_ok _ _ st st digest) by reflexivity.
    rewrite (bind_ok _ _ _ _ _ Hhas).
    rewrite (bind_ok _ _ _ _ _ Hget).
    rewrite Hne. rewrite (bind_ok _ _ _ _ _ Hreject).
    unfold call, bind, raise. rewrite Hrep. reflexivity.
  - intros Hmode. apply Hsame. right. rewrite Hmode. discriminate.
Qed.

Lemma rejected_conflict_reports_both_values_witness :
  exists expected got,
    json.dumps (Some 2%nat) false false scenario.value_42 = Ok expected
    /\ json.dumps (Some 2%nat) false false scenario.value_43 = Ok got
    /\ check_snapshot (scenario.config KEEP_OLD false) "t1" scenario.here
         scenario.value_43 scenario.loaded
       = (scenario.loaded,
          Raise (Exn AssertionError
                   (mismatch_message "t1" ++ chr newline ++ "Expected: "
                    ++ expected ++ chr newline ++ "Got: " ++ got)))
    /\ file scenario.loaded = file scenario.loaded
    /\ manager scenario.loaded = manager scenario.loaded
    /\ (conflict_resolution (scenario.config KEEP_OLD false) = KEEP_OLD ->
        scenario.loaded = scenario.loaded).
Proof.
  apply (rejected_conflict_reports_both_values
           (scenario.config KEEP_OLD false) "t1" scenario.here
           scenario.value_42 scenario.value_43
           (match fingerprint scenario.value_43 with
            | Ok digest => digest
            | Raise _ => EmptyString
            end)
           scenario.loaded scenario.loaded);
    vm_compute; reflexivity.
Defined.

(** ** Baselines that come from a file *)

Lemma dict_get_In {A : Type} k (d : list (key * A)) x :
  dict_get k d = Some x ->
  exists k', In (k', x) d /\ key_eqb k k' = true.
Proof.
  induction d as [| [k' y] r IH]; cbn [dict_get]; intros H; [discriminate H |].
  destruct (key_eqb k k') eqn:E.
  - inversion H; subst. exists k'. split; [left; reflexivity | exact E].
  - destruct (IH H) as [k2 [Hin Hk]]. exists k2. split; [right |]; assumption.
Qed.

Lemma json_shaped_get d k x :
  json_shaped (VDict d) = true -> dict_get k d = Some x ->
  json_shaped x = true.
Proof.
  intros Hd Hget. apply json_shaped_parts in Hd.
  destruct Hd as [Hn [Hs Hw]].
  cbn [is_normalized str_keyed well_formed] in Hn, Hs, Hw.
  apply andb_prop in Hs. destruct Hs as [_ Hs].
  apply andb_prop in Hw. destruct Hw as [_ Hw].
  destruct (dict_get_In _ _ _ Hget) as [k' [Hin _]].
  rewrite forallb_forall in Hn, Hs, Hw.
  apply json_shaped_parts.
  split; [apply (Hn _ Hin) | split; [apply (Hs _ Hin) | apply (Hw _ Hin)]].
Qed.

(** What the constructor of the manager leaves in it. *)
Lemma init_manager st st1 :
  SnapshotManager__init__ st = (st1, Ok tt) ->
  pending_updates (manager st1) = []
  /\ json_shaped (snapshots (manager st1)) = true
  /\ file st1 = file st
  /\ match file st with
     | None => snapshots (manager st1) = VDict []
     | Some text =>
         json.load text = Ok (snapshots (manager st1))
         \/ (exists msg, json.load text = Raise (Exn JSONDecodeError msg))
            /\ snapshots (manager st1) = VDict []
     end.
Proof.
  unfold SnapshotManager__init__, bind, _load_snapshots, print, ret.
  destruct (file st) as [text |] eqn:Hf.
  - destruct (json.load text) as [v | [[] msg]] eqn:Hl; intros H;
      inversion H; subst; cbn [manager file set_manager set_stdout snapshots
                               pending_updates];
      repeat split; try assumption; try reflexivity;
      try (apply (load_shaped _ _ Hl)); try (left; reflexivity).
    right. split; [eauto | reflexivity].
  - intros H. inversion H; subst. cbn. rewrite Hf. repeat split.
Qed.

(** The constructor of the manager touches neither the device nor the
    input. *)
Lemma init_frame st st1 :
  SnapshotManager__init__ st = (st1, Ok tt) ->
  fault st1 = fault st /\ clock st1 = clock st /\ stdin st1 = stdin st.
Proof.
  unfold SnapshotManager__init__, bind, _load_snapshots, print, ret.
  destruct (file st) as [text |].
  - destruct (json.load text) as [v | [[] msg]]; intros H;
      inversion H; subst; repeat split.
  - intros H. inversion H; subst. repeat split.
Qed.

(** What [get_snapshot] returns on a manager that has staged nothing. *)
Lemma get_snapshot_shaped test_name st v :
  pending_updates (manager st) = [] ->
  json_shaped (snapshots (manager st)) = true ->
  snd (get_snapshot test_name st) = Ok v ->
  json_shaped v = true.
Proof.
  intros Hp Hs. unfold get_snapshot, bind, self, call, ret.
  rewrite Hp. cbn [dict_mem dict_get].
  destruct (snapshots (manager st)) as [| b | z | s | l | l | d | s a | s];
    cbn [py_in subscript]; try discriminate.
  - destruct (contains test_name s); cbn; [discriminate |].
    intros H; inversion H; reflexivity.
  - destruct (existsb _ _); cbn; [discriminate |].
    intros H; inversion H; reflexivity.
  - unfold dict_mem.
    destruct (dict_get (KStr test_name) d) as [entry |] eqn:He;
      [| intros H; inversion H; reflexivity].
    pose proof (json_shaped_get _ _ _ Hs He) as Hentry.
    destruct entry as [| b | z | s | l | l | e | s a | s];
      cbn [subscript snd]; try discriminate.
    destruct (dict_get (KStr "value") e) as [x |] eqn:Hx; [| discriminate].
    intros H; inversion H; subst.
    apply (json_shaped_get _ _ _ Hentry Hx).
Qed.

(** Keys that are pairwise different under [==] are pairwise different
    objects. *)
Lemma keys_distinct_NoDup {A : Type} (d : list (key * A)) :
  keys_distinct d = true -> NoDup (map fst d).
Proof.
  induction d as [| [k x] r IH]; intros H; [constructor |].
  cbn [keys_distinct] in H. apply andb_prop in H. destruct H as [Hk Hr].
  cbn [map fst]. constructor; [| apply IH; exact Hr].
  intros Hin. apply in_map_iff in Hin. destruct Hin as [[k' y] [Hk' Hin]].
  cbn in Hk'. subst k'. apply negb_true_iff in Hk.
  rewrite (in_dict_mem k (k, y) r) in Hk; [discriminate | exact Hin |].
  apply key_eqb_refl.
Qed.

Lemma items_eq_inv d2 r :
  items_eq d2 r = true ->
  forall k x, In (k, x) r ->
    exists y, dict_get k d2 = Some y /\ py_eq x y = true.
Proof.
  induction r as [| [k0 x0] r IH]; intros H k x Hin; [destruct Hin |].
  cbn [items_eq] in H. fold (items_eq d2 r) in H.
  destruct (dict_get k0 d2) as [y |] eqn:Hy; [| discriminate H].
  apply andb_prop in H. destruct H as [H1 H2].
  destruct Hin as [Heq | Hin].
  - inversion Heq; subst. eauto.
  - apply (IH H2 _ _ Hin).
Qed.

Lemma json_shaped_list_inv vs :
  json_shaped (VList vs) = true -> forallb json_shaped vs = true.
Proof.
  intros H. unfold json_shaped in *.
  cbn [is_normalized str_keyed well_formed] in H.
  rewrite !forallb_and. exact H.
Qed.

Lemma key_eqb_str s k : key_eqb (KStr s) k = true -> k = KStr s.
Proof.
  destruct k; cbn; try discriminate.
  intros H. apply String.eqb_eq in H. congruence.
Qed.

(** A value equal to one that [json.load] returned has string keys
    only. *)
Lemma py_eq_str_keyed a : forall b,
  json_shaped a = true -> py_eq a b = true -> str_keyed b = true.
Proof.
  induction a as [| x | x | x | l IH | l IH | d1 IH | s at_ IH | s]
    using value_ind'; intros b Hs H; try discriminate Hs.
  - destruct b; try discriminate H; reflexivity.
  - destruct b; try discriminate H; reflexivity.
  - destruct b; try discriminate H; reflexivity.
  - destruct b; try discriminate H; reflexivity.
  - destruct b as [| | | | ys | | | |]; try discriminate H.
    rewrite py_eq_list in H. apply json_shaped_list_inv in Hs.
    cbn [str_keyed].
    revert ys H. induction IH as [| x l Hx _ IHl]; intros [| y ys] H;
      try discriminate H; [reflexivity |].
    cbn [seq_eq forallb] in *.
    apply andb_prop in H. destruct H as [H1 H2].
    apply andb_prop in Hs. destruct Hs as [Hs1 Hs2].
    rewrite (Hx _ Hs1 H1), (IHl Hs2 _ H2). reflexivity.
  - destruct b as [| | | | | | d2 | |]; try discriminate H.
    rewrite py_eq_dict in H. apply andb_prop in H. destruct H as [Hlen H].
    apply Nat.eqb_eq in Hlen.
    pose proof (items_eq_inv _ _ H) as Hitems. clear H.
    pose proof Hs as Hparts. apply json_shaped_parts in Hparts.
    destruct Hparts as [Hn [Hk Hw]].
    cbn [is_normalized str_keyed well_formed] in Hn, Hk, Hw.
    apply andb_prop in Hk. destruct Hk as [Hkeys Hvals].
    apply andb_prop in Hw. destruct Hw as [Hdist Hwf].
    rewrite forallb_forall in Hkeys.
    assert (Hincl : incl (map fst d1) (map fst d2)).
    { intros k Hk. apply in_map_iff in Hk. destruct Hk as [[k' x] [Hk Hin]].
      cbn in Hk. subst k'.
      destruct (Hitems _ _ Hin) as [y [Hy _]].
      destruct (dict_get_In _ _ _ Hy) as [k2 [Hin2 Hk2]].
      pose proof (Hkeys _ Hin) as Hstr. cbn in Hstr.
      destruct k as [| | | s]; try discriminate Hstr.
      apply key_eqb_str in Hk2. subst k2.
      apply in_map_iff. exists (KStr s, y). split; [reflexivity | exact Hin2]. }
    pose proof (keys_distinct_NoDup _ Hdist) as Hnd.
    assert (Hle : (List.length (map fst d2) <= List.length (map fst d1))%nat)
      by (rewrite !length_map; lia).
    pose proof (NoDup_length_incl Hnd Hle Hincl) as Hback.
    pose proof (NoDup_incl_NoDup Hnd Hle Hincl) as Hnd2.
    assert (Hkeys2 : forall kv, In kv d2 -> json.is_str (fst kv) = true).
    { intros kv Hin.
      assert (Hk : In (fst kv) (map fst d1))
        by (apply Hback; apply in_map; exact Hin).
      apply in_map_iff in Hk. destruct Hk as [kv1 [Hk Hin1]].
      rewrite <- Hk. apply (Hkeys _ Hin1). }
    cbn [str_keyed]. apply andb_true_intro. split.
    + apply forallb_forall. exact Hkeys2.
    + apply forallb_forall. intros [k2 y2] Hin2. cbn [snd].
      assert (Hk : In k2 (map fst d1))
        by (apply Hback; apply (in_map fst _ _ Hin2)).
      apply in_map_iff in Hk. destruct Hk as [[k1 x1] [Hk Hin1]].
      cbn in Hk. subst k1.
      destruct (Hitems _ _ Hin1) as [y [Hy Hxy]].
      assert (Hget : dict_get k2 d2 = Some y2).
      { apply unique_keys_get; [| exact Hin2].
        intros a b Ha Hb Hab.
        pose proof (Hkeys2 _ Ha) as Hsa.
        destruct a as [ka xa], b as [kb xb]. cbn [fst] in *.
        destruct ka as [| | | sa]; try discriminate Hsa.
        apply key_eqb_str in Hab. subst kb.
        clear - Hnd2 Ha Hb.
        induction d2 as [| [k x] r IHr]; [destruct Ha |].
        cbn [map fst] in Hnd2. inversion Hnd2 as [| ? ? Hnot Hrest]; subst.
        destruct Ha as [Ha | Ha], Hb as [Hb | Hb].
        - congruence.
        - inversion Ha; subst. exfalso. apply Hnot.
          apply (in_map fst _ _ Hb).
        - inversion Hb; subst. exfalso. apply Hnot.
          apply (in_map fst _ _ Ha).
        - apply IHr; assumption. }
      rewrite Hget in Hy. inversion Hy; subst y.
      rewrite Forall_forall in IH. rewrite forallb_forall in Hn, Hvals, Hwf.
      apply (IH _ Hin1 y2); [| exact Hxy].
      apply json_shaped_parts. cbn [snd].
      split; [apply (Hn _ Hin1) |
              split; [apply (Hvals _ Hin1) | apply (Hwf _ Hin1)]].
Qed.

(** X10.  A baseline read from the file has string keys only, so a result with
    a dictionary key that is not a string differs from every baseline the
    manager can have loaded; in Fail mode, outside CI, such a test with a
    stored baseline raises the mismatch [AssertionError] on every run. *)
Theorem loaded_baseline_never_equals_non_string_keys
  (test_name : string) (v existing : value) (st st1 : state) :
  SnapshotManager__init__ st = (st1, Ok tt) ->
  get_snapshot test_name st1 = (st1, Ok existing) ->
  str_keyed v = false ->
  json_shaped existing = true
  /\ py_ne existing v = true
  /\ (forall config where_ digest,
        fingerprint v = Ok digest ->
        has_snapshot test_name st1 = (st1, Ok true) ->
        ci_mode config = false ->
        conflict_resolution config = FAIL ->
        check_snapshot config test_name where_ v st1
        = (st1, Raise (Exn AssertionError (mismatch_message test_name)))).
Proof.
  intros Hinit Hget Hkeys.
  destruct (init_manager _ _ Hinit) as [Hp [Hs _]].
  assert (Hshape : json_shaped existing = true).
  { apply (get_snapshot_shaped test_name st1 existing Hp Hs).
    rewrite Hget. reflexivity. }
  assert (Hne : py_ne existing v = true).
  { unfold py_ne. apply negb_true_iff.
    destruct (py_eq existing v) eqn:E; [| reflexivity].
    rewrite (py_eq_str_keyed _ _ Hshape E) in Hkeys. discriminate Hkeys. }
  split; [exact Hshape |]. split; [exact Hne |].
  intros config where_ digest Hfp Hhas Hci Hmode.
  unfold check_snapshot. unfold call at 1. rewrite Hfp.
  rewrite (bind_ok _ _ st1 st1 digest) by reflexivity.
  rewrite (bind_ok _ _ _ _ _ Hhas).
  rewrite (bind_ok _ _ _ _ _ Hget).
  rewrite Hne.
  apply bind_raise. apply handle_conflict_fail; assumption.
Qed.

Lemma loaded_baseline_never_equals_non_string_keys_witness :
  let st :=
    scenario.rerun
      (fst (wrapper (scenario.config FAIL false) "t" scenario.here
              (Returns scenario.int_keyed) (scenario.start None NoFault))) in
  let st1 := fst (SnapshotManager__init__ st) in
  py_ne (VDict [(KStr "1", VStr "a")]) scenario.int_keyed = true
  /\ check_snapshot (scenario.config FAIL false) "t" scenario.here
       scenario.int_keyed st1
     = (st1, Raise (Exn AssertionError (mismatch_message "t"))).
Proof.
  intros st st1.
  assert (Hinit : SnapshotManager__init__ st = (st1, Ok tt))
    by (vm_compute; reflexivity).
  assert (Hget : get_snapshot "t" st1
                 = (st1, Ok (VDict [(KStr "1", VStr "a")])))
    by (vm_compute; reflexivity).
  destruct (loaded_baseline_never_equals_non_string_keys
              "t" scenario.int_keyed _ st st1 Hinit Hget eq_refl)
    as [_ [H2 H3]].
  split; [exact H2 |].
  apply (H3 (scenario.config FAIL false) scenario.here
            (match fingerprint scenario.int_keyed with
             | Ok digest => digest
             | Raise _ => EmptyString
             end));
    vm_compute; reflexivity.
Defined.

(** The constructor of the manager on a file that holds a JSON
    document. *)
Lemma init_loads st text loaded :
  file st = Some text -> json.load text = Ok loaded ->
  SnapshotManager__init__ st
  = (set_manager {| snapshots := loaded; pending_updates := [] |} st, Ok tt).
Proof.
  intros Hf Hl. unfold SnapshotManager__init__, bind, _load_snapshots.
  rewrite Hf, Hl. reflexivity.
Qed.

(** X11.  A snapshot file that holds valid JSON other than an object (a list,
    a string, a number, [null]) makes every test raise [TypeError] or
    [AttributeError], whatever the mode and whatever result with a
    fingerprint; the file is left as it was and nothing is printed. *)
Theorem non_object_store_fails_every_test
  (config : ExpectTestConfig) (test_name : string) (where_ : site)
  (o : outcome) (v loaded : value) (text digest : string) (st : state) :
  file st = Some text ->
  json.load text = Ok loaded ->
  (forall d, loaded <> VDict d) ->
  capture_outcome o = Ok v ->
  fingerprint v = Ok digest ->
  exists st1 kind msg,
    evaluate config test_name where_ o st = (st1, Raise (Exn kind msg))
    /\ (kind = TypeError \/ kind = AttributeError)
    /\ file st1 = file st
    /\ stdout st1 = stdout st.
Proof.
  intros Hf Hl Hnot Hcap Hfp. unfold evaluate.
  rewrite (bind_ok _ _ _ _ _ (init_loads _ _ _ Hf Hl)).
  unfold call at 1. rewrite Hcap.
  set (st0 := set_manager _ st).
  rewrite (bind_ok _ _ st0 st0 v) by reflexivity.
  unfold check_snapshot. unfold call at 1. rewrite Hfp.
  rewrite (bind_ok _ _ st0 st0 digest) by reflexivity.
  subst st0. destruct st as [f flt i out c m].
  assert (Hcases :
    (exists e, py_in test_name loaded = Raise (Exn TypeError e))
    \/ (py_in test_name loaded = Ok true
        /\ exists e, subscript loaded test_name = Raise (Exn TypeError e))
    \/ (py_in test_name loaded = Ok false)).
  { destruct loaded as [| b | z | s | l | l | d | s a | s];
      try (destruct (Hnot d eq_refl)); cbn [py_in subscript]; eauto.
    - destruct (contains test_name s); eauto.
    - destruct (existsb _ _); eauto.
    - destruct (existsb _ _); eauto. }
  cbv [bind has_snapshot get_snapshot self call ret raise manager snapshots
       pending_updates update_snapshot set_pending_updates set_manager
       set_snapshots file fault stdin stdout clock commit_updates
       _save_snapshots dict_mem dict_get dict_set dict_update fold_left
       fst snd].
  destruct Hcases as [[e He] | [[Hin [e He]] | Hin]].
  - rewrite He. eexists; exists TypeError; eexists.
    split; [reflexivity |]. split; [left; reflexivity | split; reflexivity].
  - rewrite Hin. cbv beta iota. cbn [manager snapshots pending_updates].
    rewrite Hin, He. eexists; exists TypeError; eexists.
    split; [reflexivity |]. split; [left; reflexivity | split; reflexivity].
  - rewrite Hin. cbv beta iota. cbn [manager snapshots pending_updates].
    destruct loaded as [| b | z | s | l | l | d | s a | s];
      try (destruct (Hnot d eq_refl));
      (eexists; exists AttributeError; eexists;
       split; [reflexivity |]; split; [right; reflexivity | split; reflexivity]).
Qed.

Lemma non_object_store_fails_every_test_witness :
  exists st1 kind msg,
    evaluate (scenario.config ACCEPT_NEW false) "t1" scenario.here
      (Returns scenario.value_42) (scenario.start (Some "[1, 2]") NoFault)
    = (st1, Raise (Exn kind msg))
    /\ (kind = TypeError \/ kind = AttributeError)
    /\ file st1 = file (scenario.start (Some "[1, 2]") NoFault)
    /\ stdout st1 = stdout (scenario.start (Some "[1, 2]") NoFault).
Proof.
  apply (non_object_store_fails_every_test
           (scenario.config ACCEPT_NEW false) "t1" scenario.here
           (Returns scenario.value_42) scenario.value_42
           (VList [VInt 1; VInt 2]) "[1, 2]"
           (match fingerprint scenario.value_42 with
            | Ok digest => digest
            | Raise _ => EmptyString
            end)
           (scenario.start (Some "[1, 2]") NoFault)).
  - reflexivity.
  - vm_compute. reflexivity.
  - intros d H. discriminate H.
  - reflexivity.
  - vm_compute. reflexivity.
Defined.

(** ** Results that cannot be fingerprinted *)

(** X12.  A returned dictionary whose keys cannot be sorted (strings mixed
    with numbers or [None]) has no fingerprint: [json.dumps(..,
    sort_keys=True)] raises [TypeError], and the wrapper raises it after
    the manager is built and before the store is consulted; nothing is
    staged and the file is untouched. *)
Theorem unsortable_keys_abort_before_the_store
  (config : ExpectTestConfig) (test_name : string) (where_ : site)
  (d : dict) (st st1 : state) :
  json.sortable (map fst d) = false ->
  SnapshotManager__init__ st = (st1, Ok tt) ->
  exists msg,
    fingerprint (_serialize_value (VDict d)) = Raise (Exn TypeError msg)
    /\ wrapper config test_name where_ (Returns (VDict d)) st
       = (st1, Raise (Exn TypeError msg))
    /\ file st1 = file st
    /\ pending_updates (manager st1) = [].
Proof.
  intros Hsort Hinit.
  exists "'<' not supported between instances".
  assert (Hfp : fingerprint (_serialize_value (VDict d))
                = Raise (Exn TypeError "'<' not supported between instances")).
  { unfold fingerprint, json.dumps. cbn [_serialize_value].
    destruct d as [| i d]; [discriminate Hsort |].
    cbn [map json._iterencode]. unfold json.sorted.
    match goal with
    | |- context [json.sortable ?l] =>
        replace l with (map fst (i :: d))
          by (cbn [map fst]; rewrite !map_map; reflexivity)
    end.
    rewrite Hsort. reflexivity. }
  split; [exact Hfp |].
  destruct (init_manager _ _ Hinit) as [Hp [_ [Hf _]]].
  split; [| split; assumption].
  unfold wrapper, evaluate.
  apply bind_raise. rewrite (bind_ok _ _ _ _ _ Hinit).
  cbn [capture_outcome]. unfold call at 1.
  rewrite (bind_ok _ _ st1 st1 (_serialize_value (VDict d))) by reflexivity.
  unfold check_snapshot. apply bind_raise. unfold call. rewrite Hfp.
  reflexivity.
Qed.

Lemma unsortable_keys_abort_before_the_store_witness :
  exists msg,
    fingerprint
      (_serialize_value (VDict [(KStr "a", VInt 1); (KInt 1, VInt 2)]))
    = Raise (Exn TypeError msg)
    /\ wrapper (scenario.config ACCEPT_NEW false) "t1" scenario.here
         (Returns (VDict [(KStr "a", VInt 1); (KInt 1, VInt 2)]))
         (scenario.rerun scenario.after_first_run)
       = (scenario.loaded, Raise (Exn TypeError msg))
    /\ file scenario.loaded = file (scenario.rerun scenario.after_first_run)
    /\ pending_updates (manager scenario.loaded) = [].
Proof.
  apply (unsortable_keys_abort_before_the_store
           (scenario.config ACCEPT_NEW false) "t1" scenario.here
           [(KStr "a", VInt 1); (KInt 1, VInt 2)]
           (scenario.rerun scenario.after_first_run) scenario.loaded).
  - reflexivity.
  - vm_compute. reflexivity.
Defined.

(** ** Storing a baseline *)

(** Whether the encoder raises, and what, does not depend on the
    indentation. *)
Lemma andthen_snd_eq (a a' b b' : json.emitted) :
  snd a = snd a' -> snd b = snd b' ->
  snd (json.andthen a b) = snd (json.andthen a' b').
Proof.
  intros Ha Hb. unfold json.andthen. rewrite <- Ha.
  destruct (snd a) eqn:E; [congruence | exact Hb].
Qed.

Lemma chunks_list_exn sep1 sep2 (l1 l2 : list json.emitted) :
  Forall2 (fun a b => snd a = snd b) l1 l2 ->
  forall first1 first2,
  snd (json.chunks_list sep1 first1 l1) = snd (json.chunks_list sep2 first2 l2).
Proof.
  induction 1 as [| a b l1 l2 Hab _ IH]; intros first1 first2; [reflexivity |].
  cbn [json.chunks_list].
  repeat apply andthen_snd_eq; try reflexivity; [exact Hab | apply IH].
Qed.

Lemma chunks_dict_exn sep1 sep2 (l1 l2 : list (key * json.emitted)) :
  Forall2 (fun a b => fst a = fst b /\ snd (snd a) = snd (snd b)) l1 l2 ->
  forall first1 first2,
  snd (json.chunks_dict sep1 first1 l1) = snd (json.chunks_dict sep2 first2 l2).
Proof.
  induction 1 as [| [k1 a] [k2 b] l1 l2 [Hk Hab] _ IH]; intros first1 first2;
    [reflexivity |].
  cbn [json.chunks_dict]. cbn [fst snd] in Hk, Hab.
  repeat apply andthen_snd_eq; try reflexivity; [exact Hab | apply IH].
Qed.

Lemma insert_Forall2 (x y : key * json.emitted) l1 l2 :
  fst x = fst y -> snd (snd x) = snd (snd y) ->
  Forall2 (fun a b => fst a = fst b /\ snd (snd a) = snd (snd b)) l1 l2 ->
  Forall2 (fun a b => fst a = fst b /\ snd (snd a) = snd (snd b))
    (json.insert x l1) (json.insert y l2).
Proof.
  unfold json.emitted in *.
  intros Hk Hv H. induction H as [| a b l1 l2 [Hab1 Hab2] Hl IH].
  - cbn. constructor; [split; assumption | constructor].
  - cbn [json.insert]. rewrite <- Hk, <- Hab1.
    destruct (json.key_leb (fst x) (fst a)).
    + constructor; [split; assumption |].
      constructor; [split; assumption | exact Hl].
    + constructor; [split; assumption | exact IH].
Qed.

Lemma sort_Forall2 (l1 l2 : list (key * json.emitted)) :
  Forall2 (fun a b => fst a = fst b /\ snd (snd a) = snd (snd b)) l1 l2 ->
  Forall2 (fun a b => fst a = fst b /\ snd (snd a) = snd (snd b))
    (json.sort l1) (json.sort l2).
Proof.
  induction 1 as [| a b l1 l2 [H1 H2] _ IH]; [constructor |].
  unfold json.sort. cbn [fold_right]. apply insert_Forall2; assumption.
Qed.

Lemma Forall2_map_same {A B : Type} (R : B -> B -> Prop) (f g : A -> B) l :
  Forall (fun x => R (f x) (g x)) l -> Forall2 R (map f l) (map g l).
Proof.
  induction 1 as [| x l Hx _ IH]; cbn; constructor; assumption.
Qed.

Lemma iterencode_exn_indep sort_keys default_str v :
  forall indent1 indent2 level1 level2,
  snd (json._iterencode indent1 sort_keys default_str v level1)
  = snd (json._iterencode indent2 sort_keys default_str v level2).
Proof.
  induction v as [| x | x | x | l IH | l IH | d IH | s at_ IH | s]
    using value_ind'; intros indent1 indent2 level1 level2;
    try reflexivity.
  - cbn [json._iterencode]. destruct l as [| v l]; [reflexivity |].
    apply andthen_snd_eq; [| reflexivity].
    apply andthen_snd_eq; [| reflexivity].
    apply andthen_snd_eq; [reflexivity |].
    apply chunks_list_exn. apply Forall2_map_same.
    eapply Forall_impl; [| exact IH]. intros x Hx. apply Hx.
  - cbn [json._iterencode]. destruct l as [| v l]; [reflexivity |].
    apply andthen_snd_eq; [| reflexivity].
    apply andthen_snd_eq; [| reflexivity].
    apply andthen_snd_eq; [reflexivity |].
    apply chunks_list_exn. apply Forall2_map_same.
    eapply Forall_impl; [| exact IH]. intros x Hx. apply Hx.
  - cbn [json._iterencode]. destruct d as [| i d]; [reflexivity |].
    set (f1 := fun kv : key * value =>
                 (fst kv, json._iterencode indent1 sort_keys default_str
                            (snd kv) (S level1))).
    set (f2 := fun kv : key * value =>
                 (fst kv, json._iterencode indent2 sort_keys default_str
                            (snd kv) (S level2))).
    assert (Hrel : Forall2
              (fun a b => fst a = fst b /\ snd (snd a) = snd (snd b))
              (map f1 (i :: d)) (map f2 (i :: d))).
    { apply Forall2_map_same. eapply Forall_impl; [| exact IH].
      intros x Hx. split; [reflexivity | apply Hx]. }
    change (f1 i :: map f1 d) with (map f1 (i :: d)).
    change (f2 i :: map f2 d) with (map f2 (i :: d)).
    apply andthen_snd_eq; [reflexivity |].
    assert (Htail : forall items1 items2,
              Forall2
                (fun a b => fst a = fst b /\ snd (snd a) = snd (snd b))
                items1 items2 ->
              snd (json.andthen
                     (json.andthen
                        (json.chunks_dict
                           (json.item_separator indent1
                            ++ json.newline_indent indent1 (S level1))
                           true items1)
                        (json.yield (json.newline_indent indent1 level1)))
                     (json.yield "}"))
              = snd (json.andthen
                       (json.andthen
                          (json.chunks_dict
                             (json.item_separator indent2
                              ++ json.newline_indent indent2 (S level2))
                             true items2)
                          (json.yield (json.newline_indent indent2 level2)))
                       (json.yield "}"))).
    { intros items1 items2 Hi.
      apply andthen_snd_eq; [| reflexivity].
      apply andthen_snd_eq; [| reflexivity].
      apply chunks_dict_exn. exact Hi. }
    destruct sort_keys.
    + unfold json.sorted.
      replace (map fst (map f2 (i :: d))) with (map fst (map f1 (i :: d)))
        by (rewrite !map_map; reflexivity).
      destruct (json.sortable (map fst (map f1 (i :: d)))); [| reflexivity].
      apply Htail. apply sort_Forall2. exact Hrel.
    + apply Htail. exact Hrel.
Qed.

(** A value that has a fingerprint is encoded without an exception at
    any indentation. *)
Lemma fingerprint_encodes v digest :
  fingerprint v = Ok digest ->
  forall indent level,
    snd (json._iterencode indent true true v level) = None.
Proof.
  unfold fingerprint, json.dumps. intros H indent level.
  rewrite (iterencode_exn_indep true true v indent None level 0%nat).
  destruct (json._iterencode None true true v 0) as [text [e |]];
    [discriminate H | reflexivity].
Qed.

(** A dictionary with string keys whose values are encoded without an
    exception is encoded without one. *)
Lemma iterencode_dict_ok indent level (d : dict) :
  Forall (fun kv =>
            json.is_str (fst kv) = true
            /\ forall i l, snd (json._iterencode i true true (snd kv) l) = None)
    d ->
  snd (json._iterencode indent true true (VDict d) level) = None.
Proof.
  intros H. cbn [json._iterencode]. destruct d as [| i d]; [reflexivity |].
  set (f := fun kv : key * value =>
              (fst kv, json._iterencode indent true true (snd kv) (S level))).
  change (f i :: map f d) with (map f (i :: d)).
  assert (Hitems : Forall (fun kv => snd (snd kv) = None) (map f (i :: d))).
  { rewrite Forall_forall in H |- *.
    intros e He. apply in_map_iff in He. destruct He as [x [He Hx]].
    subst e. cbn. apply (H x Hx). }
  unfold json.sorted, json.sortable.
  replace (forallb json.is_str (map fst (map f (i :: d)))) with true.
  - rewrite orb_true_r. cbn [orb].
    pose proof (chunks_dict_ok
      (json.item_separator (Some 2%nat) ++ json.newline_indent indent (S level))
      true _ (sort_Forall _ _ Hitems)) as Hc.
    pose proof (chunks_dict_ok
      (json.item_separator indent ++ json.newline_indent indent (S level))
      true _ (sort_Forall _ _ Hitems)) as Hc'.
    set (body := json.chunks_dict _ _ _) in *. clearbody body.
    repeat apply andthen_ok; solve [reflexivity | exact Hc'].
  - symmetry. rewrite map_map. apply forallb_forall.
    intros k Hk. apply in_map_iff in Hk. destruct Hk as [x [Hk Hx]].
    subst k. rewrite Forall_forall in H. apply (H x Hx).
Qed.

Lemma Forall_dict_set {A : Type} (P : key -> Prop) (Q : A -> Prop) k v
  (d : list (key * A)) :
  Forall (fun kv => P (fst kv) /\ Q (snd kv)) d -> P k -> Q v ->
  Forall (fun kv => P (fst kv) /\ Q (snd kv)) (dict_set k v d).
Proof.
  intros Hd Hk Hv. induction Hd as [| [k' x] r [Hx1 Hx2] Hr IH];
    cbn [dict_set].
  - constructor; [split; assumption | constructor].
  - destruct (key_eqb k k'); constructor; try assumption; split; assumption.
Qed.

Lemma Forall_dict_update {A : Type} (P : key -> Prop) (Q : A -> Prop)
  (other : list (key * A)) : forall d,
  Forall (fun kv => P (fst kv) /\ Q (snd kv)) d ->
  Forall (fun kv => P (fst kv) /\ Q (snd kv)) other ->
  Forall (fun kv => P (fst kv) /\ Q (snd kv)) (dict_update d other).
Proof.
  unfold dict_update. induction other as [| [k v] r IH]; intros d Hd Ho.
  - exact Hd.
  - inversion Ho as [| ? ? [Hk Hv] Hr]; subst.
    cbn [fold_left fst snd]. apply IH; [| exact Hr].
    apply Forall_dict_set; assumption.
Qed.

Lemma str_keyed_encodes (d : dict) :
  str_keyed (VDict d) = true ->
  Forall (fun kv =>
            json.is_str (fst kv) = true
            /\ forall i l, snd (json._iterencode i true true (snd kv) l) = None)
    d.
Proof.
  cbn [str_keyed]. intros H. apply andb_prop in H. destruct H as [Hk Hv].
  rewrite forallb_forall in Hk, Hv. apply Forall_forall.
  intros x Hx. split; [apply (Hk x Hx) |].
  intros i l. apply iterencode_str_keyed. apply (Hv x Hx).
Qed.

(** The store with the entry of one more test is encoded without an
    exception. *)
Lemma merged_store_encodes test_name v digest now (metadata d : dict) :
  str_keyed (VDict d) = true ->
  str_keyed (VDict metadata) = true ->
  fingerprint v = Ok digest ->
  snd (json._iterencode (Some 2%nat) true true
         (VDict
            (dict_set (KStr test_name)
               (VDict (dict_update
                         [(KStr "value", v); (KStr "timestamp", VStr now)]
                         metadata))
               d)) 0) = None.
Proof.
  intros Hd Hm Hfp. apply iterencode_dict_ok.
  apply (Forall_dict_set (fun k => json.is_str k = true)
           (fun x => forall i l,
              snd (json._iterencode i true true x l) = None));
    [apply str_keyed_encodes; exact Hd | reflexivity |].
  intros i l. apply iterencode_dict_ok.
  apply (Forall_dict_update (fun k => json.is_str k = true)
           (fun x => forall i l,
              snd (json._iterencode i true true x l) = None));
    [| apply str_keyed_encodes; exact Hm].
  constructor; [split; [reflexivity |] |].
  - apply (fingerprint_encodes _ _ Hfp).
  - constructor; [split; reflexivity | constructor].
Qed.

(** Committing one staged entry on a device that takes the write. *)
Lemma commit_single st (d : dict) k e text :
  snapshots (manager st) = VDict d ->
  pending_updates (manager st) = [(k, e)] ->
  fault st = NoFault ->
  json._iterencode (Some 2%nat) true true (VDict (dict_set k e d)) 0
  = (text, None) ->
  commit_updates st
  = ({| file := Some text; fault := NoFault; stdin := stdin st;
        stdout := stdout st; clock := clock st;
        manager := {| snapshots := VDict (dict_set k e d);
                      pending_updates := [] |} |},
     Ok tt).
Proof.
  intros Hs Hp Hf Henc. destruct st as [f flt i o c [snaps pend]].
  cbn [manager snapshots pending_updates fault] in Hs, Hp, Hf. subst.
  cbv [commit_updates _save_snapshots bind self set_snapshots raise ret
       mkdir_parent write_file set_pending_updates manager pending_updates
       snapshots fault set_manager set_file file stdin stdout clock
       dict_update fold_left fst snd].
  rewrite Henc. reflexivity.
Qed.

(** Staging a value on a manager that has staged nothing, then
    committing. *)
Lemma stage_and_commit test_name v digest (metadata d : dict) st :
  snapshots (manager st) = VDict d ->
  pending_updates (manager st) = [] ->
  fault st = NoFault ->
  str_keyed (VDict d) = true ->
  str_keyed (VDict metadata) = true ->
  fingerprint v = Ok digest ->
  let merged :=
    VDict (dict_set (KStr test_name)
             (VDict (dict_update
                       [(KStr "value", v); (KStr "timestamp", VStr (clock st))]
                       metadata))
             d) in
  bind (update_snapshot test_name v metadata) (fun _ => commit_updates) st
  = ({| file := Some (fst (json._iterencode (Some 2%nat) true true merged 0));
        fault := NoFault; stdin := stdin st; stdout := stdout st;
        clock := clock st;
        manager := {| snapshots := merged; pending_updates := [] |} |},
     Ok tt).
Proof.
  intros Hs Hp Hf Hd Hm Hfp merged.
  pose proof (merged_store_encodes test_name v digest (clock st) metadata d
                Hd Hm Hfp) as Henc.
  fold merged in Henc.
  destruct (json._iterencode (Some 2%nat) true true merged 0)
    as [text err] eqn:E.
  cbn [snd] in Henc. subst err. cbn [fst].
  unfold bind, update_snapshot, set_pending_updates.
  rewrite Hp. cbn [dict_set].
  rewrite (commit_single _ d (KStr test_name)
             (VDict (dict_update
                       [(KStr "value", v); (KStr "timestamp", VStr (clock st))]
                       metadata)) text);
    [reflexivity | exact Hs | reflexivity | exact Hf | exact E].
Qed.

Lemma has_snapshot_committed test_name st (d : dict) :
  snapshots (manager st) = VDict d ->
  pending_updates (manager st) = [] ->
  has_snapshot test_name st = (st, Ok (dict_mem (KStr test_name) d)).
Proof.
  intros Hs Hp. unfold has_snapshot, bind, self, call, ret.
  rewrite Hs, Hp. cbn [py_in].
  destruct (dict_mem (KStr test_name) d); reflexivity.
Qed.

Lemma get_snapshot_committed test_name st (d : dict) :
  snapshots (manager st) = VDict d ->
  pending_updates (manager st) = [] ->
  get_snapshot test_name st
  = (st, match dict_get (KStr test_name) d with
         | Some entry => subscript entry "value"
         | None => Ok VNone
         end).
Proof.
  intros Hs Hp. unfold get_snapshot, bind, self, call, ret.
  rewrite Hs, Hp. cbn [py_in dict_mem dict_get subscript]. unfold dict_mem.
  destruct (dict_get (KStr test_name) d) as [entry |]; [| reflexivity].
  destruct (subscript entry "value"); reflexivity.
Qed.

Lemma dict_set_absent {A : Type} k (v : A) d :
  dict_mem k d = false -> dict_set k v d = (d ++ [(k, v)])%list.
Proof.
  unfold dict_mem. induction d as [| [k' x] r IH]; intros H; [reflexivity |].
  cbn [dict_get] in H. cbn [dict_set app].
  destruct (key_eqb k k'); [discriminate H |].
  rewrite (IH H). reflexivity.
Qed.

Lemma dict_set_keys {A : Type} k (v : A) d :
  dict_mem k d = true -> map fst (dict_set k v d) = map fst d.
Proof.
  unfold dict_mem. induction d as [| [k' x] r IH]; intros H;
    [discriminate H |].
  cbn [dict_get] in H. cbn [dict_set].
  destruct (key_eqb k k'); [reflexivity |].
  cbn [map fst]. rewrite (IH H). reflexivity.
Qed.

(** What the manager holds after a value is staged and committed, and
    how it answers afterwards. *)
Lemma manager_stores test_name v digest (metadata d : dict) st :
  snapshots (manager st) = VDict d ->
  pending_updates (manager st) = [] ->
  fault st = NoFault ->
  str_keyed (VDict d) = true ->
  str_keyed (VDict metadata) = true ->
  keys_distinct metadata = true ->
  dict_get (KStr "value") metadata = None ->
  fingerprint v = Ok digest ->
  let merged :=
    dict_set (KStr test_name)
      (VDict (dict_update
                [(KStr "value", v); (KStr "timestamp", VStr (clock st))]
                metadata)) d in
  exists text st',
    bind (update_snapshot test_name v metadata) (fun _ => commit_updates) st
    = (st', Ok tt)
    /\ manager st' = {| snapshots := VDict merged; pending_updates := [] |}
    /\ json.dumps (Some 2%nat) true true (VDict merged) = Ok text
    /\ file st' = Some text
    /\ stdout st' = stdout st
    /\ stdin st' = stdin st
    /\ fault st' = fault st
    /\ clock st' = clock st
    /\ (forall st2, manager st2 = manager st' ->
          get_snapshot test_name st2 = (st2, Ok v)
          /\ has_snapshot test_name st2 = (st2, Ok true)
          /\ forall other, other <> test_name ->
               snd (get_snapshot other st2) = snd (get_snapshot other st)
               /\ snd (has_snapshot other st2) = snd (has_snapshot other st)).
Proof.
  intros Hs Hp Hf Hd Hmd Hdist Hnoval Hfp merged.
  pose proof (stage_and_commit test_name v digest metadata d st
                Hs Hp Hf Hd Hmd Hfp) as Hrun.
  cbv zeta in Hrun. fold merged in Hrun.
  pose proof (merged_store_encodes test_name v digest (clock st) metadata d
                Hd Hmd Hfp) as Henc.
  fold merged in Henc.
  destruct (json._iterencode (Some 2%nat) true true (VDict merged) 0)
    as [text err] eqn:E.
  cbn [fst snd] in Henc, Hrun. subst err.
  exists text. eexists. split; [exact Hrun |].
  cbn [manager file stdout stdin fault clock].
  split; [reflexivity |]. split.
  { unfold json.dumps. rewrite E. reflexivity. }
  split; [reflexivity |]. split; [reflexivity |]. split; [reflexivity |].
  split; [symmetry; exact Hf |]. split; [reflexivity |].
  intros st2 Hm2.
  assert (Hs2 : snapshots (manager st2) = VDict merged)
    by (rewrite Hm2; reflexivity).
  assert (Hp2 : pending_updates (manager st2) = [])
    by (rewrite Hm2; reflexivity).
  split; [| split].
  - rewrite (get_snapshot_committed _ _ _ Hs2 Hp2). subst merged.
    rewrite dict_get_set, key_eqb_refl. cbn [subscript].
    rewrite (dict_get_update _ _ _ Hdist), Hnoval. reflexivity.
  - rewrite (has_snapshot_committed _ _ _ Hs2 Hp2). subst merged.
    rewrite dict_mem_set, key_eqb_refl. reflexivity.
  - intros other Hother.
    assert (Hk : key_eqb (KStr other) (KStr test_name) = false)
      by (cbn; apply String.eqb_neq; exact Hother).
    rewrite (get_snapshot_committed _ _ _ Hs2 Hp2),
            (get_snapshot_committed _ _ _ Hs Hp),
            (has_snapshot_committed _ _ _ Hs2 Hp2),
            (has_snapshot_committed _ _ _ Hs Hp).
    subst merged. rewrite dict_mem_set, dict_get_set, Hk. split; reflexivity.
Qed.

Lemma bind_assoc {A B C : Type} (m : M A) (k : A -> M B) (h : B -> M C) st :
  bind m (fun a => bind (k a) h) st = bind (bind m k) h st.
Proof.
  unfold bind. destruct (m st) as [st1 [a | e]]; reflexivity.
Qed.

(** A test with no baseline: its value is stored, whatever the mode. *)
Lemma check_snapshot_stores_new
  (config : ExpectTestConfig) (test_name : string) (where_ : site)
  (v : value) (d : dict) (digest : string) (st : state) :
  snapshots (manager st) = VDict d ->
  pending_updates (manager st) = [] ->
  fault st = NoFault ->
  str_keyed (VDict d) = true ->
  dict_mem (KStr test_name) d = false ->
  fingerprint v = Ok digest ->
  exists text st',
    check_snapshot config test_name where_ v st = (st', Ok tt)
    /\ manager st'
       = {| snapshots :=
              VDict (d ++ [(KStr test_name,
                            snapshot_entry v (clock st) where_ digest)]);
            pending_updates := [] |}
    /\ json.dumps (Some 2%nat) true true (snapshots (manager st')) = Ok text
    /\ file st' = Some text
    /\ stdout st' = (stdout st ++ [Created test_name])%list
    /\ get_snapshot test_name st' = (st', Ok v)
    /\ (forall other, other <> test_name ->
          snd (get_snapshot other st') = snd (get_snapshot other st)).
Proof.
  intros Hs Hp Hf Hd Hmem Hfp.
  destruct (manager_stores test_name v digest
              [(KStr "file_path", VStr (file_path where_));
               (KStr "line_number", VInt (line_number where_));
               (KStr "function_name", VStr (function_name where_));
               (KStr "hash", VStr digest)]
              d st Hs Hp Hf Hd eq_refl eq_refl eq_refl Hfp)
    as [text [st1 [Hrun [Hm [Henc [Hfile [Hout [_ [_ [_ Hlook]]]]]]]]]].
  change (VDict (dict_update
                   [(KStr "value", v); (KStr "timestamp", VStr (clock st))]
                   [(KStr "file_path", VStr (file_path where_));
                    (KStr "line_number", VInt (line_number where_));
                    (KStr "function_name", VStr (function_name where_));
                    (KStr "hash", VStr digest)]))
    with (snapshot_entry v (clock st) where_ digest) in Hm, Henc.
  rewrite (dict_set_absent _ _ _ Hmem) in Hm, Henc.
  exists text, (set_stdout (stdout st1 ++ [Created test_name]) st1).
  split.
  { unfold check_snapshot. unfold call at 1. rewrite Hfp.
    rewrite (bind_ok _ _ st st digest) by reflexivity.
    rewrite (bind_ok _ _ _ _ _ (has_snapshot_committed _ _ _ Hs Hp)).
    rewrite Hmem. rewrite bind_assoc.
    rewrite (bind_ok _ _ _ _ _ Hrun). reflexivity. }
  cbn [manager file stdout set_stdout].
  split; [exact Hm |]. split; [rewrite Hm; exact Henc |].
  split; [exact Hfile |]. split; [rewrite Hout; reflexivity |].
  destruct (Hlook (set_stdout (stdout st1 ++ [Created test_name]) st1)
              eq_refl) as [Hget [_ Hother]].
  split; [exact Hget |].
  intros other Hne. apply (Hother other Hne).
Qed.

(** X13.  A test with no baseline in the loaded store gets one in every mode,
    CI included, when its normalized result has a fingerprint and the
    device takes the write: the wrapper adds its entry (normalized value,
    time, location, hash) at the end of the store, writes the store to the
    file, prints "Created" and returns the result of the function.  The
    new baseline is the normalized result, and the baselines of other
    tests are untouched. *)
Theorem missing_baseline_is_created
  (config : ExpectTestConfig) (test_name : string) (where_ : site)
  (result : value) (d : dict) (digest : string) (st st1 : state) :
  SnapshotManager__init__ st = (st1, Ok tt) ->
  snapshots (manager st1) = VDict d ->
  dict_mem (KStr test_name) d = false ->
  fault st = NoFault ->
  fingerprint (_serialize_value result) = Ok digest ->
  exists text st',
    wrapper config test_name where_ (Returns result) st = (st', Ok result)
    /\ manager st'
       = {| snapshots :=
              VDict (d ++ [(KStr test_name,
                            snapshot_entry (_serialize_value result)
                              (clock st) where_ digest)]);
            pending_updates := [] |}
    /\ json.dumps (Some 2%nat) true true (snapshots (manager st')) = Ok text
    /\ file st' = Some text
    /\ stdout st' = (stdout st1 ++ [Created test_name])%list
    /\ get_snapshot test_name st' = (st', Ok (_serialize_value result))
    /\ (forall other, other <> test_name ->
          snd (get_snapshot other st') = snd (get_snapshot other st1)).
Proof.
  intros Hinit Hs Hmem Hf Hfp.
  destruct (init_manager _ _ Hinit) as [Hp [Hshape _]].
  destruct (init_frame _ _ Hinit) as [Hf1 [Hc1 _]].
  rewrite Hf in Hf1. rewrite Hs in Hshape.
  destruct (check_snapshot_stores_new config test_name where_
              (_serialize_value result) d digest st1
              Hs Hp Hf1 (json_shaped_str_keyed _ Hshape) Hmem Hfp)
    as [text [st2 [Hrun [Hm [Hdump [Hfile [Hout [Hget Hother]]]]]]]].
  exists text, st2. rewrite Hc1 in Hm.
  split; [| repeat split; assumption].
  unfold wrapper, evaluate. rewrite <- bind_assoc.
  rewrite (bind_ok _ _ _ _ _ Hinit).
  cbn [capture_outcome]. unfold call at 1.
  rewrite <- bind_assoc.
  rewrite (bind_ok _ _ st1 st1 (_serialize_value result)) by reflexivity.
  rewrite (bind_ok _ _ _ _ _ Hrun). reflexivity.
Qed.

Lemma missing_baseline_is_created_witness :
  exists text st',
    wrapper (scenario.config FAIL true) "t2" scenario.here
      (Returns (VTuple scenario.pair))
      (scenario.rerun scenario.after_first_run)
    = (st', Ok (VTuple scenario.pair))
    /\ file st' = Some text
    /\ stdout st' = [Created "t2"]
    /\ get_snapshot "t2" st' = (st', Ok (VList scenario.pair))
    /\ snd (get_snapshot "t1" st') = snd (get_snapshot "t1" scenario.loaded).
Proof.
  destruct (missing_baseline_is_created (scenario.config FAIL true) "t2"
              scenario.here (VTuple scenario.pair)
              (match snapshots (manager scenario.loaded) with
               | VDict d => d
               | _ => []
               end)
              (match fingerprint (VList scenario.pair) with
               | Ok digest => digest
               | Raise _ => EmptyString
               end)
              (scenario.rerun scenario.after_first_run) scenario.loaded)
    as [text [st' [Hrun [_ [_ [Hfile [Hout [Hget Hother]]]]]]]];
    [vm_compute; reflexivity .. |].
  exists text, st'. repeat split; try assumption.
  apply Hother. discriminate.
Defined.

(** An accepted conflict: the new value takes the place of the old. *)
Lemma check_snapshot_stores_accepted
  (config : ExpectTestConfig) (test_name : string) (where_ : site)
  (v existing : value) (d : dict) (digest : string) (st st1 : state) :
  snapshots (manager st) = VDict d ->
  pending_updates (manager st) = [] ->
  fault st = NoFault ->
  str_keyed (VDict d) = true ->
  fingerprint v = Ok digest ->
  has_snapshot test_name st = (st, Ok true) ->
  get_snapshot test_name st = (st, Ok existing) ->
  py_ne existing v = true ->
  _handle_conflict config test_name existing v st = (st1, Ok true) ->
  let merged :=
    dict_set (KStr test_name) (snapshot_entry v (clock st) where_ digest) d in
  exists text st',
    check_snapshot config test_name where_ v st = (st', Ok tt)
    /\ manager st'
       = {| snapshots := VDict merged; pending_updates := [] |}
    /\ map fst merged = map fst d
    /\ json.dumps (Some 2%nat) true true (VDict merged) = Ok text
    /\ file st' = Some text
    /\ stdout st' = (stdout st1 ++ [Updated test_name])%list
    /\ get_snapshot test_name st' = (st', Ok v)
    /\ (forall other, other <> test_name ->
          snd (get_snapshot other st') = snd (get_snapshot other st)).
Proof.
  intros Hs Hp Hf Hd Hfp Hhas Hget Hne Haccept merged. subst merged.
  pose proof (handle_conflict_frame config test_name existing v st) as Hframe.
  cbv zeta in Hframe. rewrite Haccept in Hframe. cbn [fst] in Hframe.
  destruct Hframe as [_ [Hm1 [Hf1 [Hc1 _]]]].
  assert (Hs1 : snapshots (manager st1) = VDict d) by (rewrite Hm1; exact Hs).
  assert (Hp1 : pending_updates (manager st1) = [])
    by (rewrite Hm1; exact Hp).
  assert (Hfl1 : fault st1 = NoFault) by (rewrite Hf1; exact Hf).
  destruct (manager_stores test_name v digest
              [(KStr "file_path", VStr (file_path where_));
               (KStr "line_number", VInt (line_number where_));
               (KStr "function_name", VStr (function_name where_));
               (KStr "hash", VStr digest)]
              d st1 Hs1 Hp1 Hfl1 Hd eq_refl eq_refl eq_refl Hfp)
    as [text [st2 [Hrun [Hm [Henc [Hfile [Hout [_ [_ [_ Hlook]]]]]]]]]].
  change (VDict (dict_update
                   [(KStr "value", v); (KStr "timestamp", VStr (clock st1))]
                   [(KStr "file_path", VStr (file_path where_));
                    (KStr "line_number", VInt (line_number where_));
                    (KStr "function_name", VStr (function_name where_));
                    (KStr "hash", VStr digest)]))
    with (snapshot_entry v (clock st1) where_ digest) in Hm, Henc.
  rewrite Hc1 in Hm, Henc.
  assert (Hmem : dict_mem (KStr test_name) d = true).
  { rewrite (has_snapshot_committed _ _ _ Hs Hp) in Hhas.
    inversion Hhas as [Hb]. reflexivity. }
  exists text, (set_stdout (stdout st2 ++ [Updated test_name]) st2).
  split.
  { unfold check_snapshot. unfold call at 1. rewrite Hfp.
    rewrite (bind_ok _ _ st st digest) by reflexivity.
    rewrite (bind_ok _ _ _ _ _ Hhas).
    rewrite (bind_ok _ _ _ _ _ Hget).
    rewrite Hne. rewrite (bind_ok _ _ _ _ _ Haccept).
    rewrite bind_assoc. rewrite (bind_ok _ _ _ _ _ Hrun). reflexivity. }
  cbn [manager file stdout set_stdout].
  split; [exact Hm |]. split; [apply dict_set_keys; exact Hmem |].
  split; [exact Henc |].
  split; [exact Hfile |]. split; [rewrite Hout; reflexivity |].
  destruct (Hlook (set_stdout (stdout st2 ++ [Updated test_name]) st2)
              eq_refl) as [Hget2 [_ Hother]].
  split; [exact Hget2 |].
  intros other Hother_ne.
  rewrite (proj1 (Hother other Hother_ne)).
  apply get_snapshot_reads_manager. exact Hm1.
Qed.

(** X14.  When a conflict is accepted and the device takes the write, the
    wrapper puts the new entry in the place of the old one (the keys of
    the store and their order stay), writes the store to the file, prints
    "Updated" and returns the result of the function.  The baseline is
    now the new normalized result, and the baselines of other tests are
    untouched. *)
Theorem accepted_conflict_replaces_baseline
  (config : ExpectTestConfig) (test_name : string) (where_ : site)
  (result existing : value) (d : dict) (digest : string)
  (st st0 st1 : state) :
  SnapshotManager__init__ st = (st0, Ok tt) ->
  snapshots (manager st0) = VDict d ->
  fault st = NoFault ->
  fingerprint (_serialize_value result) = Ok digest ->
  has_snapshot test_name st0 = (st0, Ok true) ->
  get_snapshot test_name st0 = (st0, Ok existing) ->
  py_ne existing (_serialize_value result) = true ->
  _handle_conflict config test_name existing (_serialize_value result) st0
  = (st1, Ok true) ->
  let merged :=
    dict_set (KStr test_name)
      (snapshot_entry (_serialize_value result) (clock st) where_ digest) d in
  exists text st',
    wrapper config test_name where_ (Returns result) st = (st', Ok result)
    /\ manager st'
       = {| snapshots := VDict merged; pending_updates := [] |}
    /\ map fst merged = map fst d
    /\ json.dumps (Some 2%nat) true true (VDict merged) = Ok text
    /\ file st' = Some text
    /\ stdout st' = (stdout st1 ++ [Updated test_name])%list
    /\ get_snapshot test_name st' = (st', Ok (_serialize_value result))
    /\ (forall other, other <> test_name ->
          snd (get_snapshot other st') = snd (get_snapshot other st0)).
Proof.
  intros Hinit Hs Hf Hfp Hhas Hget Hne Haccept merged. subst merged.
  destruct (init_manager _ _ Hinit) as [Hp [Hshape _]].
  destruct (init_frame _ _ Hinit) as [Hf0 [Hc0 _]].
  rewrite Hf in Hf0. rewrite Hs in Hshape.
  destruct (check_snapshot_stores_accepted config test_name where_
              (_serialize_value result) existing d digest st0 st1
              Hs Hp Hf0 (json_shaped_str_keyed _ Hshape)
              Hfp Hhas Hget Hne Haccept)
    as [text [st2 [Hrun [Hm [Hk [Hdump [Hfile [Hout [Hget2 Hother]]]]]]]]].
  exists text, st2. rewrite Hc0 in Hm, Hk, Hdump.
  split; [| repeat split; assumption].
  unfold wrapper, evaluate. rewrite <- bind_assoc.
  rewrite (bind_ok _ _ _ _ _ Hinit).
  cbn [capture_outcome]. unfold call at 1.
  rewrite <- bind_assoc.
  rewrite (bind_ok _ _ st0 st0 (_serialize_value result)) by reflexivity.
  rewrite (bind_ok _ _ _ _ _ Hrun). reflexivity.
Qed.

Lemma accepted_conflict_replaces_baseline_witness :
  exists text st',
    wrapper (scenario.config ACCEPT_NEW false) "t1" scenario.here
      (Returns scenario.value_43) (scenario.rerun scenario.after_first_run)
    = (st', Ok scenario.value_43)
    /\ file st' = Some text
    /\ stdout st' = [Updated "t1"]
    /\ get_snapshot "t1" st' = (st', Ok scenario.value_43).
Proof.
  destruct (accepted_conflict_replaces_baseline
              (scenario.config ACCEPT_NEW false) "t1"
              scenario.here scenario.value_43 scenario.value_42
              (match snapshots (manager scenario.loaded) with
               | VDict d => d
               | _ => []
               end)
              (match fingerprint scenario.value_43 with
               | Ok digest => digest
               | Raise _ => EmptyString
               end)
              (scenario.rerun scenario.after_first_run)
              scenario.loaded scenario.loaded)
    as [text [st' [Hrun [_ [_ [_ [Hfile [Hout [Hget _]]]]]]]]];
    [vm_compute; reflexivity .. |].
  exists text, st'. repeat split; assumption.
Defined.

(** ** Normalization, again *)

(** A normalized value is its own normal form. *)
Lemma serialize_fixed v :
  is_normalized v = true -> _serialize_value v = v.
Proof.
  induction v as [| x | x | x | l IH | l IH | d IH | s at_ IH | s]
    using value_ind'; intros Hn; try reflexivity; try discriminate Hn.
  - cbn [_serialize_value is_normalized] in *. f_equal.
    induction IH as [| x l Hx _ IHl]; [reflexivity |].
    cbn [forallb map] in *. apply andb_prop in Hn. destruct Hn as [H1 H2].
    rewrite (Hx H1), (IHl H2). reflexivity.
  - cbn [_serialize_value is_normalized] in *. f_equal.
    induction IH as [| [k x] l Hx _ IHl]; [reflexivity |].
    cbn [forallb map fst snd] in *. apply andb_prop in Hn.
    destruct Hn as [H1 H2]. rewrite (Hx H1), (IHl H2). reflexivity.
Qed.

(** X15.  [_serialize_value] returns a value with no tuple and no object left
    in it, leaves such a value as it is, and so is idempotent; the keys of
    a dictionary are kept as they are, in their order. *)
Theorem serialize_value_is_idempotent (v : value) :
  is_normalized (_serialize_value v) = true
  /\ _serialize_value (_serialize_value v) = _serialize_value v
  /\ (is_normalized v = true -> _serialize_value v = v)
  /\ (forall d, v = VDict d ->
        exists d', _serialize_value v = VDict d' /\ map fst d' = map fst d).
Proof.
  split; [apply serialize_normalized |].
  split; [apply serialize_fixed; apply serialize_normalized |].
  split; [apply serialize_fixed |].
  intros d ->. cbn [_serialize_value]. eexists. split; [reflexivity |].
  rewrite map_map. reflexivity.
Qed.

(** ** The inline context, again *)

(** X16.  In the inline form, capturing [None] counts as capturing nothing:
    [__exit__] raises [ValueError] ("No value captured") and leaves the
    state as it was; [None] is the only value this happens to.  The
    decorator has no such case: for a function that returns [None] it has
    the value [None] and a fingerprint of it to store. *)
Theorem inline_capture_of_none_is_refused
  (config : ExpectTestConfig) (ctx : InlineExpectContext) (where_ : site)
  (v : value) (st : state) :
  (captured (capture ctx v) = VNone <-> v = VNone)
  /\ InlineExpectContext__exit__ config (capture ctx VNone) where_ None st
     = (st, Raise (Exn ValueError
                     ("No value captured for test '" ++ name ctx ++ "'")))
  /\ capture_outcome (Returns VNone) = Ok VNone
  /\ exists digest, fingerprint VNone = Ok digest.
Proof.
  split; [| split; [reflexivity | split; [reflexivity |]]].
  - destruct v; cbn; split; intros H; try discriminate H; reflexivity.
  - eexists. vm_compute. reflexivity.
Qed.



(** X18.  In the inline form, a rejected conflict raises
    [AssertionError("Snapshot mismatch for test '..'")] in every rejecting
    mode, whether [_handle_conflict] returns [False] or, in Fail mode,
    raises that error itself: the text has neither the baseline nor the
    new value, unlike the failure of the decorator.  An exception that
    left the block is replaced by it.  File and manager are as before. *)
Theorem inline_rejected_conflict_names_the_test_only
  (config : ExpectTestConfig) (ctx : InlineExpectContext) (where_ : site)
  (exc : option (string * string)) (existing : value) (digest : string)
  (st st1 : state) :
  let new_value :=
    match exc with
    | Some (cls, msg) =>
        VDict [(KStr "exception", VStr cls); (KStr "message", VStr msg)]
    | None => captured ctx
    end in
  (exc = None -> is_none (captured ctx) = false) ->
  fingerprint new_value = Ok digest ->
  has_snapshot (name ctx) st = (st, Ok true) ->
  get_snapshot (name ctx) st = (st, Ok existing) ->
  py_ne existing new_value = true ->
  _handle_conflict config (name ctx) existing new_value st = (st1, Ok false)
  \/ _handle_conflict config (name ctx) existing new_value st
     = (st1, Raise (Exn AssertionError (mismatch_message (name ctx)))) ->
  InlineExpectContext__exit__ config ctx where_ exc st
  = (st1, Raise (Exn AssertionError (mismatch_message (name ctx))))
  /\ file st1 = file st
  /\ manager st1 = manager st.
Proof.
  intros new_value Hcap Hfp Hhas Hget Hne Hreject.
  pose proof (handle_conflict_frame config (name ctx) existing new_value st)
    as Hframe.
  cbv zeta in Hframe.
  assert (Hstate : fst (_handle_conflict config (name ctx) existing
                          new_value st) = st1)
    by (destruct Hreject as [H | H]; rewrite H; reflexivity).
  rewrite Hstate in Hframe.
  destruct Hframe as [Hf [Hm _]].
  split; [| split; assumption].
  unfold InlineExpectContext__exit__.
  assert (Hfirst :
    match exc with
    | Some _ => ret tt
    | None =>
        if is_none (captured ctx)
        then raise (Exn ValueError
                      ("No value captured for test '" ++ name ctx ++ "'"))
        else ret tt
    end st = (st, Ok tt)).
  { destruct exc as [e |]; [reflexivity |]. rewrite (Hcap eq_refl).
    reflexivity. }
  rewrite (bind_ok _ _ _ _ _ Hfirst). cbv zeta. fold new_value.
  unfold call at 1. rewrite Hfp.
  rewrite (bind_ok _ _ st st digest) by reflexivity.
  rewrite (bind_ok _ _ _ _ _ Hhas).
  apply bind_raise.
  rewrite (bind_ok _ _ _ _ _ Hget). rewrite Hne.
  destruct Hreject as [Hfalse | Hraised].
  - rewrite (bind_ok _ _ _ _ _ Hfalse). reflexivity.
  - apply bind_raise. exact Hraised.
Qed.

Lemma inline_rejected_conflict_names_the_test_only_witness :
  InlineExpectContext__exit__ (scenario.config KEEP_OLD false)
    (capture {| name := "t1"; captured := VNone |} scenario.value_43)
    scenario.here None scenario.loaded
  = (scenario.loaded, Raise (Exn AssertionError (mismatch_message "t1"))).
Proof.
  apply (inline_rejected_conflict_names_the_test_only
           (scenario.config KEEP_OLD false)
           (capture {| name := "t1"; captured := VNone |} scenario.value_43)
           scenario.here None scenario.value_42
           (match fingerprint scenario.value_43 with
            | Ok digest => digest
            | Raise _ => EmptyString
            end)
           scenario.loaded scenario.loaded);
    [vm_compute; reflexivity .. | left; vm_compute; reflexivity].
Defined.

(** ** Reading back what was written *)

(** *** Strings *)

Lemma append_assoc (a b c : string) : (a ++ b) ++ c = a ++ (b ++ c).
Proof.
  induction a as [| x a IH]; [reflexivity |]. cbn. rewrite IH. reflexivity.
Qed.

Lemma append_nil_r (a : string) : a ++ EmptyString = a.
Proof.
  induction a as [| x a IH]; [reflexivity |]. cbn. rewrite IH. reflexivity.
Qed.

Lemma length_append (a b : string) :
  String.length (a ++ b) = (String.length a + String.length b)%nat.
Proof.
  induction a as [| x a IH]; [reflexivity |]. cbn. rewrite IH. reflexivity.
Qed.

(** The scanner undoes the escape of one character. *)
Lemma scanstring_escape_char (c : ascii) (tail : string) :
  json.scanstring (json.escape_char c ++ tail)
  = json.scan_map (String c) (json.scanstring tail).
Proof.
  destruct c as [[] [] [] [] [] [] [] []]; reflexivity.
Qed.

Lemma scanstring_escape (s rest : string) :
  json.scanstring (json.escape s ++ String dquote rest) = json.Scanned s rest.
Proof.
  induction s as [| c s IH]; [reflexivity |].
  cbn [json.escape]. rewrite append_assoc, scanstring_escape_char, IH.
  reflexivity.
Qed.

(** *** Integers *)

Lemma ends_value_number (rest : string) :
  ends_value rest = true ->
  json.starts_with_digit rest = false /\ json.float_follows rest = false.
Proof.
  destruct rest as [| c r]; [split; reflexivity |].
  cbn [ends_value]. intros H. apply orb_prop in H.
  destruct H as [H | H]; apply Ascii.eqb_eq in H; subst c; split; reflexivity.
Qed.

Lemma digits_string_of_uint (l : Decimal.uint) : forall acc tail,
  json.starts_with_digit tail = false ->
  json.digits (Z.pos acc) (NilEmpty.string_of_uint l ++ tail)
  = (Z.pos (Pos.of_uint_acc l acc), tail).
Proof.
  induction l as [| l IH | l IH | l IH | l IH | l IH | l IH | l IH | l IH
                  | l IH | l IH]; intros acc tail Ht;
    cbn [NilEmpty.string_of_uint append Pos.of_uint_acc].
  1: { destruct tail as [| c r]; [reflexivity |].
       cbn [json.starts_with_digit] in Ht. cbn [json.digits]. rewrite Ht.
       reflexivity. }
  all: cbn [json.digits];
    match goal with
    | |- context [json.is_digit ?c] =>
        change (json.is_digit c) with true;
        let n := eval vm_compute in (json.digit_val c) in
        change (json.digit_val c) with n
    end;
    cbv iota;
    rewrite <- (IH _ tail Ht); f_equal; lia.
Qed.

Lemma nzhead_not_D0 (l : Decimal.uint) : forall l',
  Decimal.nzhead l <> Decimal.D0 l'.
Proof.
  induction l; intros l'; cbn; try discriminate. apply IHl.
Qed.

(** The decimal text of a positive number: a digit other than [0], then
    digits that read back as the number. *)
Lemma pos_string (p : positive) (tail : string) :
  json.starts_with_digit tail = false ->
  exists c r,
    NilEmpty.string_of_uint (Pos.to_uint p) = String c r
    /\ json.is_digit c = true
    /\ Ascii.eqb c "0" = false
    /\ json.digits (json.digit_val c) (r ++ tail) = (Z.pos p, tail).
Proof.
  intros Ht.
  pose proof (DecimalPos.Unsigned.of_to p) as Hof.
  pose proof (DecimalPos.Unsigned.to_of (Pos.to_uint p)) as Hnorm.
  rewrite Hof in Hnorm. cbn [N.to_uint] in Hnorm.
  pose proof (DecimalPos.Unsigned.to_uint_nonnil p) as Hnil.
  pose proof (DecimalPos.Unsigned.to_uint_nonzero p) as Hzero.
  destruct (Pos.to_uint p) as [| l | l | l | l | l | l | l | l | l | l] eqn:E.
  1: { destruct (Hnil eq_refl). }
  1: { exfalso. unfold Decimal.unorm in Hnorm. cbn [Decimal.nzhead] in Hnorm.
       destruct (Decimal.nzhead l) eqn:En; try discriminate Hnorm.
       - inversion Hnorm. subst l. apply Hzero. reflexivity.
       - inversion Hnorm. subst l. apply (nzhead_not_D0 _ _ En). }
  all: cbn [Pos.of_uint] in Hof; inversion Hof as [Hp];
    cbn [NilEmpty.string_of_uint];
    eexists; eexists; split; [reflexivity |];
    split; [reflexivity |]; split; [reflexivity |];
    match goal with
    | |- context [json.digit_val ?c] =>
        let n := eval vm_compute in (json.digit_val c) in
        change (json.digit_val c) with n
    end;
    apply (digits_string_of_uint l _ tail Ht).
Qed.

Lemma scan_number_intstr (z : Z) (rest : string) :
  ends_value rest = true ->
  json.scan_number (intstr z ++ rest) = json.Scanned (VInt z) rest.
Proof.
  intros He. destruct (ends_value_number _ He) as [Hd Hf].
  unfold intstr. destruct z as [| p | p]; cbn [Z.to_int NilZero.string_of_int].
  - cbn. rewrite Hf. reflexivity.
  - destruct (pos_string p rest Hd) as [c [r [Hs [Hc [H0 Hdig]]]]].
    unfold NilZero.string_of_uint.
    replace (match Pos.to_uint p with
             | Decimal.Nil => "0"
             | _ => NilEmpty.string_of_uint (Pos.to_uint p)
             end) with (NilEmpty.string_of_uint (Pos.to_uint p))
      by (destruct (Pos.to_uint p); try reflexivity; discriminate Hs).
    rewrite Hs. cbn [append]. unfold json.scan_number.
    destruct (Ascii.eqb c "-") eqn:Hm.
    { apply Ascii.eqb_eq in Hm. subst c. discriminate Hc. }
    rewrite H0, Hc, Hdig, Hf. reflexivity.
  - destruct (pos_string p rest Hd) as [c [r [Hs [Hc [H0 Hdig]]]]].
    unfold NilZero.string_of_uint.
    replace (match Pos.to_uint p with
             | Decimal.Nil => "0"
             | _ => NilEmpty.string_of_uint (Pos.to_uint p)
             end) with (NilEmpty.string_of_uint (Pos.to_uint p))
      by (destruct (Pos.to_uint p); try reflexivity; discriminate Hs).
    rewrite Hs. cbn [append]. unfold json.scan_number.
    change (Ascii.eqb "-" "-") with true. cbv iota.
    rewrite H0, Hc, Hdig, Hf. reflexivity.
Qed.

(** The first character of the decimal text of an integer. *)
Lemma intstr_head (z : Z) :
  exists c r, intstr z = String c r
              /\ (json.is_digit c = true \/ c = "-"%char).
Proof.
  unfold intstr. destruct z as [| p | p]; cbn [Z.to_int NilZero.string_of_int].
  - exists "0"%char, EmptyString. split; [reflexivity | left; reflexivity].
  - destruct (pos_string p EmptyString eq_refl) as [c [r [Hs [Hc _]]]].
    exists c, r. split; [| left; exact Hc].
    unfold NilZero.string_of_uint.
    destruct (Pos.to_uint p); try exact Hs; discriminate Hs.
  - eexists; eexists. split; [reflexivity | right; reflexivity].
Qed.

Lemma scan_once_number fuel (c : ascii) (r : string) :
  json.is_digit c = true \/ c = "-"%char ->
  json.scan_once (S fuel) (String c r) = json.scan_number (String c r).
Proof.
  intros H.
  destruct c as [[] [] [] [] [] [] [] []];
    destruct H as [H | H]; try discriminate H; reflexivity.
Qed.

Lemma scan_once_intstr fuel (z : Z) (rest : string) :
  ends_value rest = true ->
  json.scan_once (S fuel) (intstr z ++ rest) = json.Scanned (VInt z) rest.
Proof.
  intros He. destruct (intstr_head z) as [c [r [Hs Hc]]].
  pose proof (scan_number_intstr z rest He) as Hn.
  rewrite Hs in *. cbn [append] in *.
  rewrite (scan_once_number fuel c _ Hc). exact Hn.
Qed.

(** *** The text of lists and dictionaries *)

Lemma andthen_fst (a b : json.emitted) :
  snd a = None -> fst (json.andthen a b) = fst a ++ fst b.
Proof. intros Ha. unfold json.andthen. rewrite Ha. reflexivity. Qed.

Lemma chunks_list_text sep first (e : json.emitted) r :
  snd e = None ->
  fst (json.chunks_list sep first (e :: r))
  = (if first then EmptyString else sep)
    ++ fst e ++ fst (json.chunks_list sep false r).
Proof.
  intros He. cbn [json.chunks_list].
  rewrite andthen_fst by (apply andthen_ok; [reflexivity | exact He]).
  rewrite andthen_fst by reflexivity.
  cbn [fst json.yield]. apply append_assoc.
Qed.

Lemma chunks_dict_text sep first k (e : json.emitted) r :
  snd e = None ->
  fst (json.chunks_dict sep first ((k, e) :: r))
  = (if first then EmptyString else sep)
    ++ json.encode_basestring_ascii (json.key_text k) ++ ": "
    ++ fst e ++ fst (json.chunks_dict sep false r).
Proof.
  intros He. cbn [json.chunks_dict].
  rewrite andthen_fst
    by (repeat apply andthen_ok; solve [reflexivity | exact He]).
  rewrite andthen_fst by (repeat apply andthen_ok; reflexivity).
  rewrite andthen_fst by (repeat apply andthen_ok; reflexivity).
  rewrite andthen_fst by reflexivity.
  cbn [fst json.yield]. unfold json.key_separator.
  rewrite !append_assoc. reflexivity.
Qed.

Lemma written_list x l level :
  Forall (fun v => str_keyed v = true) (x :: l) ->
  written (VList (x :: l)) level
  = String "[" (json.newline_indent (Some 2%nat) (S level)
      ++ fst (json.chunks_list
                (String "," (json.newline_indent (Some 2%nat) (S level)))
                true
                (map (fun v => json._iterencode (Some 2%nat) true true v
                                 (S level)) (x :: l)))
      ++ json.newline_indent (Some 2%nat) level ++ "]").
Proof.
  intros Hok. unfold written. cbn [json._iterencode].
  change (json.item_separator (Some 2%nat)
          ++ json.newline_indent (Some 2%nat) (S level))
    with (String "," (json.newline_indent (Some 2%nat) (S level))).
  set (body := json.chunks_list _ _ _).
  assert (Hbody : snd body = None).
  { apply chunks_list_ok. apply Forall_forall. intros e He.
    apply in_map_iff in He. destruct He as [v [<- Hv]].
    apply iterencode_str_keyed. rewrite Forall_forall in Hok.
    apply (Hok v Hv). }
  clearbody body.
  rewrite andthen_fst by (repeat apply andthen_ok; solve [reflexivity | exact Hbody]).
  rewrite andthen_fst by (repeat apply andthen_ok; solve [reflexivity | exact Hbody]).
  rewrite andthen_fst by reflexivity.
  cbn [fst json.yield]. rewrite !append_assoc. reflexivity.
Qed.

Lemma written_dict i d level :
  str_keyed (VDict (i :: d)) = true ->
  written (VDict (i :: d)) level
  = String "{" (json.newline_indent (Some 2%nat) (S level)
      ++ fst (json.chunks_dict
                (String "," (json.newline_indent (Some 2%nat) (S level)))
                true
                (json.sort
                   (map (fun kv => (fst kv,
                                    json._iterencode (Some 2%nat) true true
                                      (snd kv) (S level))) (i :: d))))
      ++ json.newline_indent (Some 2%nat) level ++ "}").
Proof.
  intros Hs. unfold written. cbn [json._iterencode].
  change (json.item_separator (Some 2%nat)
          ++ json.newline_indent (Some 2%nat) (S level))
    with (String "," (json.newline_indent (Some 2%nat) (S level))).
  set (f := fun kv : key * value =>
              (fst kv, json._iterencode (Some 2%nat) true true (snd kv)
                         (S level))).
  change (f i :: map f d) with (map f (i :: d)).
  cbn [str_keyed] in Hs. apply andb_prop in Hs. destruct Hs as [Hkeys Hvals].
  assert (Hitems : Forall (fun kv => snd (snd kv) = None) (map f (i :: d))).
  { rewrite forallb_forall in Hvals. apply Forall_forall.
    intros e He. apply in_map_iff in He. destruct He as [x [<- Hx]].
    cbn. apply iterencode_str_keyed. apply (Hvals x Hx). }
  unfold json.sorted, json.sortable.
  replace (forallb json.is_str (map fst (map f (i :: d)))) with true.
  2: { symmetry. rewrite map_map. rewrite forallb_forall in Hkeys |- *.
       intros k Hk. apply in_map_iff in Hk. destruct Hk as [x [<- Hx]].
       apply (Hkeys x Hx). }
  rewrite orb_true_r. cbn [orb].
  pose proof (chunks_dict_ok
    (String "," (json.newline_indent (Some 2%nat) (S level)))
    true _ (sort_Forall _ _ Hitems)) as Hc.
  set (body := json.chunks_dict _ _ _) in *. clearbody body.
  rewrite andthen_fst by reflexivity.
  rewrite andthen_fst by (repeat apply andthen_ok; solve [reflexivity | exact Hc]).
  rewrite andthen_fst by (apply andthen_ok; [exact Hc | reflexivity]).
  rewrite andthen_fst by exact Hc.
  cbn [fst json.yield]. rewrite !append_assoc. reflexivity.
Qed.

(** *** White space *)

Lemma skip_ws_spaces n s :
  json.skip_ws (repeat_str " " n ++ s) = json.skip_ws s.
Proof.
  induction n as [| n IH]; [reflexivity |]. cbn [repeat_str append].
  exact IH.
Qed.

Lemma skip_ws_newline_indent level s :
  json.skip_ws (json.newline_indent (Some 2%nat) level ++ s) = json.skip_ws s.
Proof.
  unfold json.newline_indent. cbn [append json.skip_ws].
  change (json.is_ws newline) with true. cbv iota. apply skip_ws_spaces.
Qed.

Lemma newline_indent_head level s :
  ends_value (json.newline_indent (Some 2%nat) level ++ s) = true.
Proof. reflexivity. Qed.

Lemma length_newline_indent level :
  (1 <= String.length (json.newline_indent (Some 2%nat) level))%nat.
Proof. unfold json.newline_indent. cbn [String.length]. lia. Qed.

Lemma andthen_head (a b : json.emitted) c r :
  fst a = String c r -> exists r', fst (json.andthen a b) = String c r'.
Proof.
  intros H. unfold json.andthen. destruct (snd a); cbn [fst]; rewrite H;
    cbn [append]; eauto.
Qed.

(** The first character of the text of a value is not white space and
    not a closing bracket. *)
Lemma written_head v level :
  exists c r,
    written v level = String c r
    /\ json.is_ws c = false /\ Ascii.eqb c "]" = false.
Proof.
  unfold written.
  destruct v as [| [] | z | s | [| x l] | [| x l] | [| i d] | s a | s];
    try (eexists; eexists; split; [reflexivity | split; reflexivity]).
  - destruct (intstr_head z) as [c [r [Hs Hc]]].
    exists c, r. cbn [json._iterencode json.yield fst].
    split; [exact Hs |].
    destruct c as [[] [] [] [] [] [] [] []];
      destruct Hc as [Hc | Hc]; try discriminate Hc; split; reflexivity.
  - cbn [json._iterencode].
    match goal with
    | |- context [json.andthen (json.andthen (json.andthen ?a ?b) ?c) ?d] =>
        destruct (andthen_head a b "[" _ eq_refl) as [r1 H1];
        destruct (andthen_head _ c "[" _ H1) as [r2 H2];
        destruct (andthen_head _ d "[" _ H2) as [r3 H3]
    end.
    eexists; eexists. split; [exact H3 | split; reflexivity].
  - cbn [json._iterencode].
    match goal with
    | |- context [json.andthen (json.andthen (json.andthen ?a ?b) ?c) ?d] =>
        destruct (andthen_head a b "[" _ eq_refl) as [r1 H1];
        destruct (andthen_head _ c "[" _ H1) as [r2 H2];
        destruct (andthen_head _ d "[" _ H2) as [r3 H3]
    end.
    eexists; eexists. split; [exact H3 | split; reflexivity].
Qed.

Lemma skip_ws_head c r :
  json.is_ws c = false -> json.skip_ws (String c r) = String c r.
Proof. intros H. cbn [json.skip_ws]. rewrite H. reflexivity. Qed.

(** *** Lists *)

Lemma chunks_list_false sep (e : json.emitted) r :
  snd e = None ->
  fst (json.chunks_list sep false (e :: r))
  = sep ++ fst (json.chunks_list sep true (e :: r)).
Proof.
  intros He. rewrite !chunks_list_text by exact He. reflexivity.
Qed.

Lemma array_items_written level outer (r : list value) : forall x fuel rest,
  Forall (fun v => str_keyed v = true) (x :: r) ->
  Forall (fun v => forall fuel rest,
            ends_value rest = true ->
            (String.length (written v level) <= fuel)%nat ->
            json.scan_once fuel (written v level ++ rest)
            = json.Scanned (as_loaded v) rest) (x :: r) ->
  (list_sum (map (fun v => S (String.length (written v level))) (x :: r))
   <= fuel)%nat ->
  json.array_items fuel
    (fst (json.chunks_list
            (String "," (json.newline_indent (Some 2%nat) level)) true
            (map (fun v => json._iterencode (Some 2%nat) true true v level)
               (x :: r)))
     ++ json.newline_indent (Some 2%nat) outer ++ String "]" rest)
  = json.Scanned (map as_loaded (x :: r)) rest.
Proof.
  induction r as [| y r IH]; intros x fuel rest Hok HP Hfuel.
  - inversion Hok as [| ? ? Hx _]; subst.
    inversion HP as [| ? ? HPx _]; subst.
    cbn [map list_sum fold_right] in Hfuel.
    destruct fuel as [| f]; [lia |].
    cbn [map]. rewrite chunks_list_text
      by (apply iterencode_str_keyed; exact Hx).
    cbn [json.chunks_list json.yield fst append].
    fold (written x level). rewrite append_nil_r.
    cbn [json.array_items].
    rewrite HPx by (try apply newline_indent_head; lia).
    rewrite skip_ws_newline_indent. reflexivity.
  - inversion Hok as [| ? ? Hx Hok']; subst.
    inversion HP as [| ? ? HPx HP']; subst.
    cbn [map list_sum fold_right] in Hfuel.
    destruct fuel as [| f]; [lia |].
    assert (Hy : str_keyed y = true) by (inversion Hok'; assumption).
    cbn [map]. rewrite chunks_list_text
      by (apply iterencode_str_keyed; exact Hx).
    rewrite chunks_list_false by (apply iterencode_str_keyed; exact Hy).
    cbn [append]. fold (written x level).
    rewrite !append_assoc. cbn [append].
    cbn [json.array_items].
    rewrite HPx by (try reflexivity; lia).
    cbn [json.skip_ws]. change (json.is_ws ",") with false. cbv iota.
    change (Ascii.eqb "," "]") with false.
    change (Ascii.eqb "," ",") with true. cbv iota.
    rewrite append_assoc, skip_ws_newline_indent.
    specialize (IH y f rest Hok' HP').
    cbn [map] in IH.
    set (T2 := fst (json.chunks_list _ true _) ++ _) in *.
    assert (Hhead : json.skip_ws T2 = T2).
    { subst T2. rewrite chunks_list_text
        by (apply iterencode_str_keyed; exact Hy).
      cbn [append]. fold (written y level).
      destruct (written_head y level) as [c [r' [Hw [Hc _]]]].
      rewrite Hw. cbn [append]. apply skip_ws_head. exact Hc. }
    rewrite Hhead, IH by (cbn [list_sum map fold_right] in *; lia).
    reflexivity.
Qed.

(** *** Dictionaries *)

Lemma skip_ws_space s : json.skip_ws (String " " s) = json.skip_ws s.
Proof. reflexivity. Qed.

Lemma chunks_dict_false sep k (e : json.emitted) r :
  snd e = None ->
  fst (json.chunks_dict sep false ((k, e) :: r))
  = sep ++ fst (json.chunks_dict sep true ((k, e) :: r)).
Proof.
  intros He. rewrite !chunks_dict_text by exact He. reflexivity.
Qed.

Lemma object_items_written level outer (r : list (key * value)) :
  forall kx fuel rest,
  Forall (fun kv => json.is_str (fst kv) = true
                    /\ str_keyed (snd kv) = true) (kx :: r) ->
  Forall (fun kv => forall fuel rest,
            ends_value rest = true ->
            (String.length (written (snd kv) level) <= fuel)%nat ->
            json.scan_once fuel (written (snd kv) level ++ rest)
            = json.Scanned (as_loaded (snd kv)) rest) (kx :: r) ->
  (list_sum (map (fun kv => S (String.length (written (snd kv) level)))
               (kx :: r)) <= fuel)%nat ->
  exists tail,
    fst (json.chunks_dict
           (String "," (json.newline_indent (Some 2%nat) level)) true
           (map (fun kv => (fst kv,
                            json._iterencode (Some 2%nat) true true (snd kv)
                              level)) (kx :: r)))
    ++ json.newline_indent (Some 2%nat) outer ++ String "}" rest
    = String dquote tail
    /\ json.object_items fuel tail
       = json.Scanned
           (map (fun kv => (fst kv, as_loaded (snd kv))) (kx :: r)) rest.
Proof.
  induction r as [| ky r IH]; intros [k x] fuel rest Hok HP Hfuel.
  - inversion Hok as [| ? ? [Hk Hx] _]; subst.
    inversion HP as [| ? ? HPx _]; subst.
    cbn [fst snd] in Hk, Hx, HPx.
    destruct k as [| | | s]; try discriminate Hk.
    cbn [map list_sum fold_right fst snd] in Hfuel.
    destruct fuel as [| f]; [lia |].
    cbn [map fst snd]. rewrite chunks_dict_text
      by (apply iterencode_str_keyed; exact Hx).
    cbn [json.chunks_dict json.yield fst append json.key_text].
    fold (written x level). rewrite append_nil_r.
    unfold json.encode_basestring_ascii. cbn [append].
    eexists. split; [reflexivity |].
    rewrite !append_assoc. unfold chr. cbn [append json.object_items].
    rewrite scanstring_escape.
    cbn [json.skip_ws]. change (json.is_ws ":") with false. cbv iota.
    change (Ascii.eqb ":" ":") with true. cbv iota.
    rewrite skip_ws_space.
    destruct (written_head x level) as [c [r' [Hw [Hc _]]]].
    assert (Hskip : forall T, json.skip_ws (written x level ++ T)
                              = written x level ++ T).
    { intros T. rewrite Hw. cbn [append]. apply skip_ws_head. exact Hc. }
    rewrite Hskip.
    rewrite HPx by (try apply newline_indent_head; lia).
    rewrite skip_ws_newline_indent. reflexivity.
  - inversion Hok as [| ? ? [Hk Hx] Hok']; subst.
    inversion HP as [| ? ? HPx HP']; subst.
    cbn [fst snd] in Hk, Hx, HPx.
    destruct k as [| | | s]; try discriminate Hk.
    cbn [map list_sum fold_right fst snd] in Hfuel.
    destruct fuel as [| f]; [lia |].
    destruct ky as [k2 y].
    assert (Hy : str_keyed y = true) by (inversion Hok' as [| ? ? [_ H] _]; exact H).
    destruct (IH (k2, y) f rest Hok' HP') as [tail2 [Htext2 Hscan2]].
    { cbn [list_sum map fold_right fst snd] in *. lia. }
    cbn [map fst snd] in Htext2 |- *.
    rewrite chunks_dict_text by (apply iterencode_str_keyed; exact Hx).
    rewrite chunks_dict_false by (apply iterencode_str_keyed; exact Hy).
    cbn [append json.key_text]. fold (written x level).
    unfold json.encode_basestring_ascii at 1. cbn [append].
    eexists. split; [reflexivity |].
    unfold chr.
    repeat progress (rewrite ?append_assoc; cbn [append]).
    cbn [json.object_items].
    rewrite scanstring_escape.
    cbn [json.skip_ws]. change (json.is_ws ":") with false. cbv iota.
    change (Ascii.eqb ":" ":") with true. cbv iota.
    rewrite skip_ws_space.
    destruct (written_head x level) as [c [r' [Hw [Hc _]]]].
    assert (Hskip : forall T, json.skip_ws (written x level ++ T)
                              = written x level ++ T).
    { intros T. rewrite Hw. cbn [append]. apply skip_ws_head. exact Hc. }
    rewrite Hskip.
    rewrite HPx by (try reflexivity; lia).
    cbn [json.skip_ws]. change (json.is_ws ",") with false. cbv iota.
    change (Ascii.eqb "," "}") with false.
    change (Ascii.eqb "," ",") with true. cbv iota.
    rewrite skip_ws_newline_indent, Htext2.
    rewrite skip_ws_head by reflexivity.
    change (Ascii.eqb dquote dquote) with true. cbv iota.
    rewrite Hscan2. reflexivity.
Qed.

(** *** Sorting and the values of the items *)

Lemma insert_map_snd {A B : Type} (g : A -> B) (x : key * A) l :
  json.insert (fst x, g (snd x)) (map (fun kv => (fst kv, g (snd kv))) l)
  = map (fun kv => (fst kv, g (snd kv))) (json.insert x l).
Proof.
  induction l as [| y l IH]; [reflexivity |].
  cbn [map json.insert fst]. destruct (json.key_leb (fst x) (fst y)).
  - reflexivity.
  - cbn [map]. rewrite IH. reflexivity.
Qed.

Lemma sort_map_snd {A B : Type} (g : A -> B) (l : list (key * A)) :
  json.sort (map (fun kv => (fst kv, g (snd kv))) l)
  = map (fun kv => (fst kv, g (snd kv))) (json.sort l).
Proof.
  unfold json.sort. induction l as [| x l IH]; [reflexivity |].
  cbn [map fold_right]. rewrite IH. apply insert_map_snd.
Qed.

Lemma insert_perm {A : Type} (x : key * A) l :
  Permutation (json.insert x l) (x :: l).
Proof.
  induction l as [| y l IH]; [reflexivity |].
  cbn [json.insert]. destruct (json.key_leb (fst x) (fst y)); [reflexivity |].
  rewrite IH. apply perm_swap.
Qed.

Lemma sort_perm {A : Type} (l : list (key * A)) :
  Permutation (json.sort l) l.
Proof.
  unfold json.sort. induction l as [| x l IH]; [reflexivity |].
  cbn [fold_right]. rewrite insert_perm. constructor. exact IH.
Qed.

(** *** Dictionaries with pairwise different keys *)

Lemma dict_mem_app {A : Type} k (a b : list (key * A)) :
  dict_mem k (a ++ b)%list = dict_mem k a || dict_mem k b.
Proof.
  unfold dict_mem. induction a as [| [k' x] a IH]; [reflexivity |].
  cbn [app dict_get]. destruct (key_eqb k k'); [reflexivity | exact IH].
Qed.

Lemma dict_update_distinct {A : Type} (l : list (key * A)) : forall acc,
  keys_distinct l = true ->
  (forall kv, In kv l -> dict_mem (fst kv) acc = false) ->
  dict_update acc l = (acc ++ l)%list.
Proof.
  unfold dict_update.
  induction l as [| [k v] l IH]; intros acc Hd Hacc.
  - cbn. rewrite app_nil_r. reflexivity.
  - cbn [keys_distinct] in Hd. apply andb_prop in Hd. destruct Hd as [Hk Hl].
    apply negb_true_iff in Hk.
    cbn [fold_left fst snd].
    rewrite (dict_set_absent k v acc) by (apply (Hacc (k, v)); left; reflexivity).
    rewrite IH.
    + rewrite <- app_assoc. reflexivity.
    + exact Hl.
    + intros kv Hin. rewrite dict_mem_app.
      rewrite (Hacc kv) by (right; exact Hin). cbn [orb].
      unfold dict_mem. cbn [dict_get].
      destruct (key_eqb (fst kv) k) eqn:E; [| reflexivity].
      rewrite key_eqb_sym in E.
      rewrite (in_dict_mem k kv l Hin E) in Hk. discriminate Hk.
Qed.

Lemma dict_update_nil {A : Type} (l : list (key * A)) :
  keys_distinct l = true -> dict_update [] l = l.
Proof.
  intros H. apply (dict_update_distinct l [] H). reflexivity.
Qed.

(** String keys that are pairwise different objects are pairwise
    different under [==]. *)
Lemma NoDup_keys_distinct {A : Type} (d : list (key * A)) :
  forallb (fun kv => json.is_str (fst kv)) d = true ->
  NoDup (map fst d) -> keys_distinct d = true.
Proof.
  induction d as [| [k x] r IH]; intros Hs Hn; [reflexivity |].
  cbn [forallb fst] in Hs. apply andb_prop in Hs. destruct Hs as [Hk Hr].
  cbn [map fst] in Hn. inversion Hn as [| ? ? Hnot Hrest]; subst.
  cbn [keys_distinct]. rewrite (IH Hr Hrest), andb_true_r.
  apply negb_true_iff. unfold dict_mem.
  destruct (dict_get k r) as [y |] eqn:E; [| reflexivity].
  destruct (dict_get_In _ _ _ E) as [k' [Hin Hkk]].
  destruct k as [| | | s]; try discriminate Hk.
  apply key_eqb_str in Hkk. subst k'.
  exfalso. apply Hnot. apply (in_map fst _ _ Hin).
Qed.

Lemma keys_distinct_perm {A : Type} (d d' : list (key * A)) :
  forallb (fun kv => json.is_str (fst kv)) d = true ->
  Permutation d d' -> keys_distinct d = true -> keys_distinct d' = true.
Proof.
  intros Hs Hp Hd. apply NoDup_keys_distinct.
  - rewrite <- (forallb_permutation _ _ _ Hp). exact Hs.
  - apply (Permutation_NoDup (Permutation_map fst Hp)).
    apply keys_distinct_NoDup. exact Hd.
Qed.

Lemma keys_distinct_map {A B : Type} (g : A -> B) (d : list (key * A)) :
  keys_distinct (map (fun kv => (fst kv, g (snd kv))) d) = keys_distinct d.
Proof.
  induction d as [| [k x] r IH]; [reflexivity |].
  cbn [map keys_distinct fst snd]. rewrite IH. f_equal. f_equal.
  unfold dict_mem. rewrite dict_get_map.
  destruct (dict_get k r); reflexivity.
Qed.

(** *** The length of the text bounds the calls of the scanner *)

Lemma length_chunks_list sep level (l : list value) :
  Forall (fun v => str_keyed v = true) l ->
  (list_sum (map (fun v => S (String.length (written v level))) l)
   <= String.length
        (fst (json.chunks_list (String "," sep) false
                (map (fun v => json._iterencode (Some 2%nat) true true v level)
                   l))))%nat.
Proof.
  induction 1 as [| x l Hx _ IH]; [cbn; lia |].
  cbn [map]. rewrite chunks_list_text by (apply iterencode_str_keyed; exact Hx).
  cbv iota. fold (written x level). rewrite !length_append.
  unfold list_sum in *. cbn [fold_right String.length map] in *. lia.
Qed.

Lemma length_chunks_list_true sep level x (l : list value) :
  Forall (fun v => str_keyed v = true) (x :: l) ->
  (list_sum (map (fun v => S (String.length (written v level))) (x :: l))
   <= S (String.length
           (fst (json.chunks_list (String "," sep) true
                   (map (fun v => json._iterencode (Some 2%nat) true true v
                                    level) (x :: l))))))%nat.
Proof.
  intros H. inversion H as [| ? ? Hx Hl]; subst.
  cbn [map]. rewrite chunks_list_text by (apply iterencode_str_keyed; exact Hx).
  cbv iota. fold (written x level). rewrite !length_append.
  pose proof (length_chunks_list sep level l Hl) as Hlen.
  unfold list_sum in *. cbn [fold_right String.length map] in *. lia.
Qed.

Lemma length_chunks_dict sep level (l : list (key * value)) : forall first,
  Forall (fun kv => str_keyed (snd kv) = true) l ->
  (list_sum (map (fun kv => S (String.length (written (snd kv) level))) l)
   <= String.length
        (fst (json.chunks_dict sep first
                (map (fun kv => (fst kv,
                                 json._iterencode (Some 2%nat) true true
                                   (snd kv) level)) l))))%nat.
Proof.
  induction l as [| [k x] l IH]; intros first H; [cbn; lia |].
  inversion H as [| ? ? Hx Hl]; subst. cbn [snd] in Hx.
  cbn [map fst snd].
  rewrite chunks_dict_text by (apply iterencode_str_keyed; exact Hx).
  fold (written x level). rewrite !length_append.
  specialize (IH false Hl).
  unfold list_sum in *. cbn [fold_right String.length map snd] in *.
  destruct first; lia.
Qed.

(** *** The scanner reads back what the encoder wrote *)

Lemma json_shaped_dict_inv (d : dict) :
  json_shaped (VDict d) = true ->
  forallb (fun kv => json.is_str (fst kv)) d = true
  /\ keys_distinct d = true
  /\ Forall (fun kv => json_shaped (snd kv) = true) d.
Proof.
  intros H. apply json_shaped_parts in H. destruct H as [Hn [Hs Hw]].
  cbn [is_normalized str_keyed well_formed] in Hn, Hs, Hw.
  apply andb_prop in Hs. destruct Hs as [Hk Hs].
  apply andb_prop in Hw. destruct Hw as [Hd Hw].
  split; [exact Hk |]. split; [exact Hd |].
  rewrite forallb_forall in Hn, Hs, Hw. apply Forall_forall.
  intros x Hx. apply json_shaped_parts.
  split; [apply (Hn x Hx) | split; [apply (Hs x Hx) | apply (Hw x Hx)]].
Qed.


Lemma scan_once_written v :
  json_shaped v = true ->
  forall level fuel rest,
    ends_value rest = true ->
    (String.length (written v level) <= fuel)%nat ->
    json.scan_once fuel (written v level ++ rest)
    = json.Scanned (as_loaded v) rest.
Proof.
  induction v as [| x | x | x | l IH | l IH | d IH | s at_ IH | s]
    using value_ind'; intros Hs level fuel rest He Hf;
    try discriminate Hs.
  - destruct fuel as [| f]; [cbn in Hf; lia |].
    destruct rest; reflexivity.
  - destruct fuel as [| f]; [destruct x; cbn in Hf; lia |].
    destruct x, rest; reflexivity.
  - destruct fuel as [| f].
    { exfalso. unfold written in Hf. cbn [json._iterencode json.yield fst] in Hf.
      destruct (intstr_head x) as [c [r [Hi _]]]. rewrite Hi in Hf.
      cbn in Hf. lia. }
    apply scan_once_intstr. exact He.
  - destruct fuel as [| f]; [cbn in Hf; lia |].
    unfold written. cbn [json._iterencode json.yield fst].
    unfold json.encode_basestring_ascii, chr. cbn [append json.scan_once].
    change (Ascii.eqb dquote dquote) with true. cbv iota.
    rewrite append_assoc. cbn [append]. rewrite scanstring_escape.
    reflexivity.
  - destruct l as [| x l].
    { destruct fuel as [| f]; [cbn in Hf; lia | reflexivity]. }
    apply json_shaped_list_inv in Hs.
    assert (Hok : Forall (fun v => str_keyed v = true) (x :: l)).
    { apply Forall_forall. intros v Hv. rewrite forallb_forall in Hs.
      apply json_shaped_str_keyed. apply (Hs v Hv). }
    assert (HP : Forall (fun v => forall fuel rest,
                           ends_value rest = true ->
                           (String.length (written v (S level)) <= fuel)%nat ->
                           json.scan_once fuel (written v (S level) ++ rest)
                           = json.Scanned (as_loaded v) rest) (x :: l)).
    { rewrite Forall_forall in IH |- *. intros v Hv fuel' rest' He' Hf'.
      rewrite forallb_forall in Hs.
      apply (IH v Hv (Hs v Hv)); assumption. }
    rewrite written_list in Hf |- * by exact Hok.
    pose proof (length_chunks_list_true
                  (json.newline_indent (Some 2%nat) (S level)) (S level) x l Hok)
      as Hlen.
    pose proof (length_newline_indent level) as Hn1.
    pose proof (length_newline_indent (S level)) as Hn2.
    cbn [String.length] in Hf. rewrite !length_append in Hf.
    destruct fuel as [| f]; [lia |].
    pose proof (array_items_written (S level) level l x f rest Hok HP) as Harr.
    set (chunks := fst (json.chunks_list _ true _)) in *.
    cbn [append]. repeat progress (rewrite ?append_assoc; cbn [append]).
    cbn [json.scan_once].
    rewrite skip_ws_newline_indent.
    assert (Hhead : exists c r,
              chunks ++ json.newline_indent (Some 2%nat) level
                ++ String "]" rest = String c r
              /\ json.is_ws c = false /\ Ascii.eqb c "]" = false).
    { subst chunks. cbn [map].
      rewrite chunks_list_text
        by (apply iterencode_str_keyed; inversion Hok; assumption).
      cbn [append]. fold (written x (S level)).
      destruct (written_head x (S level)) as [c [r [Hw [Hc1 Hc2]]]].
      rewrite Hw. cbn [append]. eauto. }
    destruct Hhead as [c [r [Htext [Hc1 Hc2]]]].
    rewrite Htext in Harr |- *.
    rewrite (skip_ws_head c r Hc1), Hc2, Harr by lia.
    reflexivity.
  - destruct d as [| i d].
    { destruct fuel as [| f]; [cbn in Hf; lia | reflexivity]. }
    pose proof (json_shaped_str_keyed _ Hs) as Hsk.
    destruct (json_shaped_dict_inv _ Hs) as [Hkeys [Hdist Hvals]].
    rewrite written_dict in Hf |- * by exact Hsk.
    pose proof (sort_map_snd
                  (fun v => json._iterencode (Some 2%nat) true true v (S level))
                  (i :: d)) as Hsm.
    cbv beta in Hsm. rewrite Hsm in Hf |- *. clear Hsm.
    pose proof (sort_perm (i :: d)) as Hperm.
    assert (Hok : Forall (fun kv => json.is_str (fst kv) = true
                                    /\ str_keyed (snd kv) = true)
                    (json.sort (i :: d))).
    { apply sort_Forall. rewrite forallb_forall in Hkeys.
      rewrite Forall_forall in Hvals |- *. intros kv Hkv.
      split; [apply (Hkeys kv Hkv) |].
      apply json_shaped_str_keyed. apply (Hvals kv Hkv). }
    assert (HP : Forall (fun kv => forall fuel rest,
                           ends_value rest = true ->
                           (String.length (written (snd kv) (S level)) <= fuel)%nat ->
                           json.scan_once fuel (written (snd kv) (S level) ++ rest)
                           = json.Scanned (as_loaded (snd kv)) rest)
                   (json.sort (i :: d))).
    { apply sort_Forall. rewrite Forall_forall in IH, Hvals |- *.
      intros kv Hkv fuel' rest' He' Hf'.
      apply (IH kv Hkv (Hvals kv Hkv)); assumption. }
    assert (Hdist' : keys_distinct
                       (map (fun kv => (fst kv, as_loaded (snd kv)))
                          (json.sort (i :: d))) = true).
    { rewrite keys_distinct_map.
      apply (keys_distinct_perm (i :: d)); [exact Hkeys | | exact Hdist].
      symmetry. exact Hperm. }
    assert (Hloaded : as_loaded (VDict (i :: d))
                      = VDict (map (fun kv => (fst kv, as_loaded (snd kv)))
                                 (json.sort (i :: d)))).
    { cbn [as_loaded]. f_equal. apply (sort_map_snd as_loaded (i :: d)). }
    rewrite Hloaded. clear Hloaded.
    pose proof (length_chunks_dict
                  (String "," (json.newline_indent (Some 2%nat) (S level)))
                  (S level) (json.sort (i :: d)) true) as Hlen.
    destruct (json.sort (i :: d)) as [| kx r] eqn:Es.
    { apply Permutation_nil in Hperm. discriminate Hperm. }
    specialize (Hlen (Forall_impl _ (fun kv H => proj2 H) Hok)).
    pose proof (length_newline_indent level) as Hn1.
    pose proof (length_newline_indent (S level)) as Hn2.
    cbn [String.length] in Hf. rewrite !length_append in Hf.
    destruct fuel as [| f]; [lia |].
    destruct (object_items_written (S level) level r kx f rest Hok HP)
      as [tail [Htext Hscan]]; [lia |].
    cbn [append]. repeat progress (rewrite ?append_assoc; cbn [append]).
    cbn [json.scan_once].
    rewrite skip_ws_newline_indent, Htext.
    rewrite skip_ws_head by reflexivity.
    change (Ascii.eqb dquote "}") with false.
    change (Ascii.eqb dquote dquote) with true. cbv iota.
    rewrite Hscan. cbn [json.scan_map].
    rewrite (dict_update_nil _ Hdist'). reflexivity.
Qed.

(** *** Text that reads back as it was written *)

Lemma plain_app a b : plain (a ++ b) = plain a && plain b.
Proof.
  induction a as [| c a IH]; [reflexivity |].
  cbn [append plain]. rewrite IH. apply andb_assoc.
Qed.

Lemma decode_plain s : plain s = true -> codecs.utf_8_decode s = codecs.Decoded s.
Proof.
  induction s as [| c r IH]; [reflexivity |].
  cbn [plain]. intros H. apply andb_prop in H. destruct H as [Hc Hr].
  unfold plain_char in Hc. apply andb_prop in Hc. destruct Hc as [Hlt _].
  cbn [codecs.utf_8_decode]. cbv zeta. rewrite Hlt, (IH Hr). reflexivity.
Qed.

Lemma translate_plain s : plain s = true -> codecs.translate_newlines s = s.
Proof.
  induction s as [| c r IH]; [reflexivity |].
  cbn [plain]. intros H. apply andb_prop in H. destruct H as [Hc Hr].
  unfold plain_char in Hc. apply andb_prop in Hc. destruct Hc as [_ Hcr].
  cbn [codecs.translate_newlines].
  replace (Ascii.eqb c "013") with false.
  - rewrite (IH Hr). reflexivity.
  - symmetry. apply Ascii.eqb_neq. intros ->. discriminate Hcr.
Qed.

Lemma read_plain s : plain s = true -> read s = Ok s.
Proof.
  intros H. unfold read. rewrite (decode_plain _ H), (translate_plain _ H).
  reflexivity.
Qed.

Lemma plain_escape_char c : plain (json.escape_char c) = true.
Proof.
  destruct c as [[] [] [] [] [] [] [] []]; vm_compute; reflexivity.
Qed.

Lemma plain_escape s : plain (json.escape s) = true.
Proof.
  induction s as [| c r IH]; [reflexivity |].
  cbn [json.escape]. rewrite plain_app, plain_escape_char, IH. reflexivity.
Qed.

Lemma plain_basestring s : plain (json.encode_basestring_ascii s) = true.
Proof.
  unfold json.encode_basestring_ascii. cbn [plain].
  rewrite plain_app, plain_escape. reflexivity.
Qed.

Lemma plain_uint d : plain (NilEmpty.string_of_uint d) = true.
Proof. induction d; cbn [NilEmpty.string_of_uint plain]; auto. Qed.

Lemma plain_intstr z : plain (intstr z) = true.
Proof.
  unfold intstr, NilZero.string_of_int, NilZero.string_of_uint.
  destruct (Z.to_int z) as [d | d]; destruct d;
    try reflexivity; cbn [plain]; rewrite ?plain_uint;
    reflexivity.
Qed.

Lemma plain_spaces n : plain (repeat_str " " n) = true.
Proof. induction n as [| n IH]; [reflexivity | exact IH]. Qed.

Lemma plain_newline_indent indent level :
  plain (json.newline_indent indent level) = true.
Proof.
  unfold json.newline_indent. destruct indent as [n |]; [| reflexivity].
  cbn [plain]. apply plain_spaces.
Qed.

Lemma plain_item_separator indent : plain (json.item_separator indent) = true.
Proof. destruct indent; reflexivity. Qed.

Lemma plain_andthen (a b : json.emitted) :
  plain (fst a) = true -> plain (fst b) = true ->
  plain (fst (json.andthen a b)) = true.
Proof.
  intros Ha Hb. unfold json.andthen. destruct (snd a); [exact Ha |].
  cbn [fst]. rewrite plain_app, Ha, Hb. reflexivity.
Qed.

Lemma plain_chunks_list sep l : forall first,
  plain sep = true ->
  Forall (fun e : json.emitted => plain (fst e) = true) l ->
  plain (fst (json.chunks_list sep first l)) = true.
Proof.
  induction l as [| e r IH]; intros first Hsep Hl; [reflexivity |].
  inversion Hl as [| ? ? He Hr]; subst. cbn [json.chunks_list].
  apply plain_andthen; [apply plain_andthen |].
  - destruct first; [reflexivity | exact Hsep].
  - exact He.
  - apply IH; assumption.
Qed.

Lemma plain_chunks_dict sep (items : list (key * json.emitted)) : forall first,
  plain sep = true ->
  Forall (fun ke => plain (fst (snd ke)) = true) items ->
  plain (fst (json.chunks_dict sep first items)) = true.
Proof.
  induction items as [| [k e] r IH]; intros first Hsep Hl; [reflexivity |].
  inversion Hl as [| ? ? He Hr]; subst. cbn [json.chunks_dict].
  apply plain_andthen; [apply plain_andthen; [apply plain_andthen;
                          [apply plain_andthen |] |] |].
  - destruct first; [reflexivity | exact Hsep].
  - apply plain_basestring.
  - reflexivity.
  - exact He.
  - apply IH; assumption.
Qed.

(** The encoder writes ASCII, and no carriage return. *)
Lemma plain_iterencode indent sort_keys default_str v : forall level,
  plain (fst (json._iterencode indent sort_keys default_str v level)) = true.
Proof.
  induction v as [| b | z | s | l IH | l IH | d IH | s attrs IH | s]
    using value_ind'; intros level.
  - reflexivity.
  - destruct b; reflexivity.
  - apply plain_intstr.
  - apply plain_basestring.
  - destruct l as [| x l]; [reflexivity |].
    cbn [json._iterencode]. set (items := x :: l) in *. clearbody items.
    apply plain_andthen; [apply plain_andthen; [apply plain_andthen |] |].
    + cbn [fst json.yield plain]. apply plain_newline_indent.
    + apply plain_chunks_list.
      * rewrite plain_app, plain_item_separator, plain_newline_indent.
        reflexivity.
      * apply Forall_map. revert IH. apply Forall_impl. intros a Ha. apply Ha.
    + apply plain_newline_indent.
    + reflexivity.
  - destruct l as [| x l]; [reflexivity |].
    cbn [json._iterencode]. set (items := x :: l) in *. clearbody items.
    apply plain_andthen; [apply plain_andthen; [apply plain_andthen |] |].
    + cbn [fst json.yield plain]. apply plain_newline_indent.
    + apply plain_chunks_list.
      * rewrite plain_app, plain_item_separator, plain_newline_indent.
        reflexivity.
      * apply Forall_map. revert IH. apply Forall_impl. intros a Ha. apply Ha.
    + apply plain_newline_indent.
    + reflexivity.
  - destruct d as [| x d]; [reflexivity |].
    cbn [json._iterencode]. set (items := x :: d) in *. clearbody items.
    apply plain_andthen; [apply plain_andthen |].
    + reflexivity.
    + apply plain_newline_indent.
    + assert (Henc :
        Forall (fun ke : key * json.emitted => plain (fst (snd ke)) = true)
          (map (fun kv => (fst kv,
                           json._iterencode indent sort_keys default_str
                             (snd kv) (S level))) items)).
      { apply Forall_map. revert IH. apply Forall_impl.
        intros a Ha. apply Ha. }
      destruct sort_keys.
      * unfold json.sorted. destruct (json.sortable _); [| reflexivity].
        apply plain_andthen; [apply plain_andthen |].
        -- apply plain_chunks_dict.
           ++ rewrite plain_app, plain_item_separator, plain_newline_indent.
              reflexivity.
           ++ apply sort_Forall. exact Henc.
        -- apply plain_newline_indent.
        -- reflexivity.
      * apply plain_andthen; [apply plain_andthen |].
        -- apply plain_chunks_dict.
           ++ rewrite plain_app, plain_item_separator, plain_newline_indent.
              reflexivity.
           ++ exact Henc.
        -- apply plain_newline_indent.
        -- reflexivity.
  - cbn [json._iterencode]. destruct default_str; [| reflexivity].
    apply plain_basestring.
  - cbn [json._iterencode]. destruct default_str; [| reflexivity].
    apply plain_basestring.
Qed.

(** [read()] gives back the text that [json.dump] wrote. *)
Lemma read_written v level : read (written v level) = Ok (written v level).
Proof. apply read_plain. apply plain_iterencode. Qed.

(** *** Loading the file that was written *)

Lemma loads_written v :
  json_shaped v = true -> json.loads (written v 0) = Ok (as_loaded v).
Proof.
  intros Hs. unfold json.loads.
  destruct (written_head v 0) as [c [r [Hw [Hc _]]]].
  assert (Hskip : json.skip_ws (written v 0) = written v 0)
    by (rewrite Hw; apply skip_ws_head; exact Hc).
  rewrite Hskip.
  pose proof (scan_once_written v Hs 0
                (2 * String.length (written v 0) + 2) EmptyString eq_refl)
    as Hscan.
  rewrite append_nil_r in Hscan. rewrite Hscan by lia. reflexivity.
Qed.

(** [json.load] on the file that [json.dump] wrote. *)
Lemma load_written v :
  json_shaped v = true -> json.load (written v 0) = Ok (as_loaded v).
Proof.
  intros Hs. unfold json.load. rewrite read_written.
  apply loads_written. exact Hs.
Qed.

(** What is read back equals what was written. *)
Lemma py_eq_as_loaded v :
  json_shaped v = true -> py_eq (as_loaded v) v = true.
Proof.
  induction v as [| x | x | x | l IH | l IH | d IH | s at_ IH | s]
    using value_ind'; intros Hs; try discriminate Hs.
  - reflexivity.
  - destruct x; reflexivity.
  - apply Z.eqb_refl.
  - apply String.eqb_refl.
  - cbn [as_loaded]. rewrite py_eq_list. apply json_shaped_list_inv in Hs.
    induction IH as [| x l Hx _ IHl]; [reflexivity |].
    cbn [forallb map seq_eq] in *. apply andb_prop in Hs.
    destruct Hs as [H1 H2]. rewrite (Hx H1), (IHl H2). reflexivity.
  - destruct (json_shaped_dict_inv _ Hs) as [Hkeys [Hdist Hvals]].
    cbn [as_loaded]. rewrite py_eq_dict.
    set (f := fun kv : key * value => (fst kv, as_loaded (snd kv))).
    pose proof (sort_perm (map f d)) as Hperm.
    rewrite (Permutation_length Hperm), length_map, Nat.eqb_refl.
    cbn [andb]. apply items_eq_in. intros k y Hin.
    apply (Permutation_in _ Hperm) in Hin.
    apply in_map_iff in Hin. destruct Hin as [[k' x] [Heq Hin]].
    inversion Heq; subst. exists x. split.
    + apply unique_keys_get; [apply keys_distinct_unique; exact Hdist |].
      exact Hin.
    + rewrite Forall_forall in IH, Hvals.
      apply (IH _ Hin). apply (Hvals _ Hin).
Qed.

(** Looking a name up in the store that was read back. *)
Lemma dict_get_perm (d d' : dict) name :
  forallb (fun kv => json.is_str (fst kv)) d = true ->
  keys_distinct d = true ->
  Permutation d d' ->
  dict_get (KStr name) d' = dict_get (KStr name) d.
Proof.
  intros Hkeys Hdist Hperm.
  pose proof (keys_distinct_perm d d' Hkeys Hperm Hdist) as Hdist'.
  destruct (dict_get (KStr name) d) as [x |] eqn:E.
  - destruct (dict_get_In _ _ _ E) as [k' [Hin Hk]].
    apply key_eqb_str in Hk. subst k'.
    apply unique_keys_get; [apply keys_distinct_unique; exact Hdist' |].
    apply (Permutation_in _ Hperm). exact Hin.
  - destruct (dict_get (KStr name) d') as [y |] eqn:E'; [| reflexivity].
    destruct (dict_get_In _ _ _ E') as [k' [Hin Hk]].
    apply (Permutation_in _ (Permutation_sym Hperm)) in Hin.
    pose proof (in_dict_mem (KStr name) (k', y) d Hin Hk) as Hmem.
    unfold dict_mem in Hmem. rewrite E in Hmem. discriminate Hmem.
Qed.

Lemma dict_get_as_loaded (d : dict) name :
  json_shaped (VDict d) = true ->
  dict_get (KStr name)
    (json.sort (map (fun kv => (fst kv, as_loaded (snd kv))) d))
  = option_map as_loaded (dict_get (KStr name) d).
Proof.
  intros Hs. destruct (json_shaped_dict_inv _ Hs) as [Hkeys [Hdist _]].
  set (f := fun kv : key * value => (fst kv, as_loaded (snd kv))).
  rewrite (dict_get_perm (map f d) (json.sort (map f d)) name).
  - apply dict_get_map.
  - subst f. clear - Hkeys. induction d as [| [k x] r IH]; [reflexivity |].
    cbn [map forallb fst] in *. apply andb_prop in Hkeys.
    destruct Hkeys as [H1 H2]. rewrite H1, (IH H2). reflexivity.
  - subst f. rewrite keys_distinct_map. exact Hdist.
  - symmetry. apply sort_perm.
Qed.

(** Subscripting what was read back. *)
Lemma subscript_as_loaded entry name :
  json_shaped entry = true ->
  subscript (as_loaded entry) name
  = match subscript entry name with
    | Ok x => Ok (as_loaded x)
    | Raise e => Raise e
    end.
Proof.
  intros Hs.
  destruct entry as [| b | z | s | l | l | e | s a | s];
    try discriminate Hs; try reflexivity.
  cbn [as_loaded subscript]. rewrite (dict_get_as_loaded e name Hs).
  destruct (dict_get (KStr name) e); reflexivity.
Qed.

Lemma json_shaped_set (d : dict) name e :
  json_shaped (VDict d) = true -> json_shaped e = true ->
  json_shaped (VDict (dict_set (KStr name) e d)) = true.
Proof.
  intros Hd He. apply json_shaped_parts in Hd, He.
  destruct Hd as [Hn [Hs Hw]], He as [Hen [Hes Hew]].
  cbn [is_normalized str_keyed well_formed] in Hn, Hs, Hw.
  apply andb_prop in Hs. destruct Hs as [Hk Hs].
  apply andb_prop in Hw. destruct Hw as [Hdist Hw].
  apply json_shaped_parts. cbn [is_normalized str_keyed well_formed].
  repeat split.
  - apply forallb_snd_set; assumption.
  - apply andb_true_intro. split.
    + apply forallb_fst_set; [exact Hk | reflexivity].
    + apply forallb_snd_set; assumption.
  - apply andb_true_intro. split.
    + apply keys_distinct_set. exact Hdist.
    + apply forallb_snd_set; assumption.
Qed.

Lemma json_shaped_entry v now where_ digest :
  json_shaped v = true ->
  json_shaped (snapshot_entry v now where_ digest) = true.
Proof.
  intros H. apply json_shaped_parts in H. destruct H as [Hn [Hs Hw]].
  unfold json_shaped, snapshot_entry.
  cbn [is_normalized str_keyed well_formed forallb fst snd json.is_str].
  rewrite Hn, Hs, Hw. reflexivity.
Qed.

Lemma capture_normalized o v :
  capture_outcome o = Ok v -> is_normalized v = true.
Proof.
  destruct o as [r | cls [] msg]; cbn [capture_outcome]; intros H;
    inversion H; subst; [apply serialize_normalized | reflexivity].
Qed.

(** ** From one run to the next *)

(** A manager built on the file of a store in which a test has the
    value [v] finds a baseline equal to [v]. *)
Lemma reloaded_baseline test_name v entry (merged : dict) text st :
  json_shaped (VDict merged) = true ->
  dict_get (KStr test_name) merged = Some entry ->
  subscript entry "value" = Ok v ->
  json.dumps (Some 2%nat) true true (VDict merged) = Ok text ->
  file st = Some text ->
  exists st1 existing,
    SnapshotManager__init__ st = (st1, Ok tt)
    /\ has_snapshot test_name st1 = (st1, Ok true)
    /\ get_snapshot test_name st1 = (st1, Ok existing)
    /\ py_ne existing v = false
    /\ file st1 = file st
    /\ stdout st1 = stdout st.
Proof.
  intros Hmerged Hentry Hvalue Hdump Hfile.
  assert (Htext : text = written (VDict merged) 0).
  { unfold json.dumps in Hdump. unfold written.
    destruct (json._iterencode (Some 2%nat) true true (VDict merged) 0)
      as [t [e |]]; inversion Hdump. reflexivity. }
  pose proof (load_written _ Hmerged) as Hload. rewrite <- Htext in Hload.
  pose proof (init_loads st text _ Hfile Hload) as Hinit.
  set (st1 := set_manager _ st) in Hinit.
  exists st1, (as_loaded v). split; [exact Hinit |].
  assert (Hs1 : snapshots (manager st1)
                = VDict (json.sort
                           (map (fun kv => (fst kv, as_loaded (snd kv)))
                              merged))) by reflexivity.
  assert (Hp1 : pending_updates (manager st1) = []) by reflexivity.
  assert (Hget1 : dict_get (KStr test_name)
                    (json.sort
                       (map (fun kv => (fst kv, as_loaded (snd kv))) merged))
                  = Some (as_loaded entry)).
  { rewrite (dict_get_as_loaded merged test_name Hmerged), Hentry.
    reflexivity. }
  pose proof (json_shaped_get _ _ _ Hmerged Hentry) as Hshape.
  assert (Hv : json_shaped v = true).
  { destruct entry as [| b | z | s | l | l | e | s a | s];
      try discriminate Hvalue.
    cbn [subscript] in Hvalue.
    destruct (dict_get (KStr "value") e) as [x |] eqn:Ev;
      inversion Hvalue; subst.
    apply (json_shaped_get _ _ _ Hshape Ev). }
  split.
  { rewrite (has_snapshot_committed _ _ _ Hs1 Hp1).
    unfold dict_mem. rewrite Hget1. reflexivity. }
  split.
  { rewrite (get_snapshot_committed _ _ _ Hs1 Hp1), Hget1.
    rewrite (subscript_as_loaded entry "value" Hshape), Hvalue.
    reflexivity. }
  split; [| split; reflexivity].
  unfold py_ne. rewrite (py_eq_as_loaded v Hv). reflexivity.
Qed.

(** A process that starts on a file in which the value was stored finds
    the baseline equal to the value. *)
Lemma next_run_passes config test_name where_ o v (d : dict)
  now where0 digest0 text st :
  capture_outcome o = Ok v ->
  json_shaped v = true ->
  json_shaped (VDict d) = true ->
  json.dumps (Some 2%nat) true true
    (VDict (dict_set (KStr test_name)
              (snapshot_entry v now where0 digest0) d)) = Ok text ->
  file st = Some text ->
  exists st1,
    SnapshotManager__init__ st = (st1, Ok tt)
    /\ evaluate config test_name where_ o st
       = (set_stdout (stdout st ++ [Passed test_name]) st1, Ok tt)
    /\ file st1 = file st
    /\ stdout st1 = stdout st.
Proof.
  intros Hcap Hv Hd Hdump Hfile.
  destruct (reloaded_baseline test_name v
              (snapshot_entry v now where0 digest0) _ text st
              (json_shaped_set d test_name _ Hd
                 (json_shaped_entry v now where0 digest0 Hv)))
    as [st1 [existing [Hinit [Hhas [Hget [Hne [Hf Hout]]]]]]];
    try assumption; try reflexivity.
  { rewrite dict_get_set, key_eqb_refl. reflexivity. }
  exists st1. split; [exact Hinit |]. split; [| split; assumption].
  destruct (fingerprint_str_keyed v (json_shaped_str_keyed _ Hv))
    as [digest Hfp].
  unfold evaluate. rewrite (bind_ok _ _ _ _ _ Hinit).
  unfold call at 1. rewrite Hcap.
  rewrite (bind_ok _ _ st1 st1 v) by reflexivity.
  rewrite (check_snapshot_passes config test_name where_ v digest
             existing st1 Hfp Hhas Hget Hne).
  rewrite Hout. reflexivity.
Qed.

(** X19.  Idempotence, for results without floating-point numbers (the
    values of this development hold none).  Such a result whose
    dictionaries are keyed by strings, pairwise different, evaluated for a
    test with no baseline on a device that takes the write, is stored;
    every later process that starts on the file it left, in any mode and
    with the same result, reports the test as passed and leaves the file
    as it is. *)
Theorem created_baseline_passes_on_the_next_run
  (config : ExpectTestConfig) (test_name : string) (where_ : site)
  (o : outcome) (v : value) (d : dict) (st st1 : state) :
  SnapshotManager__init__ st = (st1, Ok tt) ->
  snapshots (manager st1) = VDict d ->
  dict_mem (KStr test_name) d = false ->
  fault st = NoFault ->
  capture_outcome o = Ok v ->
  str_keyed v = true ->
  well_formed v = true ->
  exists st2,
    evaluate config test_name where_ o st = (st2, Ok tt)
    /\ stdout st2 = (stdout st1 ++ [Created test_name])%list
    /\ get_snapshot test_name st2 = (st2, Ok v)
    /\ forall config3 where3 st3,
         file st3 = file st2 ->
         exists st4,
           evaluate config3 test_name where3 o st3 = (st4, Ok tt)
           /\ stdout st4 = (stdout st3 ++ [Passed test_name])%list
           /\ file st4 = file st2.
Proof.
  intros Hinit Hs Hmem Hf Hcap Hsk Hwf.
  destruct (init_manager _ _ Hinit) as [Hp [Hshape _]].
  destruct (init_frame _ _ Hinit) as [Hf1 [_ _]].
  rewrite Hf in Hf1. rewrite Hs in Hshape.
  assert (Hv : json_shaped v = true).
  { apply json_shaped_parts.
    split; [apply (capture_normalized _ _ Hcap) | split; assumption]. }
  destruct (fingerprint_str_keyed v Hsk) as [digest Hfp].
  destruct (check_snapshot_stores_new config test_name where_ v d digest st1
              Hs Hp Hf1 (json_shaped_str_keyed _ Hshape) Hmem Hfp)
    as [text [st2 [Hrun [Hm [Hdump [Hfile [Hout [Hget _]]]]]]]].
  exists st2. split.
  { unfold evaluate. rewrite (bind_ok _ _ _ _ _ Hinit).
    unfold call at 1. rewrite Hcap.
    rewrite (bind_ok _ _ st1 st1 v) by reflexivity. exact Hrun. }
  split; [exact Hout |]. split; [exact Hget |].
  intros config3 where3 st3 Hfile3.
  rewrite Hm in Hdump. cbn [snapshots] in Hdump.
  rewrite <- (dict_set_absent _ _ _ Hmem) in Hdump.
  rewrite Hfile in Hfile3.
  destruct (next_run_passes config3 test_name where3 o v d (clock st1)
              where_ digest text st3 Hcap Hv Hshape Hdump Hfile3)
    as [st4 [_ [Hrun3 [Hfile4 _]]]].
  eexists. split; [exact Hrun3 |].
  cbn [stdout file set_stdout]. split; [reflexivity |].
  rewrite Hfile4, Hfile3, Hfile. reflexivity.
Qed.

Lemma created_baseline_passes_on_the_next_run_witness :
  exists st2,
    evaluate (scenario.config FAIL false) "t1" scenario.here
      (Returns scenario.value_42) (scenario.start None NoFault)
    = (st2, Ok tt)
    /\ exists st4,
         evaluate (scenario.config FAIL true) "t1" scenario.here
           (Returns scenario.value_42) (scenario.rerun st2)
         = (st4, Ok tt)
         /\ stdout st4 = [Passed "t1"]
         /\ file st4 = file st2.
Proof.
  destruct (created_baseline_passes_on_the_next_run
              (scenario.config FAIL false) "t1" scenario.here
              (Returns scenario.value_42) scenario.value_42 []
              (scenario.start None NoFault)
              (fst (SnapshotManager__init__ (scenario.start None NoFault))))
    as [st2 [Hrun [_ [_ Hnext]]]];
    [reflexivity .. |].
  exists st2. split; [exact Hrun |].
  apply (Hnext (scenario.config FAIL true) scenario.here (scenario.rerun st2)).
  reflexivity.
Defined.

(** X20.  After an accepted conflict, on a device that takes the write,
    an accepted result without floating-point numbers (the values of this
    development hold none) whose dictionaries are keyed by strings,
    pairwise different, is the baseline: every later process that starts
    on the file the run left, in any mode and with the same result,
    reports the test as passed and leaves the file as it is. *)
Theorem accepted_update_passes_on_the_next_run
  (config : ExpectTestConfig) (test_name : string) (where_ : site)
  (o : outcome) (v existing : value) (d : dict) (st st0 st1 : state) :
  SnapshotManager__init__ st = (st0, Ok tt) ->
  snapshots (manager st0) = VDict d ->
  fault st = NoFault ->
  capture_outcome o = Ok v ->
  str_keyed v = true ->
  well_formed v = true ->
  has_snapshot test_name st0 = (st0, Ok true) ->
  get_snapshot test_name st0 = (st0, Ok existing) ->
  py_ne existing v = true ->
  _handle_conflict config test_name existing v st0 = (st1, Ok true) ->
  exists st2,
    evaluate config test_name where_ o st = (st2, Ok tt)
    /\ stdout st2 = (stdout st1 ++ [Updated test_name])%list
    /\ get_snapshot test_name st2 = (st2, Ok v)
    /\ forall config3 where3 st3,
         file st3 = file st2 ->
         exists st4,
           evaluate config3 test_name where3 o st3 = (st4, Ok tt)
           /\ stdout st4 = (stdout st3 ++ [Passed test_name])%list
           /\ file st4 = file st2.
Proof.
  intros Hinit Hs Hf Hcap Hsk Hwf Hhas Hget Hne Haccept.
  destruct (init_manager _ _ Hinit) as [Hp [Hshape _]].
  destruct (init_frame _ _ Hinit) as [Hf0 [_ _]].
  rewrite Hf in Hf0. rewrite Hs in Hshape.
  assert (Hv : json_shaped v = true).
  { apply json_shaped_parts.
    split; [apply (capture_normalized _ _ Hcap) | split; assumption]. }
  destruct (fingerprint_str_keyed v Hsk) as [digest Hfp].
  destruct (check_snapshot_stores_accepted config test_name where_ v existing
              d digest st0 st1 Hs Hp Hf0 (json_shaped_str_keyed _ Hshape)
              Hfp Hhas Hget Hne Haccept)
    as [text [st2 [Hrun [Hm [_ [Hdump [Hfile [Hout [Hget2 _]]]]]]]]].
  exists st2. split.
  { unfold evaluate. rewrite (bind_ok _ _ _ _ _ Hinit).
    unfold call at 1. rewrite Hcap.
    rewrite (bind_ok _ _ st0 st0 v) by reflexivity. exact Hrun. }
  split; [exact Hout |]. split; [exact Hget2 |].
  intros config3 where3 st3 Hfile3.
  rewrite Hfile in Hfile3.
  destruct (next_run_passes config3 test_name where3 o v d (clock st0)
              where_ digest text st3 Hcap Hv Hshape Hdump Hfile3)
    as [st4 [_ [Hrun3 [Hfile4 _]]]].
  eexists. split; [exact Hrun3 |].
  cbn [stdout file set_stdout]. split; [reflexivity |].
  rewrite Hfile4, Hfile3, Hfile. reflexivity.
Qed.

Lemma accepted_update_passes_on_the_next_run_witness :
  exists st2,
    evaluate (scenario.config ACCEPT_NEW false) "t1" scenario.here
      (Returns scenario.value_43) (scenario.rerun scenario.after_first_run)
    = (st2, Ok tt)
    /\ stdout st2 = [Updated "t1"]
    /\ exists st4,
         evaluate (scenario.config FAIL true) "t1" scenario.here
           (Returns scenario.value_43) (scenario.rerun st2)
         = (st4, Ok tt)
         /\ stdout st4 = [Passed "t1"]
         /\ file st4 = file st2.
Proof.
  destruct (accepted_update_passes_on_the_next_run
              (scenario.config ACCEPT_NEW false) "t1" scenario.here
              (Returns scenario.value_43) scenario.value_43 scenario.value_42
              (match snapshots (manager scenario.loaded) with
               | VDict d => d
               | _ => []
               end)
              (scenario.rerun scenario.after_first_run)
              scenario.loaded scenario.loaded)
    as [st2 [Hrun [Hout [_ Hnext]]]];
    [vm_compute; reflexivity .. |].
  exists st2. split; [exact Hrun |]. split; [exact Hout |].
  apply (Hnext (scenario.config FAIL true) scenario.here (scenario.rerun st2)).
  reflexivity.
Defined.

(** ** Tuples and lists, from one run to the next *)




(** ** Saving and loading *)

(** The file a successful commit leaves. *)
Lemma commit_ok_file st st' d :
  snapshots (manager st) = VDict d ->
  pending_updates (manager st) <> [] ->
  commit_updates st = (st', Ok tt) ->
  file st'
  = Some (written (VDict (dict_update d (pending_updates (manager st)))) 0)
  /\ stdout st' = stdout st.
Proof.
  intros Hd Hne Hcommit. destruct st as [f flt i o c [snaps pend]].
  cbn [manager snapshots pending_updates] in *. subst snaps.
  destruct pend as [| p pend]; [destruct (Hne eq_refl) |].
  unfold written.
  cbv [commit_updates _save_snapshots bind self set_snapshots raise ret
       mkdir_parent write_file set_pending_updates manager pending_updates
       snapshots fault set_manager set_file file stdin stdout clock]
    in Hcommit.
  set (merged := dict_update d (p :: pend)) in *. clearbody merged.
  destruct (json._iterencode (Some 2%nat) true true (VDict merged) 0)
    as [text err] eqn:Henc.
  destruct flt as [| | | room]; cbv iota beta in Hcommit;
    rewrite ?Henc in Hcommit; cbv iota beta in Hcommit;
    try discriminate Hcommit.
  - destruct err; inversion Hcommit; split; reflexivity.
  - destruct (Nat.ltb room (String.length text));
      [discriminate Hcommit |].
    destruct err; inversion Hcommit; split; reflexivity.
Qed.

Lemma json_shaped_update (d other : dict) :
  json_shaped (VDict d) = true -> json_shaped (VDict other) = true ->
  json_shaped (VDict (dict_update d other)) = true.
Proof.
  intros Hd Ho. apply json_shaped_parts in Hd, Ho.
  destruct Hd as [Hn [Hs Hw]], Ho as [Hon [Hos How]].
  cbn [is_normalized str_keyed well_formed] in *.
  apply andb_prop in Hs, Hw, Hos, How.
  destruct Hs as [Hk Hs], Hw as [Hdist Hw], Hos as [Hok Hos],
    How as [_ How].
  apply json_shaped_parts. cbn [is_normalized str_keyed well_formed].
  repeat split.
  - apply forallb_snd_update; assumption.
  - apply andb_true_intro. split.
    + apply forallb_fst_update; assumption.
    + apply forallb_snd_update; assumption.
  - apply andb_true_intro. split.
    + apply keys_distinct_update. exact Hdist.
    + apply forallb_snd_update; assumption.
Qed.

(** X21.  Save and load.  After a commit that succeeds for a store and pending
    updates shaped like JSON objects, a manager built on the file that was
    written loads it without a warning and answers as the committing
    manager does: [has_snapshot] agrees for every test, and
    [get_snapshot] returns an equal value, or raises the same exception. *)
Theorem saved_store_is_read_back (st st' st3 : state) (d : dict) :
  snapshots (manager st) = VDict d ->
  json_shaped (VDict d) = true ->
  json_shaped (VDict (pending_updates (manager st))) = true ->
  pending_updates (manager st) <> [] ->
  commit_updates st = (st', Ok tt) ->
  file st3 = file st' ->
  exists st4,
    SnapshotManager__init__ st3 = (st4, Ok tt)
    /\ stdout st4 = stdout st3
    /\ file st4 = file st'
    /\ forall test_name,
         snd (has_snapshot test_name st4) = snd (has_snapshot test_name st')
         /\ match snd (get_snapshot test_name st') with
            | Ok x =>
                exists y, snd (get_snapshot test_name st4) = Ok y
                          /\ py_eq y x = true
            | Raise e => snd (get_snapshot test_name st4) = Raise e
            end.
Proof.
  intros Hd Hsd Hsp Hne Hcommit Hfile3.
  pose proof (commit_ok_manager _ _ _ Hd Hcommit) as Hm.
  destruct (commit_ok_file _ _ _ Hd Hne Hcommit) as [Hfile _].
  set (merged := dict_update d (pending_updates (manager st))) in *.
  assert (Hmerged : json_shaped (VDict merged) = true)
    by (apply json_shaped_update; assumption).
  rewrite Hfile in Hfile3.
  pose proof (init_loads st3 _ _ Hfile3 (load_written _ Hmerged)) as Hinit.
  set (st4 := set_manager _ st3) in Hinit.
  exists st4. split; [exact Hinit |]. split; [reflexivity |].
  split; [rewrite Hfile; exact Hfile3 |].
  intros test_name.
  assert (Hs4 : snapshots (manager st4)
                = VDict (json.sort
                           (map (fun kv => (fst kv, as_loaded (snd kv)))
                              merged))) by reflexivity.
  assert (Hp4 : pending_updates (manager st4) = []) by reflexivity.
  assert (Hs' : snapshots (manager st') = VDict merged)
    by (rewrite Hm; reflexivity).
  assert (Hp' : pending_updates (manager st') = [])
    by (rewrite Hm; reflexivity).
  rewrite (has_snapshot_committed _ _ _ Hs4 Hp4),
          (has_snapshot_committed _ _ _ Hs' Hp'),
          (get_snapshot_committed _ _ _ Hs4 Hp4),
          (get_snapshot_committed _ _ _ Hs' Hp').
  cbn [snd]. unfold dict_mem.
  rewrite (dict_get_as_loaded merged test_name Hmerged).
  destruct (dict_get (KStr test_name) merged) as [entry |] eqn:E;
    cbn [option_map].
  - split; [reflexivity |].
    pose proof (json_shaped_get _ _ _ Hmerged E) as Hentry.
    rewrite (subscript_as_loaded entry "value" Hentry).
    destruct (subscript entry "value") as [x | e] eqn:Ex; [| reflexivity].
    exists (as_loaded x). split; [reflexivity |].
    apply py_eq_as_loaded.
    destruct entry as [| b | z | s | l | l | en | s a | s];
      try discriminate Ex.
    cbn [subscript] in Ex.
    destruct (dict_get (KStr "value") en) as [x' |] eqn:Ev;
      inversion Ex; subst.
    apply (json_shaped_get _ _ _ Hentry Ev).
  - split; [reflexivity |]. exists VNone. split; reflexivity.
Qed.

Lemma saved_store_is_read_back_witness :
  let st' := fst (commit_updates (scenario.before_commit NoFault)) in
  exists st4,
    SnapshotManager__init__ (scenario.rerun st') = (st4, Ok tt)
    /\ snd (has_snapshot "t" st4) = Ok true
    /\ exists y, snd (get_snapshot "old_test" st4) = Ok y
                 /\ py_eq y (VInt 1) = true.
Proof.
  intros st'.
  destruct (saved_store_is_read_back (scenario.before_commit NoFault) st'
              (scenario.rerun st') [(KStr "old_test", scenario.old_entry)])
    as [st4 [Hinit [_ [_ Hlook]]]];
    [try (vm_compute; reflexivity) .. |].
  { discriminate. }
  exists st4. split; [exact Hinit |]. split.
  - rewrite (proj1 (Hlook "t")). vm_compute. reflexivity.
  - pose proof (proj2 (Hlook "old_test")) as H.
    vm_compute (snd (get_snapshot "old_test" st')) in H. exact H.
Defined.

(** ** The inline context, from one run to the next *)

Lemma json_shaped_inline_entry x now where_ digest :
  json_shaped x = true ->
  json_shaped
    (VDict (dict_update
              [(KStr "value", x); (KStr "timestamp", VStr now)]
              [(KStr "file_path", VStr (file_path where_));
               (KStr "line_number", VInt (line_number where_));
               (KStr "hash", VStr digest)])) = true.
Proof.
  intros H. apply json_shaped_parts in H. destruct H as [Hn [Hs Hw]].
  unfold json_shaped. cbn. rewrite Hn, Hs, Hw. reflexivity.
Qed.

(** X22.  The inline form from one run to the next, for captured values
    without floating-point numbers (the values of this development hold
    none).  Such a value, other than [None], whose dictionaries are keyed
    by strings, pairwise different, for a test with no baseline on a
    device that takes the write, is stored (normalized) and "Created" is
    printed; [__exit__] returns no true value.  Every later process that
    starts on the file it left and captures the same value, in any mode,
    reports the test as passed and leaves the file as it is. *)
Theorem inline_capture_passes_on_the_next_run
  (config : ExpectTestConfig) (test_name : string) (where_ : site)
  (v : value) (d : dict) (ctx : InlineExpectContext) (st st1 : state) :
  InlineExpectContext__init__ test_name st = (st1, Ok ctx) ->
  snapshots (manager st1) = VDict d ->
  dict_mem (KStr test_name) d = false ->
  fault st = NoFault ->
  _serialize_value v <> VNone ->
  str_keyed (_serialize_value v) = true ->
  well_formed (_serialize_value v) = true ->
  exists st2,
    InlineExpectContext__exit__ config (capture ctx v) where_ None st1
    = (st2, Ok false)
    /\ stdout st2 = (stdout st1 ++ [Created test_name])%list
    /\ get_snapshot test_name st2 = (st2, Ok (_serialize_value v))
    /\ forall config3 where3 st3,
         file st3 = file st2 ->
         exists st4 ctx3 st5,
           InlineExpectContext__init__ test_name st3 = (st4, Ok ctx3)
           /\ InlineExpectContext__exit__ config3 (capture ctx3 v) where3
                None st4
              = (st5, Ok false)
           /\ stdout st5 = (stdout st3 ++ [Passed test_name])%list
           /\ file st5 = file st2.
Proof.
  intros Hctx Hs Hmem Hf Hnone Hsk Hwf.
  assert (Hinit : SnapshotManager__init__ st = (st1, Ok tt)
                  /\ ctx = {| name := test_name; captured := VNone |}).
  { unfold InlineExpectContext__init__, bind, ret in Hctx.
    destruct (SnapshotManager__init__ st) as [s [[] | e]];
      inversion Hctx; subst. split; reflexivity. }
  destruct Hinit as [Hinit ->].
  destruct (init_manager _ _ Hinit) as [Hp [Hshape _]].
  destruct (init_frame _ _ Hinit) as [Hf1 [_ _]].
  rewrite Hf in Hf1. rewrite Hs in Hshape.
  assert (Hv : json_shaped (_serialize_value v) = true).
  { apply json_shaped_parts.
    split; [apply serialize_normalized | split; assumption]. }
  assert (Hcaptured : is_none (_serialize_value v) = false)
    by (destruct (_serialize_value v); try reflexivity;
        destruct (Hnone eq_refl)).
  destruct (fingerprint_str_keyed _ Hsk) as [digest Hfp].
  destruct (manager_stores test_name (_serialize_value v) digest
              [(KStr "file_path", VStr (file_path where_));
               (KStr "line_number", VInt (line_number where_));
               (KStr "hash", VStr digest)]
              d st1 Hs Hp Hf1 (json_shaped_str_keyed _ Hshape)
              eq_refl eq_refl eq_refl Hfp)
    as [text [st2 [Hrun [Hm [Hdump [Hfile [Hout [_ [_ [_ Hlook]]]]]]]]]].
  exists (set_stdout (stdout st2 ++ [Created test_name]) st2).
  split.
  { unfold InlineExpectContext__exit__, capture. cbn [name captured].
    rewrite Hcaptured.
    rewrite (bind_ok _ _ st1 st1 tt) by reflexivity.
    cbv zeta. unfold call at 1. rewrite Hfp.
    rewrite (bind_ok _ _ st1 st1 digest) by reflexivity.
    rewrite (bind_ok _ _ _ _ _ (has_snapshot_committed _ _ _ Hs Hp)).
    rewrite Hmem.
    assert (Hblock :
      bind (update_snapshot test_name (_serialize_value v)
              [(KStr "file_path", VStr (file_path where_));
               (KStr "line_number", VInt (line_number where_));
               (KStr "hash", VStr digest)])
        (fun _ => bind commit_updates (fun _ => print (Created test_name)))
        st1
      = (set_stdout (stdout st2 ++ [Created test_name]) st2, Ok tt)).
    { rewrite bind_assoc. rewrite (bind_ok _ _ _ _ _ Hrun). reflexivity. }
    rewrite (bind_ok _ _ _ _ _ Hblock). reflexivity. }
  cbn [stdout set_stdout file].
  split; [rewrite Hout; reflexivity |].
  split;
    [apply (proj1 (Hlook (set_stdout (stdout st2 ++ [Created test_name]) st2)
                     eq_refl)) |].
  intros config3 where3 st3 Hfile3. rewrite Hfile in Hfile3.
  set (entry := VDict (dict_update
                         [(KStr "value", _serialize_value v);
                          (KStr "timestamp", VStr (clock st1))]
                         [(KStr "file_path", VStr (file_path where_));
                          (KStr "line_number", VInt (line_number where_));
                          (KStr "hash", VStr digest)])) in *.
  destruct (reloaded_baseline test_name (_serialize_value v) entry
              (dict_set (KStr test_name) entry d) text st3
              (json_shaped_set d test_name entry Hshape
                 (json_shaped_inline_entry _ (clock st1) where_ digest Hv)))
    as [st4 [existing [Hinit3 [Hhas3 [Hget3 [Hne3 [Hf4 Hout4]]]]]]];
    try assumption.
  { rewrite dict_get_set, key_eqb_refl. reflexivity. }
  { reflexivity. }
  exists st4, {| name := test_name; captured := VNone |},
    (set_stdout (stdout st4 ++ [Passed test_name]) st4).
  split.
  { unfold InlineExpectContext__init__.
    rewrite (bind_ok _ _ _ _ _ Hinit3). reflexivity. }
  split.
  { unfold InlineExpectContext__exit__, capture. cbn [name captured].
    rewrite Hcaptured.
    rewrite (bind_ok _ _ st4 st4 tt) by reflexivity.
    cbv zeta. unfold call at 1. rewrite Hfp.
    rewrite (bind_ok _ _ st4 st4 digest) by reflexivity.
    rewrite (bind_ok _ _ _ _ _ Hhas3).
    assert (Hblock :
      bind (get_snapshot test_name)
        (fun existing0 =>
           if py_ne existing0 (_serialize_value v)
           then
             bind (_handle_conflict config3 test_name existing0
                     (_serialize_value v))
               (fun accept =>
                  if accept
                  then
                    bind (update_snapshot test_name (_serialize_value v)
                            [(KStr "file_path", VStr (file_path where3));
                             (KStr "line_number", VInt (line_number where3));
                             (KStr "hash", VStr digest)])
                      (fun _ =>
                         bind commit_updates
                           (fun _ => print (Updated test_name)))
                  else raise (Exn AssertionError
                                (mismatch_message test_name)))
           else print (Passed test_name)) st4
      = (set_stdout (stdout st4 ++ [Passed test_name]) st4, Ok tt)).
    { rewrite (bind_ok _ _ _ _ _ Hget3), Hne3. reflexivity. }
    rewrite (bind_ok _ _ _ _ _ Hblock). reflexivity. }
  cbn [stdout set_stdout file].
  split; [rewrite Hout4; reflexivity |].
  rewrite Hf4, Hfile3, Hfile. reflexivity.
Qed.

Lemma inline_capture_passes_on_the_next_run_witness :
  let st := scenario.rerun scenario.after_first_run in
  exists st2,
    InlineExpectContext__exit__ (scenario.config FAIL true)
      (capture {| name := "t2"; captured := VNone |} (VTuple scenario.pair))
      scenario.here None scenario.loaded
    = (st2, Ok false)
    /\ stdout st2 = [Created "t2"]
    /\ exists st4 ctx3 st5,
         InlineExpectContext__init__ "t2" (scenario.rerun st2)
         = (st4, Ok ctx3)
         /\ InlineExpectContext__exit__ (scenario.config FAIL true)
              (capture ctx3 (VTuple scenario.pair)) scenario.here None st4
            = (st5, Ok false)
         /\ stdout st5 = [Passed "t2"]
         /\ file st5 = file st2.
Proof.
  intros st.
  destruct (inline_capture_passes_on_the_next_run
              (scenario.config FAIL true) "t2" scenario.here
              (VTuple scenario.pair)
              (match snapshots (manager scenario.loaded) with
               | VDict d => d
               | _ => []
               end)
              {| name := "t2"; captured := VNone |} st scenario.loaded)
    as [st2 [Hrun [Hout [_ Hnext]]]];
    [try (vm_compute; reflexivity) .. |].
  { discriminate. }
  exists st2. split; [exact Hrun |]. split; [exact Hout |].
  apply (Hnext (scenario.config FAIL true) scenario.here (scenario.rerun st2)).
  reflexivity.
Defined.

(** ** Files that were not written by the module *)

(** The constructor of the manager on a file that is not a JSON
    document. *)
Lemma init_corrupt st text msg :
  file st = Some text ->
  json.load text = Raise (Exn JSONDecodeError msg) ->
  SnapshotManager__init__ st
  = (set_manager {| snapshots := VDict []; pending_updates := [] |}
       (set_stdout (stdout st ++ [WarnCouldNotParse]) st), Ok tt).
Proof.
  intros Hf Hl. unfold SnapshotManager__init__, bind, _load_snapshots.
  rewrite Hf, Hl. reflexivity.
Qed.

(** X23.  A snapshot file that is text but not a JSON document
    ([json.load] raises [JSONDecodeError]) is replaced by the first test
    that runs on it with a result that has a fingerprint, in every mode:
    the warning is printed, the store starts empty, the result is stored
    as the baseline of the test and "Created" is printed; the file then
    holds that one entry and nothing of its former content. *)
Theorem corrupt_file_is_replaced
  (config : ExpectTestConfig) (test_name : string) (where_ : site)
  (result : value) (digest text msg : string) (st : state) :
  file st = Some text ->
  json.load text = Raise (Exn JSONDecodeError msg) ->
  fault st = NoFault ->
  fingerprint (_serialize_value result) = Ok digest ->
  exists new_text st',
    wrapper config test_name where_ (Returns result) st = (st', Ok result)
    /\ stdout st' = (stdout st ++ [WarnCouldNotParse; Created test_name])%list
    /\ manager st'
       = {| snapshots :=
              VDict [(KStr test_name,
                      snapshot_entry (_serialize_value result) (clock st)
                        where_ digest)];
            pending_updates := [] |}
    /\ json.dumps (Some 2%nat) true true (snapshots (manager st'))
       = Ok new_text
    /\ file st' = Some new_text.
Proof.
  intros Hfile Hload Hf Hfp.
  pose proof (init_corrupt st text msg Hfile Hload) as Hinit.
  set (st1 := set_manager _ _) in Hinit.
  destruct (check_snapshot_stores_new config test_name where_
              (_serialize_value result) [] digest st1
              eq_refl eq_refl Hf eq_refl eq_refl Hfp)
    as [new_text [st2 [Hrun [Hm [Hdump [Hfile2 [Hout _]]]]]]].
  exists new_text, st2.
  split.
  { unfold wrapper, evaluate. rewrite <- bind_assoc.
    rewrite (bind_ok _ _ _ _ _ Hinit).
    cbn [capture_outcome]. unfold call at 1.
    rewrite <- bind_assoc.
    rewrite (bind_ok _ _ st1 st1 (_serialize_value result)) by reflexivity.
    rewrite (bind_ok _ _ _ _ _ Hrun). reflexivity. }
  split.
  { rewrite Hout. subst st1. cbn [stdout set_manager set_stdout].
    rewrite <- app_assoc. reflexivity. }
  split; [exact Hm |]. split; assumption.
Qed.

Lemma corrupt_file_is_replaced_witness :
  exists new_text st',
    wrapper (scenario.config FAIL true) "t1" scenario.here
      (Returns scenario.value_42) scenario.corrupt
    = (st', Ok scenario.value_42)
    /\ stdout st' = [WarnCouldNotParse; Created "t1"]
    /\ file st' = Some new_text.
Proof.
  destruct (corrupt_file_is_replaced (scenario.config FAIL true) "t1"
              scenario.here scenario.value_42
              (match fingerprint scenario.value_42 with
               | Ok digest => digest
               | Raise _ => EmptyString
               end)
              "{ not json" "malformed document" scenario.corrupt)
    as [new_text [st' [Hrun [Hout [_ [_ Hfile]]]]]];
    [vm_compute; reflexivity .. |].
  exists new_text, st'. repeat split; assumption.
Defined.

(** X24.  An entry of the loaded store that has no "value" (or is not an
    object) makes the test, for a result that has a fingerprint, raise
    before any comparison, in every mode:
    [KeyError('value')] for an object without the key, [TypeError] for
    anything else.  The file is untouched and nothing is staged. *)
Theorem malformed_entry_raises
  (config : ExpectTestConfig) (test_name : string) (where_ : site)
  (o : outcome) (v entry : value) (d : dict) (digest : string)
  (st st1 : state) :
  SnapshotManager__init__ st = (st1, Ok tt) ->
  snapshots (manager st1) = VDict d ->
  dict_get (KStr test_name) d = Some entry ->
  (forall e x, entry = VDict e -> dict_get (KStr "value") e <> Some x) ->
  capture_outcome o = Ok v ->
  fingerprint v = Ok digest ->
  exists kind msg,
    evaluate config test_name where_ o st = (st1, Raise (Exn kind msg))
    /\ (kind = KeyError \/ kind = TypeError)
    /\ (forall e, entry = VDict e -> kind = KeyError /\ msg = "value")
    /\ file st1 = file st
    /\ pending_updates (manager st1) = [].
Proof.
  intros Hinit Hs Hentry Hnovalue Hcap Hfp.
  destruct (init_manager _ _ Hinit) as [Hp [_ [Hfile _]]].
  assert (Hsub : exists kind msg,
            subscript entry "value" = Raise (Exn kind msg)
            /\ (kind = KeyError \/ kind = TypeError)
            /\ (forall e, entry = VDict e -> kind = KeyError /\ msg = "value")).
  { destruct entry as [| b | z | s | l | l | e | s a | s]; cbn [subscript];
      try (eexists; eexists; split; [reflexivity |];
           split; [right; reflexivity | intros e' He'; discriminate He']).
    destruct (dict_get (KStr "value") e) as [x |] eqn:Ev.
    - destruct (Hnovalue e x eq_refl Ev).
    - eexists; eexists. split; [reflexivity |].
      split; [left; reflexivity | intros e' _; split; reflexivity]. }
  destruct Hsub as [kind [msg [Hsub [Hkind Hdict]]]].
  exists kind, msg.
  split; [| split; [exact Hkind | split; [exact Hdict | split; assumption]]].
  unfold evaluate. rewrite (bind_ok _ _ _ _ _ Hinit).
  unfold call at 1. rewrite Hcap.
  rewrite (bind_ok _ _ st1 st1 v) by reflexivity.
  unfold check_snapshot. unfold call at 1. rewrite Hfp.
  rewrite (bind_ok _ _ st1 st1 digest) by reflexivity.
  rewrite (bind_ok _ _ _ _ _ (has_snapshot_committed _ _ _ Hs Hp)).
  unfold dict_mem. rewrite Hentry.
  apply bind_raise.
  rewrite (get_snapshot_committed _ _ _ Hs Hp), Hentry, Hsub. reflexivity.
Qed.

Lemma malformed_entry_raises_witness :
  let st :=
    scenario.start
      (Some (written (VDict [(KStr "t1", VDict [(KStr "hash", VStr "0")])]) 0))
      NoFault in
  exists kind msg,
    evaluate (scenario.config ACCEPT_NEW false) "t1" scenario.here
      (Returns scenario.value_42) st
    = (fst (SnapshotManager__init__ st), Raise (Exn kind msg))
    /\ (kind = KeyError \/ kind = TypeError).
Proof.
  intros st.
  destruct (malformed_entry_raises (scenario.config ACCEPT_NEW false) "t1"
              scenario.here (Returns scenario.value_42) scenario.value_42
              (VDict [(KStr "hash", VStr "0")])
              [(KStr "t1", VDict [(KStr "hash", VStr "0")])]
              (match fingerprint scenario.value_42 with
               | Ok digest => digest
               | Raise _ => EmptyString
               end)
              st (fst (SnapshotManager__init__ st)))
    as [kind [msg [Hrun [Hkind _]]]];
    [try (vm_compute; reflexivity) .. |].
  { intros e x He. inversion He; subst. discriminate. }
  exists kind, msg. split; assumption.
Defined.

